(** * Trust-Tunnel agent: session broker, request parsing and stream demux

    A shallow embedding of the agent-side code of trust-tunnel
    (pkg/trust-tunnel-agent, pkg/common/sessionutil) and the properties
    of it that the specification states.

    Conventions.  Go [string] and [[]byte] values are [String.string];
    Go [int] is [Z] (64-bit, wrap-around written out where the code can
    reach it); Go maps keyed by strings are [gmap string _]; a nil
    error is [None].  Calls into the container runtime, the operating
    system and the network are not code of this repository: their
    results are inputs of the functions below (records of outcomes). *)

From Stdlib Require Import ZArith List String Ascii Bool Lia.
From Stdlib Require PrimFloat.
From Stdlib Require Import Strings.Byte.
From stdpp Require Import gmap strings list fin_maps.

Local Open Scope string_scope.
Local Open Scope Z_scope.

(** ** Go's [strings] / [bytes] helpers used by the agent *)

Module GoStrings.

(** [strings.HasPrefix s p] *)
Definition HasPrefix (s p : string) : bool := String.prefix p s.

(** [strings.Contains s sub]: [sub] occurs at some offset of [s]. *)
Fixpoint Contains (s sub : string) : bool :=
  if String.prefix sub s then true
  else match s with
       | EmptyString => false
       | String _ s' => Contains s' sub
       end.

(** [strings.HasSuffix s suf] *)
Definition HasSuffix (s suf : string) : bool :=
  let n := String.length s in
  let k := String.length suf in
  (k <=? n)%nat && String.eqb (String.substring (n - k) k s) suf.

(** [strings.TrimPrefix s p] *)
Definition TrimPrefix (s p : string) : string :=
  if String.prefix p s
  then String.substring (String.length p) (String.length s - String.length p) s
  else s.

(** [strings.Split s sep] for a one-character separator: all the
    pieces between separators, empty pieces included. *)
Fixpoint SplitChar (s : string) (sep : ascii) : list string :=
  match s with
  | EmptyString => [EmptyString]
  | String c s' =>
      if Ascii.eqb c sep then EmptyString :: SplitChar s' sep
      else match SplitChar s' sep with
           | [] => [String c EmptyString]
           | p :: ps => String c p :: ps
           end
  end.

(** A prefix of at most [n] characters: the slice [s[:n]] of a
    buffer that holds [s]. *)
Fixpoint take (n : nat) (s : string) : string :=
  match n, s with
  | O, _ => EmptyString
  | _, EmptyString => EmptyString
  | S n', String c s' => String c (take n' s')
  end.

(** [fmt]'s [%d] for a non-negative number, most significant digit
    first; [fuel] bounds the number of digits. *)
Definition digit (d : Z) : ascii := ascii_of_nat (48 + Z.to_nat d).

Fixpoint digits (fuel : nat) (n : Z) (acc : string) : string :=
  match fuel with
  | O => acc
  | S f =>
      let acc' := String (digit (n mod 10)) acc in
      if n <? 10 then acc' else digits f (n / 10) acc'
  end.

(** [fmt]'s [%d] verb on an [int]. *)
Definition FormatInt (n : Z) : string :=
  if n <? 0 then String "-" (digits 20 (- n) EmptyString)
  else digits 20 n EmptyString.

(** [strings.ContainsRune s c], for a one-byte character. *)
Fixpoint hasChar (c : ascii) (s : string) : bool :=
  match s with
  | EmptyString => false
  | String d s' => Ascii.eqb c d || hasChar c s'
  end.

End GoStrings.

(** ** pkg/common/sessionutil: the error taxonomy *)

Module Sessionutil.
Import GoStrings.

Definition maxContainerIDLength : nat := 6.

(** [WrapContainerError]: rewrites runtime error texts into the
    agent's own wording. *)
Definition WrapContainerError (errMsg containerID : string) : string :=
  let containerID :=
    if (maxContainerIDLength <? String.length containerID)%nat
    then take maxContainerIDLength containerID else containerID in
  if Contains errMsg "No such container" || Contains errMsg "not found"
  then "can't find container:" +:+ containerID
  else if Contains errMsg "is not running"
  then "container is not running:" +:+ containerID
  else if Contains errMsg "no such file or directory" || Contains errMsg "connection refused"
  then "docker is unavailable"
  else errMsg.

(** The code chosen by [WrapErrorWithCode]: first matching substring
    wins, in the order of the source's [switch]. *)
Definition errorCode (errMsg : string) : string :=
  if Contains errMsg "no space left on device" then "MA_513"
  else if Contains errMsg "visit authorization server failed" then "MA_518"
  else if Contains errMsg "verify client certificate error" then "MA_519"
  else if Contains errMsg "current sidecar num exceed the limit" then "MA_521"
  else if Contains errMsg "can't find container" then "MA_522"
  else if Contains errMsg "container is not running" then "MA_523"
  else if Contains errMsg "docker daemon is unavailable" then "MA_524"
  else if Contains errMsg "is not permitted to login on host" then "MA_525"
  else if Contains errMsg "user does not exist" then "MA_526"
  else if Contains errMsg "nsenter host namespace failed" then "MA_527"
  else if Contains errMsg "SSH public key insert error" then "MA_528"
  else if Contains errMsg "SSH private key read error" then "MA_529"
  else if Contains errMsg "SSH private key parse error" then "MA_530"
  else if Contains errMsg "SSH connect error" then "MA_531"
  else "MA_-1".

(** [WrapErrorWithCode]: [code=<code>,msg=<msg>]. *)
Definition WrapErrorWithCode (errMsg : string) : string :=
  "code=" +:+ errorCode errMsg +:+ ",msg=" +:+ errMsg.

(** *** process.go: the passwd lookup *)

Definition nl : ascii := ascii_of_nat 10.
Definition expectedPasswdSegmentsCount : nat := 7.

(** The lines that the loop over [buf.ReadString('\n')] sees before
    [io.EOF]: every line that ends in a newline, with its newline.
    A last line without one comes with [io.EOF] and is dropped by
    the [break].  The second component is that unterminated rest. *)
Fixpoint readLines (s : string) : list string * string :=
  match s with
  | EmptyString => ([], EmptyString)
  | String c s' =>
      let '(ls, rest) := readLines s' in
      if Ascii.eqb c nl then (String c EmptyString :: ls, rest)
      else match ls with
           | [] => ([], String c rest)
           | l :: ls' => (String c l :: ls', rest)
           end
  end.

Definition seg (segs : list string) (i : nat) : string :=
  nth i segs EmptyString.

(** The test that lets a passwd line of the user through. *)
Definition loginAllowed (line : string) (segs : list string) : bool :=
  negb (Contains line "nologin")
  && HasSuffix (seg segs 6) (String "s" (String "h" (String nl EmptyString))).

(** The body of the loop of [findUser] over the lines read. *)
Fixpoint scanPasswd (username : string) (lines : list string)
  : string * string * string :=
  match lines with
  | [] => (EmptyString, EmptyString, EmptyString)
  | line :: rest =>
      let segs := SplitChar line ":" in
      if negb (List.length segs =? expectedPasswdSegmentsCount)%nat
      then scanPasswd username rest
      else if negb (String.eqb (seg segs 0) username)
      then scanPasswd username rest
      else if loginAllowed line segs
      then (seg segs 2, seg segs 3, seg segs 5)
      else scanPasswd username rest
  end.

(** [findUser username passwdPath]: [passwd] is the content of the
    file at [passwdPath], [None] when it cannot be opened.  Here and
    below a result [inl msg] is a non-nil error with that text. *)
Definition findUser (username : string) (passwd : option string)
  : string + (string * string * string) :=
  match passwd with
  | None => inl "open host file (/etc/passwd) error"
  | Some content => inr (scanPasswd username (fst (readLines content)))
  end.

(** [GetUserInfo] passes the result of [findUser] on. *)
Definition GetUserInfo (username : string) (passwd : option string)
  : string + (string * string * string) :=
  match findUser username passwd with
  | inl err => inl err
  | inr (uid, gid, loginDir) => inr (uid, gid, loginDir)
  end.

End Sessionutil.

(** ** Go's [strconv] functions used by the agent *)

Module Strconv.

(** [strconv.ParseBool]: the second component is [true] when the
    text is one of the accepted spellings (nil error). *)
Definition ParseBool (str : string) : bool * bool :=
  if String.eqb str "1" || String.eqb str "t" || String.eqb str "T"
     || String.eqb str "true" || String.eqb str "TRUE" || String.eqb str "True"
  then (true, true)
  else if String.eqb str "0" || String.eqb str "f" || String.eqb str "F"
     || String.eqb str "false" || String.eqb str "FALSE" || String.eqb str "False"
  then (false, true)
  else (false, false).

Definition isDigit (c : ascii) : bool :=
  (48 <=? nat_of_ascii c)%nat && (nat_of_ascii c <=? 57)%nat.

Definition digitVal (c : ascii) : Z := Z.of_nat (nat_of_ascii c) - 48.

(** The value of a run of decimal digits, [None] on any other
    character. *)
Fixpoint parseDigits (s : string) (acc : Z) : option Z :=
  match s with
  | EmptyString => Some acc
  | String c s' =>
      if isDigit c then parseDigits s' (acc * 10 + digitVal c) else None
  end.

Definition maxInt : Z := 2 ^ 63 - 1.
Definition minInt : Z := - 2 ^ 63.

(** [strconv.Atoi] on a 64-bit platform: an optional sign and at
    least one decimal digit.  The result is [(0, false)] on a syntax
    error and the nearest representable value with [false] when the
    number does not fit an [int]; the boolean is [true] for a nil
    error. *)
Definition Atoi (s : string) : Z * bool :=
  match s with
  | EmptyString => (0, false)
  | String c rest =>
      let neg := Ascii.eqb c "-" in
      let body := if Ascii.eqb c "-" || Ascii.eqb c "+" then rest else s in
      match body with
      | EmptyString => (0, false)
      | _ =>
          match parseDigits body 0 with
          | None => (0, false)
          | Some n =>
              if neg then (if n >? 2 ^ 63 then (minInt, false) else (- n, true))
              else (if n >=? 2 ^ 63 then (maxInt, false) else (n, true))
          end
      end
  end.

End Strconv.

(** ** pkg/trust-tunnel-client: the target type *)

Module Client.

(** [type TargetType byte], with [TargetPhys = iota] (0) and
    [TargetContainer] (1). *)
Definition TargetType := Z.
Definition TargetPhys : TargetType := 0.
Definition TargetContainer : TargetType := 1.
Definition TargetType_eqb (a b : TargetType) : bool := Z.eqb a b.

End Client.

(** ** pkg/trust-tunnel-agent/backend/request: the request envelope *)

Module Request.
Import Client.

Definition float64 := PrimFloat.float.

Record Info := {
    SessionID : string;
    AgentAddr : string;
    UserName : string;
    LoginName : string;
    LoginGroup : string;
    TargetType : Client.TargetType;
    PodName : string;
    ContainerID : string;
    ContainerName : string;
    Interactive : bool;
    Tty : bool;
    Cmd : list string;
    UseBase64 : bool;
    IPAddress : string;
    AppName : string;
    Cpus : float64;
    MemoryMB : Z;
    DisableCleanMode : bool
  }.

(** The header set of the request, [http.Header]: a map from header
    name to the list of its values. *)
Definition Header := gmap string (list string).

(** [r.Header[name]]: the nil slice when the name is absent. *)
Definition get (h : Header) (name : string) : list string :=
  default [] (h !! name).

(** [tmp[0]] when [len(tmp) > 0], the field's zero value otherwise. *)
Definition first (tmp : list string) : string :=
  match tmp with
  | [] => EmptyString
  | v :: _ => v
  end.

Inductive result (A : Type) :=
| Ok (a : A)
| Err (msg : string).
Arguments Ok {A} a.
Arguments Err {A} msg.

Definition bind {A B} (r : result A) (k : A -> result B) : result B :=
  match r with
  | Ok a => k a
  | Err m => Err m
  end.

Section GetRequestInfo.
(** [strconv.ParseFloat(_, 64)] and [base64.StdEncoding.DecodeString]
    are library code: [None] stands for their error result. *)
Variable ParseFloat : string -> option float64.
Variable DecodeString : string -> option string.

(** The [Target-Type] block: the field keeps its zero value when
    the header is absent. *)
Definition parseTargetType (h : Header) : result Client.TargetType :=
  match get h "Target-Type" with
  | [] => Ok 0
  | v :: _ =>
      if String.eqb v "physical" then Ok TargetPhys
      else if String.eqb v "container" then Ok TargetContainer
      else Err "request error: invalid target type"
  end.

(** The container block: pod name, container id and name are read
    only for a container target. *)
Definition parseContainer (h : Header) (tt : Client.TargetType)
  : result (string * string * string) :=
  if tt =? TargetContainer then
    match get h "Pod-Name" with
    | [] => Err "request error: no pod name of container target"
    | pod :: _ =>
        Ok (pod, first (get h "Container-Id"), first (get h "Container-Name"))
    end
  else Ok (EmptyString, EmptyString, EmptyString).

(** A boolean header: [false] when absent. *)
Definition parseBoolHeader (h : Header) (name what : string) : result bool :=
  match get h name with
  | [] => Ok false
  | v :: _ =>
      match Strconv.ParseBool v with
      | (b, true) => Ok b
      | (_, false) => Err ("request error: invalid " +:+ what +:+ " argument")
      end
  end.

(** The loop over the base64 elements: the first element that does
    not decode ends the whole parse. *)
Fixpoint decodeAll (tmp : list string) : result (list string) :=
  match tmp with
  | [] => Ok []
  | encodedString :: rest =>
      match DecodeString encodedString with
      | None => Err "decoding command error"
      | Some decodedData =>
          bind (decodeAll rest) (fun tl => Ok (decodedData :: tl))
      end
  end.

(** The command block: the pair of [Cmd] and [UseBase64]. *)
Definition parseCommand (h : Header) : result (list string * bool) :=
  match get h "Command-Base64-Encode" with
  | [] =>
      match get h "Command" with
      | [] => Err "request error: no command"
      | tmp => Ok (tmp, false)
      end
  | tmp => bind (decodeAll tmp) (fun decodedCommand => Ok (decodedCommand, true))
  end.

Definition parseCpus (h : Header) : result float64 :=
  match get h "Cpus" with
  | [] => Ok PrimFloat.zero
  | v :: _ =>
      match ParseFloat v with
      | Some f => Ok f
      | None => Err "request error: invalid cpus argument"
      end
  end.

Definition parseMemory (h : Header) : result Z :=
  match get h "Memory" with
  | [] => Ok 0
  | v :: _ =>
      match Strconv.Atoi v with
      | (n, true) => Ok n
      | (_, false) => Err "request error: invalid memoryMB argument"
      end
  end.

Definition parseDisableCleanMode (h : Header) : bool :=
  match get h "Disable-Clean-Mode" with
  | v :: _ => String.eqb v "1"
  | [] => false
  end.

(** [GetRequestInfo]: the blocks above in the order of the source;
    the first failing block decides the error.  Where the source
    appends the text of a library error to its message ([%v]), the
    message stands here without it. *)
Definition GetRequestInfo (h : Header) : result Info :=
  bind (parseTargetType h) (fun tt =>
  bind (parseContainer h tt) (fun '(pod, cid, cname) =>
  bind (parseBoolHeader h "Interactive" "interactive") (fun interactive =>
  bind (parseBoolHeader h "Tty" "tty") (fun tty =>
  bind (parseCommand h) (fun '(cmd, b64) =>
  bind (parseCpus h) (fun cpus =>
  bind (parseMemory h) (fun mem =>
  Ok {| SessionID := first (get h "Session-Id");
        AgentAddr := first (get h "Agent-Addr");
        UserName := first (get h "User-Name");
        LoginName := first (get h "Login-Name");
        LoginGroup := first (get h "Login-Group");
        TargetType := tt;
        PodName := pod;
        ContainerID := cid;
        ContainerName := cname;
        Interactive := interactive;
        Tty := tty;
        Cmd := cmd;
        UseBase64 := b64;
        IPAddress := first (get h "Ip-Address");
        AppName := first (get h "App-Name");
        Cpus := cpus;
        MemoryMB := mem;
        DisableCleanMode := parseDisableCleanMode h |}))))))).

(** The blocks of [GetRequestInfo] around the command block do not
    fail on [h]. *)
Definition othersParse (h : Header) : Prop :=
  exists tt c i t cpus mem,
    parseTargetType h = Ok tt
    /\ parseContainer h tt = Ok c
    /\ parseBoolHeader h "Interactive" "interactive" = Ok i
    /\ parseBoolHeader h "Tty" "tty" = Ok t
    /\ parseCpus h = Ok cpus
    /\ parseMemory h = Ok mem.

End GetRequestInfo.

End Request.

(** ** pkg/trust-tunnel-agent/session *)

Module Session.
Import GoStrings.

(** [type ContainerRuntime string] *)
Definition ContainerRuntime := string.
Definition Docker : ContainerRuntime := "docker".
Definition Containerd : ContainerRuntime := "containerd".

Definition bufferSize : Z := 4096.
Definition stdWriterPrefixLen : nat := 8.
Definition stdWriterFdIndex : nat := 0.
Definition stdWriterSizeIndex : nat := 4.

Record Config := {
  TargetType : Client.TargetType;
  RootfsPrefix : string;
  ContainerID : string;
  SidecarImage : string;
  ImageHubAuth : string;
  UserName : string;
  LoginName : string;
  LoginGroup : string;
  Cmd : list string;
  Tty : bool;
  Interactive : bool;
  PhysTunnel : string;
  DisableCleanMode : bool;
  Cpus : Request.float64;
  MemoryMB : Z;
  ContainerNamespace : string
}.

(** The result of a Go function that may panic. *)
Inductive outcome (A : Type) :=
| Returned (a : A)
| Panicked.
Arguments Returned {A} a.
Arguments Panicked {A}.

(** What the stream task hands to the session's output channels. *)
Inductive Chunk :=
| ToStdout (data : list byte)
| ToStderr (data : list byte).

(** How the stream task ends: it closes both channels, or it returns
    and leaves them open. *)
Inductive ReaderEnd :=
| ChannelsClosed
| ReaderReturned.

(** *** docker.go *)
Module DockerSession.

Record t := {
    respID : string;
    isExec : bool;
    (** [conn net.Conn]: [false] is the nil interface. *)
    conn : bool;
    tty : bool;
    sidecarID : string;
    (** the done channels: has the signal been sent *)
    stdoutDone : bool;
    stderrDone : bool
  }.

Definition StdoutDone (s : t) : t :=
  {| respID := respID s; isExec := isExec s; conn := conn s; tty := tty s;
     sidecarID := sidecarID s; stdoutDone := true; stderrDone := stderrDone s |}.

Definition StderrDone (s : t) : t :=
  {| respID := respID s; isExec := isExec s; conn := conn s; tty := tty s;
     sidecarID := sidecarID s; stdoutDone := stdoutDone s; stderrDone := true |}.

(** [Clean].  [s.conn.Close()] on the nil interface is a nil
    dereference.  [removeErr] is the result of [ContainerRemove];
    the result of [cleanLegacyProcess] is only logged.  The
    returned error is that of the removal, for a sidecar. *)
Definition Clean (s : t) (removeErr : option string) : outcome (t * option string) :=
  if conn s then
    let s' := {| respID := respID s; isExec := isExec s; conn := false; tty := tty s;
                 sidecarID := sidecarID s; stdoutDone := stdoutDone s;
                 stderrDone := stderrDone s |} in
    if negb (isExec s) then Returned (s', removeErr) else Returned (s', None)
  else Panicked.

(** [ExitCode]: receives from [stdoutDone], then from [stderrDone],
    then asks the runtime ([status] is its answer, [None] on an
    error).  [None] as a result: the call is still blocked. *)
Definition ExitCode (s : t) (status : option Z) : option Z :=
  if stdoutDone s && stderrDone s then Some (default 0 status) else None.

Definition byteZ (b : byte) : Z := Z.of_N (Byte.to_N b).

(** [binary.BigEndian.Uint32] *)
Definition Uint32 (b0 b1 b2 b3 : byte) : Z :=
  Z.lor (Z.lor (Z.lor (byteZ b3) (Z.shiftl (byteZ b2) 8))
               (Z.shiftl (byteZ b1) 16))
        (Z.shiftl (byteZ b0) 24).

(** The inner loop of [streamSplitOutput]: [nr] bytes of the frame
    are read, [frameSize - nr] are left.  [None] as the second
    component: the task has returned ([io.ReadFull] failed, a
    stdin frame, an unknown stream byte); [Some rest]: the frame
    is complete and [rest] is unread. *)
Fixpoint readFrame (fuel : nat) (stream : Z) (left : Z) (reader : list byte)
  : option (list Chunk * option (list byte)) :=
  match fuel with
  | O => None
  | S fuel' =>
      if left <=? 0 then Some ([], Some reader)
      else
        let size := if left <? bufferSize then left else bufferSize in
        let n := Z.to_nat size in
        if (List.length reader <? n)%nat then Some ([], None)
        else
          let buffer := firstn n reader in
          let reader' := skipn n reader in
          if stream =? 0 then Some ([], None)
          else if stream =? 1 then
            match readFrame fuel' stream (left - size) reader' with
            | Some (cs, r) => Some (ToStdout buffer :: cs, r)
            | None => None
            end
          else if stream =? 2 then
            match readFrame fuel' stream (left - size) reader' with
            | Some (cs, r) => Some (ToStderr buffer :: cs, r)
            | None => None
            end
          else Some ([], None)
  end.

(** The outer loop of [streamSplitOutput] over what the connection
    delivers before it is closed.  [Peek] fails when fewer than
    eight bytes are left. *)
Fixpoint splitLoop (fuel : nat) (reader : list byte)
  : option (list Chunk * ReaderEnd) :=
  match fuel with
  | O => None
  | S fuel' =>
      match reader with
      | m0 :: m1 :: m2 :: m3 :: m4 :: m5 :: m6 :: m7 :: reader' =>
          let stream := byteZ m0 in
          let frameSize := Uint32 m4 m5 m6 m7 in
          match readFrame (S (List.length reader')) stream frameSize reader' with
          | None => None
          | Some (cs, None) => Some (cs, ReaderReturned)
          | Some (cs, Some rest) =>
              match splitLoop fuel' rest with
              | Some (cs', e) => Some ((cs ++ cs')%list, e)
              | None => None
              end
          end
      | _ => Some ([], ChannelsClosed)
      end
  end.

(** [streamSplitOutput]; [None] would be a run that needs more
    steps than the stream has bytes. *)
Definition streamSplitOutput (reader : list byte)
  : option (list Chunk * ReaderEnd) :=
  splitLoop (S (List.length reader)) reader.

(** [streamUnifiedOutput]: every read fills at most [bufferSize]
    bytes and goes to stdout; the read that finds the connection
    closed closes both channels.  [reads] are the pieces the
    successive [Read] calls return. *)
Definition streamUnifiedOutput (reads : list (list byte))
  : list Chunk * ReaderEnd :=
  (map ToStdout (List.filter (fun r => negb (List.length r =? 0)%nat) reads),
   ChannelsClosed).

(** The pieces of [bufferSize] bytes in which a reader that always
    has data delivers a stream. *)
Fixpoint reads (fuel : nat) (reader : list byte) : list (list byte) :=
  match fuel, reader with
  | O, _ => []
  | _, [] => []
  | S fuel', _ =>
      firstn (Z.to_nat bufferSize) reader
        :: reads fuel' (skipn (Z.to_nat bufferSize) reader)
  end.

(** [handleStreamOutput exec], on the bytes the attached connection
    delivers. *)
Definition handleStreamOutput (s : t) (exec : bool) (reader : list byte)
  : option (list Chunk * ReaderEnd) :=
  if tty s then Some (streamUnifiedOutput (reads (List.length reader) reader))
  else if exec then streamSplitOutput reader
  else Some (streamUnifiedOutput (reads (List.length reader) reader)).

End DockerSession.

(** The container runtime's answers to the calls of docker.go, each
    [None] for a nil error. *)
Record DockerAPI := {
  pullErr : option string;
  createErr : option string;
  attachErr : option string;
  startErr : option string;
  execCreateErr : option string;
  execAttachErr : option string;
  (** the id in the create response *)
  createdID : string
}.

Definition newDockerSession (id : string) (exec tty : bool) : DockerSession.t :=
  {| DockerSession.respID := id;
     DockerSession.isExec := exec;
     DockerSession.conn := true;
     DockerSession.tty := tty;
     DockerSession.sidecarID := if exec then EmptyString else id;
     DockerSession.stdoutDone := false;
     DockerSession.stderrDone := false |}.

(** [attachSidecar]: pull, create, attach and start the sidecar. *)
Definition attachSidecar (c : Config) (api : DockerAPI) : string + DockerSession.t :=
  match pullErr api with
  | Some e => inl e
  | None =>
      if String.eqb (LoginName c) EmptyString
      then inl "empty login name isn't allowed"
      else match createErr api with
           | Some e => inl ("create container exec error: " +:+ e)
           | None =>
               match attachErr api with
               | Some e => inl ("attach to container error: " +:+ e)
               | None =>
                   match startErr api with
                   | Some e => inl ("start container error: " +:+ e)
                   | None => inr (newDockerSession (createdID api) false (Tty c))
                   end
               end
           end
  end.

(** [execContainer]: the runtime's own exec. *)
Definition execContainer (c : Config) (api : DockerAPI) : string + DockerSession.t :=
  match execCreateErr api with
  | Some e => inl ("create container exec error: " +:+ e)
  | None =>
      match execAttachErr api with
      | Some e => inl ("start container exec error: " +:+ e)
      | None => inr (newDockerSession (createdID api) true (Tty c))
      end
  end.

(** [establishDockerSession]; [containerClient] is [false] for a nil
    client, [passwd] is the content of [<rootfs>/etc/passwd].  The
    rewrite of the last command token ([cd <loginDir>;...]) changes
    only what the runtime is asked to run. *)
Definition establishDockerSession (c : Config) (containerClient : bool)
    (passwd : option string) (api : DockerAPI) : string + DockerSession.t :=
  if negb containerClient then inl "container Client is nil"
  else
    let lookup :=
      if negb (String.eqb (LoginName c) EmptyString)
      then Sessionutil.GetUserInfo (LoginName c) passwd
      else inr (EmptyString, EmptyString, EmptyString) in
    match lookup with
    | inl e => inl (Sessionutil.WrapContainerError e (ContainerID c))
    | inr _ =>
        match (if DisableCleanMode c then execContainer c api else attachSidecar c api) with
        | inl e => inl (Sessionutil.WrapContainerError e (ContainerID c))
        | inr s => inr s
        end
    end.

(** The statement [go s.handleStreamOutput(!c.DisableCleanMode)] that
    ends [establishDockerSession]: the stream task of the session. *)
Definition streamTask (c : Config) (s : DockerSession.t) (reader : list byte)
  : option (list Chunk * ReaderEnd) :=
  DockerSession.handleStreamOutput s (negb (DisableCleanMode c)) reader.

(** *** The nsenter session (host namespaces) *)
Module NsenterSession.

Record t := {
    args : list string;
    env : list string;
    tty : bool;
    pid : Z;
    (** the done channels: has the signal been handed over *)
    stdoutDone : bool;
    stderrDone : bool;
    (** [exitCh] is closed *)
    exited : bool;
    exitCode : Z
  }.

Definition StdoutDone (s : t) : t :=
  {| args := args s; env := env s; tty := tty s; pid := pid s;
     stdoutDone := true; stderrDone := stderrDone s;
     exited := exited s; exitCode := exitCode s |}.

Definition StderrDone (s : t) : t :=
  {| args := args s; env := env s; tty := tty s; pid := pid s;
     stdoutDone := stdoutDone s; stderrDone := true;
     exited := exited s; exitCode := exitCode s |}.

(** [wait]: once both done signals are received the exit code of
    the command ([status]) is stored and [exitCh] is closed; until
    then the task stays blocked and the session is unchanged. *)
Definition wait (s : t) (status : Z) : t :=
  if stdoutDone s && stderrDone s then
    {| args := args s; env := env s; tty := tty s; pid := pid s;
       stdoutDone := stdoutDone s; stderrDone := stderrDone s;
       exited := true; exitCode := status |}
  else s.

(** [ExitCode]: a [select] between [exitCh] and a two-second timer.
    [elapsed]: the two seconds have passed.  [None]: blocked. *)
Definition ExitCode (s : t) (elapsed : bool) : option Z :=
  if exited s then Some (exitCode s)
  else if elapsed then Some 0
  else None.

(** [Clean]: the result of [KillProcessGroup] is returned as it is. *)
Definition Clean (s : t) (killErr : option string) : outcome (t * option string) :=
  Returned (s, killErr).

End NsenterSession.

(** What the operating system answers to [establishNsenterSession]. *)
Record NsenterOS := {
  setupErr : option string;
  startErr' : option string;
  childPid : Z
}.

(** [establishNsenterSession] *)
Definition establishNsenterSession (config : Config) (passwd : option string)
    (os : NsenterOS) : string + NsenterSession.t :=
  let lookup :=
    if negb (String.eqb (LoginName config) EmptyString) then
      match Sessionutil.GetUserInfo (LoginName config) passwd with
      | inl e => inl e
      | inr (uid, gid, loginDir) =>
          if String.eqb uid EmptyString
          then inl ("user does not exist:" +:+ LoginName config)
          else inr (uid, gid, loginDir)
      end
    else inr (EmptyString, EmptyString, EmptyString) in
  match lookup with
  | inl e => inl e
  | inr (uid, gid, loginDir) =>
      let args := ["-t"; "1"; "-m"; "-u"; "-i"; "-n"; "-p"] in
      let args :=
        if negb (String.eqb uid EmptyString)
        then (args ++ ["-S"; uid; "-G"; gid; "--wd=" +:+ RootfsPrefix config +:+ loginDir])%list
        else args in
      let args := (args ++ Cmd config)%list in
      match setupErr os with
      | Some e =>
          inl ((if Tty config then "setup console failed: " else "setup raw IO failed: ") +:+ e)
      | None =>
          match startErr' os with
          | Some e => inl ("nsenter host namespace failed: " +:+ e)
          | None =>
              inr {| NsenterSession.args := args;
                     NsenterSession.env :=
                       ["PWD=" +:+ loginDir;
                        "PATH=/usr/local/sbin:/usr/local/bin:/usr/sbin:/usr/bin:/sbin:/bin";
                        "TERM=xterm-256color"];
                     NsenterSession.tty := Tty config;
                     NsenterSession.pid := childPid os;
                     NsenterSession.stdoutDone := false;
                     NsenterSession.stderrDone := false;
                     NsenterSession.exited := false;
                     NsenterSession.exitCode := 0 |}
          end
      end
  end.

(** *** The SSH session *)
Module SshSession.

Record t := {
    stdoutDone : bool;
    stderrDone : bool;
    exited : bool;
    exitCode : Z
  }.

Definition StdoutDone (s : t) : t :=
  {| stdoutDone := true; stderrDone := stderrDone s;
     exited := exited s; exitCode := exitCode s |}.

Definition StderrDone (s : t) : t :=
  {| stdoutDone := stdoutDone s; stderrDone := true;
     exited := exited s; exitCode := exitCode s |}.

(** [wait]: receives both done signals, waits for the remote
    command; [status] is its exit status when the wait ends in an
    exit error, [None] otherwise (the field keeps its value). *)
Definition wait (s : t) (status : option Z) : t :=
  if stderrDone s && stdoutDone s then
    {| stdoutDone := stdoutDone s; stderrDone := stderrDone s;
       exited := true; exitCode := default (exitCode s) status |}
  else s.

Definition ExitCode (s : t) (elapsed : bool) : option Z :=
  if exited s then Some (exitCode s)
  else if elapsed then Some 0
  else None.

Definition Clean (s : t) : outcome (t * option string) := Returned (s, None).

End SshSession.

(** *** The containerd session *)
Module ContainerdSession.

Record t := {
    execID : string;
    (** [s.ctx] is cancelled *)
    cancelled : bool;
    (** the read ends of the pipes are closed *)
    pipesClosed : bool;
    stdoutDone : bool;
    stderrDone : bool;
    (** [exitCode uint32] *)
    exitCode : Z
  }.

Definition StdoutDone (s : t) : t :=
  {| execID := execID s; cancelled := cancelled s; pipesClosed := pipesClosed s;
     stdoutDone := true; stderrDone := stderrDone s; exitCode := exitCode s |}.

Definition StderrDone (s : t) : t :=
  {| execID := execID s; cancelled := cancelled s; pipesClosed := pipesClosed s;
     stdoutDone := stdoutDone s; stderrDone := true; exitCode := exitCode s |}.

(** [wait exitCh]: [status] has arrived on the exit channel; after
    both done signals the context is cancelled and the status is
    stored. *)
Definition wait (s : t) (status : Z) : t :=
  if stdoutDone s && stderrDone s then
    {| execID := execID s; cancelled := true; pipesClosed := pipesClosed s;
       stdoutDone := stdoutDone s; stderrDone := stderrDone s;
       exitCode := status mod 2 ^ 32 |}
  else s.

(** [ExitCode]: the field, read at once. *)
Definition ExitCode (s : t) : option Z := Some (exitCode s).

(** [Clean]: kill the exec unless the context is cancelled (the
    error is logged), close the pipes. *)
Definition Clean (s : t) : outcome (t * option string) :=
  Returned ({| execID := execID s; cancelled := cancelled s; pipesClosed := true;
               stdoutDone := stdoutDone s; stderrDone := stderrDone s;
               exitCode := exitCode s |}, None).

End ContainerdSession.

(** The values behind the [Session] interface. *)
Inductive t :=
| OfDocker (s : DockerSession.t)
| OfNsenter (s : NsenterSession.t)
| OfSSH (s : SshSession.t)
| OfContainerd (s : ContainerdSession.t).

(** The five backends of the design. *)
Inductive Variant :=
| SidecarAttached
| DirectExecDocker
| DirectExecContainerd
| HostNsEnter
| HostSSH.

Definition variantOf (s : t) : Variant :=
  match s with
  | OfDocker d => if DockerSession.isExec d then DirectExecDocker else SidecarAttached
  | OfNsenter _ => HostNsEnter
  | OfSSH _ => HostSSH
  | OfContainerd _ => DirectExecContainerd
  end.

(** Everything outside the agent that [EstablishSession] consults.
    [establishSSHSession] and [establishContainerdSession] enter by
    their results. *)
Record World := {
  passwd : option string;
  docker : DockerAPI;
  nsenterOS : NsenterOS;
  ssh : string + SshSession.t;
  containerd : string + ContainerdSession.t
}.

Definition lift {A} (f : A -> t) (r : string + A) : string + t :=
  match r with
  | inl e => inl e
  | inr a => inr (f a)
  end.

(** [establishPhysSession] *)
Definition establishPhysSession (config : Config) (w : World) : string + t :=
  if String.eqb (PhysTunnel config) "nsenter" && negb (DisableCleanMode config)
  then lift OfNsenter (establishNsenterSession config (passwd w) (nsenterOS w))
  else lift OfSSH (ssh w).

(** [establishContainerSession] *)
Definition establishContainerSession (config : Config) (apiClient containerdClient : bool)
    (containerRuntime : ContainerRuntime) (w : World) : string + t :=
  if String.eqb containerRuntime Docker
  then lift OfDocker (establishDockerSession config apiClient (passwd w) (docker w))
  else if negb containerdClient then inl "containerd Client is nil"
  else lift OfContainerd (containerd w).

(** [EstablishSession] *)
Definition EstablishSession (config : Config) (apiClient containerdClient : bool)
    (containerRuntime : ContainerRuntime) (w : World) : string + t :=
  if Client.TargetType_eqb (TargetType config) Client.TargetPhys
  then establishPhysSession config w
  else establishContainerSession config apiClient containerdClient containerRuntime w.

(** [Clean] through the interface.  [cleanErr] is what the runtime or
    the janitor answers (the removal of the sidecar, the kill of the
    process group). *)
Definition Clean (s : t) (cleanErr : option string) : outcome (t * option string) :=
  match s with
  | OfDocker d =>
      match DockerSession.Clean d cleanErr with
      | Returned (d', e) => Returned (OfDocker d', e)
      | Panicked => Panicked
      end
  | OfNsenter n =>
      match NsenterSession.Clean n cleanErr with
      | Returned (n', e) => Returned (OfNsenter n', e)
      | Panicked => Panicked
      end
  | OfSSH x =>
      match SshSession.Clean x with
      | Returned (x', e) => Returned (OfSSH x', e)
      | Panicked => Panicked
      end
  | OfContainerd c =>
      match ContainerdSession.Clean c with
      | Returned (c', e) => Returned (OfContainerd c', e)
      | Panicked => Panicked
      end
  end.

(** [ExitCode] through the interface: [status] is what the runtime
    reports for a docker session, [elapsed] whether the two-second
    timer of the host sessions has run out.  [None]: blocked. *)
Definition ExitCode (s : t) (status : option Z) (elapsed : bool) : option Z :=
  match s with
  | OfDocker d => DockerSession.ExitCode d status
  | OfNsenter n => NsenterSession.ExitCode n elapsed
  | OfSSH x => SshSession.ExitCode x elapsed
  | OfContainerd c => ContainerdSession.ExitCode c
  end.

(** Both done signals of the session have fired. *)
Definition drained (s : t) : bool :=
  match s with
  | OfDocker d => DockerSession.stdoutDone d && DockerSession.stderrDone d
  | OfNsenter n => NsenterSession.stdoutDone n && NsenterSession.stderrDone n
  | OfSSH x => SshSession.stdoutDone x && SshSession.stderrDone x
  | OfContainerd c => ContainerdSession.stdoutDone c && ContainerdSession.stderrDone c
  end.

End Session.

(** ** pkg/trust-tunnel-agent/sidecar: the legacy-container sweeper *)

Module Sidecar.
Import GoStrings.

Definition defaultSidecarImage : string := "trust-tunnel-sidecar:latest".

(** Durations and instants are nanoseconds, as in Go's [time]. *)
Definition Second : Z := 1000000000.
Definition Minute : Z := 60 * Second.
Definition Hour : Z := 60 * Minute.
Definition defaultCleanLegacySidecarPeriod : Z := 5 * Minute.

Record Config := {
  Image : string;
  ImageHubAuth : string;
  Limit : Z
}.

(** An entry of the answer of [ContainerList], together with what
    the loop finds when it reaches the entry: the clock, and the
    answer of the runtime should the loop ask for the removal. *)
Record Listed := {
  ID : string;
  ImageName : string;
  State : string;
  (** [Created]: seconds since the epoch *)
  Created : Z;
  (** [time.Now()] at the test of this entry *)
  checkedAt : Z;
  removeErr : option string
}.

Inductive Action :=
| Sleep (d : Z)
| ContainerList (all : bool)
| ContainerRemove (id : string) (force : bool)
| LogListFailed
| LogRemoveFailed (id : string)
| LogRemoved (image : string).

(** The condition of the [if] in the loop body:
    [time.Unix(c.Created, 0).Before(time.Now().Add(-time.Hour))]. *)
Definition isLegacy (c : Listed) : bool :=
  HasPrefix (ImageName c) defaultSidecarImage
  && negb (String.eqb (State c) "running")
  && (Created c * Second <? checkedAt c - Hour).

Definition cleanOne (c : Listed) : list Action :=
  if isLegacy c then
    ContainerRemove (ID c) true ::
      match removeErr c with
      | Some _ => [LogRemoveFailed (ID c)]
      | None => [LogRemoved (ImageName c)]
      end
  else [].

(** One turn of the loop; [listing] is [None] when [ContainerList]
    fails. *)
Definition cleanRound (listing : option (list Listed)) : list Action :=
  Sleep defaultCleanLegacySidecarPeriod :: ContainerList true ::
    match listing with
    | None => [LogListFailed]
    | Some containers => flat_map cleanOne containers
    end.

Inductive LoopState :=
| Exited
| Looping.

(** [CleanLegacyContainerPeriodically] over the first turns of its
    loop, one listing per turn: what it has done so far and whether
    it is still in the loop. *)
Definition CleanLegacyContainerPeriodically (apiClient : bool)
    (listings : list (option (list Listed))) : list Action * LoopState :=
  if negb apiClient then ([], Exited)
  else (flat_map cleanRound listings, Looping).

(** The removals among the actions. *)
Definition removals (acts : list Action) : list string :=
  flat_map (fun a => match a with ContainerRemove id _ => [id] | _ => [] end) acts.

End Sidecar.

(** ** pkg/trust-tunnel-agent/backend: the broker *)

Module Backend.
Import GoStrings.

Definition maxWebsocketControlMsgLength : nat := 123.
Definition CloseNormalClosure : Z := 1000.
Definition CloseUnsupportedData : Z := 1003.

(** [auth.Success] *)
Definition Success : Z := 200.

Record SessionConfig := {
  PhysTunnel : string;
  (** a duration, nanoseconds *)
  DelayReleaseSessionTimeout : Z
}.

Record ContainerConfig := {
  Endpoint : string;
  DockerAPIVersion : string;
  RootfsPrefix : string;
  ContainerRuntime : Session.ContainerRuntime;
  Namespace : string
}.

Record Config := {
  sessionConfig : SessionConfig;
  containerConfig : ContainerConfig;
  sidecarConfig : Sidecar.Config
}.

Record StaleSession := {
  userName : string;
  sess : Session.t;
  (** the instant at which [deathClock] fires *)
  deathClock : Z;
  isSidecarSession : bool
}.

(** [Handler]; the clients are [false] when nil, [authHandler] maps a
    request to the code of its verdict. *)
Record Handler := {
  config : Config;
  staleSessions : gmap string StaleSession;
  dockerClient : bool;
  containerdClient : bool;
  authHandler : option (Request.Info -> Z);
  currentSidecarNum : Z
}.

Definition withStale (h : Handler) (m : gmap string StaleSession) : Handler :=
  {| config := config h; staleSessions := m; dockerClient := dockerClient h;
     containerdClient := containerdClient h; authHandler := authHandler h;
     currentSidecarNum := currentSidecarNum h |}.

Definition withSidecarNum (h : Handler) (n : Z) : Handler :=
  {| config := config h; staleSessions := staleSessions h; dockerClient := dockerClient h;
     containerdClient := containerdClient h; authHandler := authHandler h;
     currentSidecarNum := n |}.

Definition withClients (h : Handler) (d c : bool) : Handler :=
  {| config := config h; staleSessions := staleSessions h; dockerClient := d;
     containerdClient := c; authHandler := authHandler h;
     currentSidecarNum := currentSidecarNum h |}.

(** What a run of [Handle] does that others can see. *)
Inductive Event :=
| EstablishSession (variant : option Session.Variant)
| WriteClose (status : Z) (payload : string)
| StreamsWired (sessID : string)
| SessionCleaned (sessID : string) (sess : Session.t).

(** [truncWebsocketErrMsg] *)
Definition truncWebsocketErrMsg (errMsg : string) : string :=
  if (maxWebsocketControlMsgLength <? String.length errMsg)%nat
  then take maxWebsocketControlMsgLength errMsg
  else errMsg.

(** The session configuration that [Handle] builds. *)
Definition sessConfOf (h : Handler) (requestInfo : Request.Info) : Session.Config :=
  {| Session.TargetType := Request.TargetType requestInfo;
     Session.RootfsPrefix := RootfsPrefix (containerConfig (config h));
     Session.ContainerID := Request.ContainerID requestInfo;
     Session.SidecarImage := Sidecar.Image (sidecarConfig (config h));
     Session.ImageHubAuth := Sidecar.ImageHubAuth (sidecarConfig (config h));
     Session.UserName := Request.UserName requestInfo;
     Session.LoginName := Request.LoginName requestInfo;
     Session.LoginGroup := Request.LoginGroup requestInfo;
     Session.Cmd := Request.Cmd requestInfo;
     Session.Tty := Request.Tty requestInfo;
     Session.Interactive := Request.Interactive requestInfo;
     Session.PhysTunnel := PhysTunnel (sessionConfig (config h));
     Session.DisableCleanMode := Request.DisableCleanMode requestInfo;
     Session.Cpus := Request.Cpus requestInfo;
     Session.MemoryMB := Request.MemoryMB requestInfo;
     Session.ContainerNamespace := EmptyString |}.

(** [checkContainerRuntime]; [newClient] is the result of building a
    client now ([None]: built).  After a failed build the source
    stores the nil [*Client] it got in the interface field, so that a
    later request does not build again and faults in
    [EstablishSession] before it has a session, with the stale table
    and the counter as they were; here the field stays unbound and a
    later request builds again.  The runs that the source has are
    runs here: its faulting request leaves the broker as a request
    whose build fails again leaves it here. *)
Definition checkContainerRuntime (h : Handler) (sessConf : Session.Config)
    (runtime : Session.ContainerRuntime) (newClient : option string)
  : Handler * option string :=
  if Client.TargetType_eqb (Session.TargetType sessConf) Client.TargetContainer
     && String.eqb runtime Session.Docker && negb (dockerClient h)
  then match newClient with
       | Some e => (h, Some e)
       | None => (withClients h true (containerdClient h), None)
       end
  else if String.eqb runtime Session.Containerd && negb (containerdClient h)
  then match newClient with
       | Some e => (h, Some e)
       | None => (withClients h (dockerClient h) true, None)
       end
  else (h, None).

(** The error text of [checkSidecarNum]: ["current sidecar num exceed the limit: %d,%d "]. *)
Definition capError (cur limit : Z) : string :=
  "current sidecar num exceed the limit: " +:+ FormatInt cur
    +:+ "," +:+ FormatInt limit +:+ " ".

(** [checkSidecarNum] *)
Definition checkSidecarNum (h : Handler) (sessConf : Session.Config)
    (runtime : Session.ContainerRuntime) : bool * option string :=
  let isContainerSidecarSession :=
    String.eqb runtime Session.Docker && negb (Session.DisableCleanMode sessConf) in
  if isContainerSidecarSession
     && (currentSidecarNum h >=? Sidecar.Limit (sidecarConfig (config h)))
  then (isContainerSidecarSession,
        Some (capError (currentSidecarNum h) (Sidecar.Limit (sidecarConfig (config h)))))
  else (* the last line of the function: [return false, nil] *)
    (false, None).

(** [containerPreCheck] *)
Definition containerPreCheck (h : Handler) (sessConf : Session.Config)
    (runtime : Session.ContainerRuntime) (newClient : option string)
  : Handler * bool * option string :=
  match checkContainerRuntime h sessConf runtime newClient with
  | (h', Some e) => (h', false, Some e)
  | (h', None) =>
      let '(b, e) := checkSidecarNum h' sessConf runtime in (h', b, e)
  end.

(** The locals of a run of [Handle] while its streams are wired. *)
Record Live := {
  sessID : string;
  liveSess : Session.t;
  liveIsSidecarSession : bool;
  liveUserName : string
}.

(** The outside of [Handle]: the clock, the runtime and the client. *)
Record Env := {
  (** [time.Now().Format("20060102150405")] *)
  nowStamp : string;
  (** [time.Now()] when the streams end, nanoseconds *)
  now : Z;
  upgradeErr : option string;
  newClient : option string;
  world : Session.World;
  (** what arrives on [errCh] *)
  streamErr : option string;
  (** the answer to the session's [Clean] *)
  cleanErr : option string
}.

(** The block of [Handle] under the first [Lock]: reuse of a stale
    session. *)
Definition reclaim (h : Handler) (requestInfo : Request.Info)
  : Handler * option Session.t :=
  let sessID := Request.SessionID requestInfo in
  match staleSessions h !! sessID with
  | Some staleSess =>
      if negb (String.eqb sessID EmptyString)
         && String.eqb (Request.UserName requestInfo) (userName staleSess)
      then (withStale h (delete sessID (staleSessions h)), Some (sess staleSess))
      else (h, None)
  | None => (h, None)
  end.

(** [Handle] from the reuse block to the start of the three stream
    tasks.  [None] as the last component: the run has returned. *)
Definition Handle_begin (h : Handler) (requestInfo : Request.Info) (env : Env)
  : Handler * list Event * option Live :=
  let sessConf := sessConfOf h requestInfo in
  let '(h1, reused) := reclaim h requestInfo in
  let sessID :=
    if String.eqb (Request.SessionID requestInfo) EmptyString
    then nowStamp env else Request.SessionID requestInfo in
  match reused with
  | Some s =>
      (h1, [StreamsWired sessID],
       Some {| sessID := sessID; liveSess := s; liveIsSidecarSession := false;
               liveUserName := Request.UserName requestInfo |})
  | None =>
      let runtime := ContainerRuntime (containerConfig (config h1)) in
      let '(h2, isSidecarSession, err) :=
        if Client.TargetType_eqb (Session.TargetType sessConf) Client.TargetContainer
        then containerPreCheck h1 sessConf runtime (newClient env)
        else (h1, false, None) in
      match err with
      | Some e =>
          let errMsg :=
            Sessionutil.WrapErrorWithCode
              (Sessionutil.WrapContainerError e (Session.ContainerID sessConf)) in
          (h2, [WriteClose CloseUnsupportedData
                  (truncWebsocketErrMsg ("Establish session error: " +:+ errMsg))], None)
      | None =>
          match Session.EstablishSession sessConf (dockerClient h2) (containerdClient h2)
                  runtime (world env) with
          | inl e =>
              let errMsg := Sessionutil.WrapErrorWithCode e in
              (h2, [EstablishSession None;
                    WriteClose CloseUnsupportedData
                      (truncWebsocketErrMsg ("Establish session error: " +:+ errMsg))], None)
          | inr s =>
              let h3 :=
                if isSidecarSession
                then withSidecarNum h2 (currentSidecarNum h2 + 1) else h2 in
              (h3, [EstablishSession (Some (Session.variantOf s)); StreamsWired sessID],
               Some {| sessID := sessID; liveSess := s;
                       liveIsSidecarSession := isSidecarSession;
                       liveUserName := Request.UserName requestInfo |})
          end
      end
  end.

(** [releaseSession] *)
Definition releaseSession (h : Handler) (id : string) (s : Session.t)
    (cleanErr : option string) : Session.outcome (Handler * option string) :=
  match Session.Clean s cleanErr with
  | Session.Panicked => Session.Panicked
  | Session.Returned (_, err) =>
      Session.Returned (withStale h (delete id (staleSessions h)), err)
  end.

(** [Handle] from the receive on [errCh] to its end. *)
Definition Handle_end (h : Handler) (l : Live) (env : Env)
  : Session.outcome (Handler * list Event) :=
  match streamErr env with
  | Some _ =>
      Session.Returned
        (withStale h
           (<[sessID l :=
                {| userName := liveUserName l;
                   sess := liveSess l;
                   deathClock := now env + DelayReleaseSessionTimeout (sessionConfig (config h));
                   isSidecarSession := liveIsSidecarSession l |}]> (staleSessions h)),
         [])
  | None =>
      match releaseSession h (sessID l) (liveSess l) (cleanErr env) with
      | Session.Panicked => Session.Panicked
      | Session.Returned (h', err) =>
          let h'' :=
            match err with
            | None =>
                if liveIsSidecarSession l
                then withSidecarNum h' (currentSidecarNum h' - 1) else h'
            | Some _ => h'
            end in
          Session.Returned (h'', [SessionCleaned (sessID l) (liveSess l)])
      end
  end.

(** One entry of the loop of [delayReleaseSession] under the lock;
    [cleanErr] is the answer to the [Clean] of this entry. *)
Definition sweepOne (nowT : Z) (cleanErr : option string) (h : Handler) (id : string)
  : Session.outcome Handler :=
  match staleSessions h !! id with
  | None => Session.Returned h
  | Some staleSess =>
      if deathClock staleSess <=? nowT then
        match releaseSession h id (sess staleSess) cleanErr with
        | Session.Panicked => Session.Panicked
        | Session.Returned (h', None) =>
            Session.Returned
              (if isSidecarSession staleSess
               then withSidecarNum h' (currentSidecarNum h' - 1) else h')
        | Session.Returned (h', Some _) => Session.Returned h'
        end
      else Session.Returned h
  end.

(** [Handle]: parse, authorize, upgrade, then the two halves above.
    [None] in the state of the run: no stream was wired. *)
Definition Handle (ParseFloat : string -> option Request.float64)
    (DecodeString : string -> option string)
    (h : Handler) (header : Request.Header) (env : Env)
  : Session.outcome (Handler * list Event) :=
  match Request.GetRequestInfo ParseFloat DecodeString header with
  | Request.Err _ => Session.Returned (h, [])
  | Request.Ok requestInfo =>
      let denied :=
        match authHandler h with
        | Some verify => negb (verify requestInfo =? Success)
        | None => false
        end in
      if denied then Session.Returned (h, [])
      else match upgradeErr env with
           | Some _ => Session.Returned (h, [])
           | None =>
               match Handle_begin h requestInfo env with
               | (h', evs, None) => Session.Returned (h', evs)
               | (h', evs, Some l) =>
                   match Handle_end h' l env with
                   | Session.Panicked => Session.Panicked
                   | Session.Returned (h'', evs') =>
                       Session.Returned (h'', (evs ++ evs')%list)
                   end
               end
           end
  end.

(** *** The inbound task: text frames *)

Definition resizeHeader : string := "resize: ".
Definition closeHeader : string := "close session".

(** What [processRemoteInput] does with one text frame. *)
Inductive TextAction :=
| Resize (h w : Z)
| Continue
| Return
| ReportError (msg : string).

(** What the one [msgReader.Read(msg)] of a text frame returns: a
    number of bytes, or an error. *)
Inductive ReadResult :=
| ReadBytes (n : nat)
| ReadError (e : string).

(** The bytes [msg[:n]] that the task goes on with: the [Read] fills
    at most the 128 bytes of the buffer and at most what the frame
    holds, and it may return fewer. *)
Definition readBytes (payload : string) (n : nat) : string :=
  take (Nat.min n 128) payload.

(** The text-frame branch of [processRemoteInput] on a frame with
    [payload], the one [Read] of which returns [r]. *)
Definition processTextMessage (payload : string) (r : ReadResult) : TextAction :=
  match r with
  | ReadError e => ReportError ("read from remote error: " +:+ e)
  | ReadBytes n =>
      let msg := readBytes payload n in
      if HasPrefix msg resizeHeader then
        let msg := TrimPrefix msg resizeHeader in
        match SplitChar msg "," with
        | [v0; v1] =>
            let h := fst (Strconv.Atoi v0) in
            let w := fst (Strconv.Atoi v1) in
            if (h >? 0) && (w >? 0) then Resize h w else Continue
        | _ => Continue
        end
      else if HasPrefix msg closeHeader then Return
      else Continue
  end.

End Backend.

(** * The framed stream of the container runtime

    The framing as the design describes it, to compare the stream task
    with: a frame is an eight-byte header (stream byte, three bytes of
    padding, big-endian length) and its payload. *)

Module Framing.
Import Session.

Record Frame := {
    stream : byte;
    pad1 : byte;
    pad2 : byte;
    pad3 : byte;
    len0 : byte;
    len1 : byte;
    len2 : byte;
    len3 : byte;
    payload : list byte
  }.

Definition header (f : Frame) : list byte :=
  [stream f; pad1 f; pad2 f; pad3 f; len0 f; len1 f; len2 f; len3 f].

(** The frame on the wire. *)
Definition wire (f : Frame) : list byte := (header f ++ payload f)%list.

(** The length that bytes 4..8 of the header encode. *)
Definition frameSize (f : Frame) : Z :=
  DockerSession.Uint32 (len0 f) (len1 f) (len2 f) (len3 f).

(** Exactly [frameSize] payload bytes follow the header. *)
Definition wellFramed (f : Frame) : Prop :=
  Z.of_nat (List.length (payload f)) = frameSize f.

Definition streamId (f : Frame) : Z := DockerSession.byteZ (stream f).

(** Byte 0 selects stdout (1) or stderr (2). *)
Definition isOutput (f : Frame) : Prop := streamId f = 1 \/ streamId f = 2.

(** The bytes handed to each output channel, in order. *)
Definition stdoutBytes (cs : list Chunk) : list byte :=
  flat_map (fun c => match c with ToStdout d => d | ToStderr _ => [] end) cs.

Definition stderrBytes (cs : list Chunk) : list byte :=
  flat_map (fun c => match c with ToStderr d => d | ToStdout _ => [] end) cs.

(** The bytes each channel is due: the payloads of its frames. *)
Definition stdoutPayload (fs : list Frame) : list byte :=
  flat_map (fun f => if streamId f =? 1 then payload f else []) fs.

Definition stderrPayload (fs : list Frame) : list byte :=
  flat_map (fun f => if streamId f =? 2 then payload f else []) fs.

(** The stream task of session [s], established from [c], splits
    the frames [fs]: it hands every payload to its channel and
    closes the channels at the end of the stream. *)
Definition demultiplexed (c : Config) (s : DockerSession.t) (fs : list Frame) : Prop :=
  exists cs,
    streamTask c s (flat_map wire fs) = Some (cs, ChannelsClosed)
    /\ stdoutBytes cs = stdoutPayload fs
    /\ stderrBytes cs = stderrPayload fs.

(** The stream task stops at a frame that follows [fs]: what it has
    handed over are the payloads of [fs], and it has returned. *)
Definition stoppedAfter (c : Config) (s : DockerSession.t) (fs : list Frame)
    (tail : list byte) : Prop :=
  exists cs,
    streamTask c s (flat_map wire fs ++ tail)%list = Some (cs, ReaderReturned)
    /\ stdoutBytes cs = stdoutPayload fs
    /\ stderrBytes cs = stderrPayload fs.

(** A stdout frame with the payload [hi]. *)
Definition hiFrame : Frame :=
  {| stream := x01; pad1 := x00; pad2 := x00; pad3 := x00;
     len0 := x00; len1 := x00; len2 := x00; len3 := x02;
     payload := [x68; x69] |}.

(** A stdin frame without payload. *)
Definition emptyStdinFrame : Frame :=
  {| stream := x00; pad1 := x00; pad2 := x00; pad3 := x00;
     len0 := x00; len1 := x00; len2 := x00; len3 := x00;
     payload := [] |}.

(** A request configuration for container [c1], with or without
    clean mode, without tty. *)
Definition containerConf (disableCleanMode : bool) : Config :=
  {| TargetType := Client.TargetContainer; RootfsPrefix := "/rootfs";
     ContainerID := "c1"; SidecarImage := "registry.local/sidecar:1.0";
     ImageHubAuth := ""; UserName := "alice"; LoginName := "app"; LoginGroup := "";
     Cmd := ["sh"; "-c"; "echo hi"]; Tty := false; Interactive := false;
     PhysTunnel := "nsenter"; DisableCleanMode := disableCleanMode;
     Cpus := PrimFloat.zero; MemoryMB := 0; ContainerNamespace := "" |}.

End Framing.

(** * The life of a session

    The done signals and the wait task, through the [Session]
    interface, and the states a session can be in. *)

Module Lifecycle.
Import Session.

(** [StdoutDone] through the interface. *)
Definition StdoutDone (s : t) : t :=
  match s with
  | OfDocker d => OfDocker (DockerSession.StdoutDone d)
  | OfNsenter n => OfNsenter (NsenterSession.StdoutDone n)
  | OfSSH x => OfSSH (SshSession.StdoutDone x)
  | OfContainerd c => OfContainerd (ContainerdSession.StdoutDone c)
  end.

(** [StderrDone] through the interface. *)
Definition StderrDone (s : t) : t :=
  match s with
  | OfDocker d => OfDocker (DockerSession.StderrDone d)
  | OfNsenter n => OfNsenter (NsenterSession.StderrDone n)
  | OfSSH x => OfSSH (SshSession.StderrDone x)
  | OfContainerd c => OfContainerd (ContainerdSession.StderrDone c)
  end.

(** A turn of the session's [wait] task; [status] is the exit status
    the command ended with, [None] when the wait reports none.  The
    docker session has no such task. *)
Definition wait (s : t) (status : option Z) : t :=
  match s with
  | OfDocker d => OfDocker d
  | OfNsenter n => OfNsenter (NsenterSession.wait n (default 0 status))
  | OfSSH x => OfSSH (SshSession.wait x status)
  | OfContainerd c => OfContainerd (ContainerdSession.wait c (default 0 status))
  end.

(** [exitCh] is closed (host sessions). *)
Definition exited (s : t) : bool :=
  match s with
  | OfNsenter n => NsenterSession.exited n
  | OfSSH x => SshSession.exited x
  | _ => false
  end.


(** The exit-code field that the wait task writes; the docker
    session has none. *)
Definition storedExitCode (s : t) : Z :=
  match s with
  | OfDocker _ => 0
  | OfNsenter n => NsenterSession.exitCode n
  | OfSSH x => SshSession.exitCode x
  | OfContainerd c => ContainerdSession.exitCode c
  end.

(** The session as its constructor returns it: no done signal yet,
    the exit channel open and the exit-code field at its zero value. *)
Definition fresh (s : t) : bool :=
  negb (drained s) && negb (exited s) && (storedExitCode s =? 0)
  && match s with
     | OfDocker d => negb (DockerSession.stdoutDone d) && negb (DockerSession.stderrDone d)
     | OfNsenter n => negb (NsenterSession.stdoutDone n) && negb (NsenterSession.stderrDone n)
     | OfSSH x => negb (SshSession.stdoutDone x) && negb (SshSession.stderrDone x)
     | OfContainerd c =>
         negb (ContainerdSession.stdoutDone c) && negb (ContainerdSession.stderrDone c)
     end.






End Lifecycle.

(** * The sweeper of legacy sidecars, as the design words it *)

Module SidecarSpec.
Import GoStrings Sidecar.

(** A listed container is due for removal with respect to [image]:
    its image name begins with [image], it is not running, and it was
    created more than one hour before the test. *)
Definition dueFor (image : string) (c : Listed) : bool :=
  HasPrefix (ImageName c) image
  && negb (String.eqb (State c) "running")
  && (Created c * Second + Hour <? checkedAt c).

(** All removals among the actions are forced. *)
Definition allForced (acts : list Action) : bool :=
  forallb (fun a => match a with ContainerRemove _ force => force | _ => true end) acts.

(** An exited sidecar of the configured image, created two hours
    before the test. *)
Definition oldConfigured (cfg : Config) : Listed :=
  {| ID := "5f2a9c"; ImageName := Image cfg; State := "exited";
     Created := 1714557600; checkedAt := 1714564800 * Second;
     removeErr := None |}.

End SidecarSpec.

(** * The passwd file, as the lookup reads it *)

Module Passwd.
Import GoStrings Sessionutil.

(** [line] is an entry of [username]: seven fields, the first of
    which is the name. *)
Definition isEntryOf (username line : string) : bool :=
  (List.length (SplitChar line ":") =? expectedPasswdSegmentsCount)%nat
  && String.eqb (seg (SplitChar line ":") 0) username.

(** The entries of [username] among the lines read from [content]. *)
Definition entriesOf (username content : string) : list string :=
  List.filter (isEntryOf username) (fst (readLines content)).

(** The entry is turned down by the shell test: [nologin] occurs in
    it or its shell field does not end in [sh]. *)
Definition refused (line : string) : bool :=
  negb (loginAllowed line (SplitChar line ":")).

End Passwd.

(** * The resize message, as the design words it *)

Module ResizeSpec.
Import Strconv.

(** The number a text denotes as a decimal integer: an optional sign
    and at least one digit. *)
Definition decimal (s : string) : option Z :=
  match s with
  | EmptyString => None
  | String c rest =>
      if Ascii.eqb c "-" then
        match rest with
        | EmptyString => None
        | _ => option_map Z.opp (parseDigits rest 0)
        end
      else if Ascii.eqb c "+" then
        match rest with
        | EmptyString => None
        | _ => parseDigits rest 0
        end
      else parseDigits s 0
  end.

(** The text is a decimal integer that is strictly positive. *)
Definition positive (s : string) : bool :=
  match decimal s with
  | Some n => 0 <? n
  | None => false
  end.

(** The remainder of a resize message is [H,W] with both numbers
    strictly positive. *)
Definition wellFormedResize (rest : string) : Prop :=
  exists hs ws,
    rest = hs +:+ String "," ws /\ positive hs = true /\ positive ws = true.

Fixpoint zeros (n : nat) : string :=
  match n with
  | O => EmptyString
  | S n' => String "0" (zeros n')
  end.

(** [24,000...080]: a width of 80 written with 117 leading zeros, so
    that the message has 130 bytes. *)
Definition paddedWidth : string := zeros 117 +:+ "80".
Definition longRest : string := "24" +:+ String "," paddedWidth.

End ResizeSpec.

(** * Scenarios *)

(** ** A broker with a cap of one sidecar *)

Module Scenario.
Import Backend.

Definition cfg : Config :=
  {| sessionConfig := {| PhysTunnel := "nsenter";
                         DelayReleaseSessionTimeout := 60 * Sidecar.Second |};
     containerConfig := {| Endpoint := "unix:///var/run/docker.sock";
                           DockerAPIVersion := "1.40";
                           RootfsPrefix := "/rootfs";
                           ContainerRuntime := Session.Docker;
                           Namespace := "k8s.io" |};
     sidecarConfig := {| Sidecar.Image := "registry.local/sidecar:1.0";
                         Sidecar.ImageHubAuth := "";
                         Sidecar.Limit := 1 |} |}.

(** The broker after boot: no stale session, no sidecar. *)
Definition h0 : Handler :=
  {| config := cfg; staleSessions := ∅; dockerClient := true;
     containerdClient := false; authHandler := None; currentSidecarNum := 0 |}.

(** A request for a clean-mode session in container [c1]. *)
Definition sidecarRequest (id user : string) : Request.Info :=
  {| Request.SessionID := id;
     Request.AgentAddr := "";
     Request.UserName := user;
     Request.LoginName := "app";
     Request.LoginGroup := "";
     Request.TargetType := Client.TargetContainer;
     Request.PodName := "pod-1";
     Request.ContainerID := "c1";
     Request.ContainerName := "main";
     Request.Interactive := true;
     Request.Tty := true;
     Request.Cmd := ["sh"; "-c"; "echo hi"];
     Request.UseBase64 := false;
     Request.IPAddress := "10.0.0.7";
     Request.AppName := "";
     Request.Cpus := PrimFloat.zero;
     Request.MemoryMB := 0;
     Request.DisableCleanMode := false |}.

Definition dockerOK (id : string) : Session.DockerAPI :=
  {| Session.pullErr := None; Session.createErr := None; Session.attachErr := None;
     Session.startErr := None; Session.execCreateErr := None;
     Session.execAttachErr := None; Session.createdID := id |}.

Definition passwdFile : string :=
  "root:x:0:0:root:/root:/bin/bash" +:+ String Sessionutil.nl
    ("app:x:1000:1000:App:/home/app:/bin/bash" +:+ String Sessionutil.nl
    ("daemon:x:1:1:daemon:/usr/sbin:/usr/sbin/nologin" +:+ String Sessionutil.nl
    ("git:x:998:998:git:/home/git:/usr/bin/git-shell" +:+ String Sessionutil.nl ""))).

Definition sshStub : Session.SshSession.t :=
  {| Session.SshSession.stdoutDone := false; Session.SshSession.stderrDone := false;
     Session.SshSession.exited := false; Session.SshSession.exitCode := 0 |}.


Definition containerdStub : Session.ContainerdSession.t :=
  {| Session.ContainerdSession.execID := "4711";
     Session.ContainerdSession.cancelled := false;
     Session.ContainerdSession.pipesClosed := false;
     Session.ContainerdSession.stdoutDone := false;
     Session.ContainerdSession.stderrDone := false;
     Session.ContainerdSession.exitCode := 0 |}.

Definition worldOK (id : string) : Session.World :=
  {| Session.passwd := Some passwdFile;
     Session.docker := dockerOK id;
     Session.nsenterOS := {| Session.setupErr := None; Session.startErr' := None;
                             Session.childPid := 4242 |};
     Session.ssh := inr sshStub;
     Session.containerd := inr containerdStub |}.

(** The surroundings of a run: the runtime creates container [id],
    the streams end with [err]. *)
Definition envOK (id : string) (err : option string) : Env :=
  {| nowStamp := "20240501120000"; now := 1714564800 * Sidecar.Second;
     upgradeErr := None; newClient := None; world := worldOK id;
     streamErr := err; cleanErr := None |}.

Definition variantOfLive (l : option Live) : option Session.Variant :=
  match l with
  | Some l => Some (Session.variantOf (liveSess l))
  | None => None
  end.

(** A sidecar session kept for reuse, as the design describes it:
    flagged, and counted by the gauge. *)
Definition staleSidecar : StaleSession :=
  {| userName := "alice";
     sess := Session.OfDocker (Session.newDockerSession "sc1" false true);
     deathClock := 1714564860 * Sidecar.Second;
     isSidecarSession := true |}.

Definition hStale : Handler :=
  {| config := cfg; staleSessions := {[ "S1" := staleSidecar ]}; dockerClient := true;
     containerdClient := false; authHandler := None; currentSidecarNum := 1 |}.



(** A request for a command on the host, as [login]. *)
Definition hostRequest (login : string) : Request.Info :=
  {| Request.SessionID := "";
     Request.AgentAddr := "";
     Request.UserName := "alice";
     Request.LoginName := login;
     Request.LoginGroup := "";
     Request.TargetType := Client.TargetPhys;
     Request.PodName := "";
     Request.ContainerID := "";
     Request.ContainerName := "";
     Request.Interactive := false;
     Request.Tty := false;
     Request.Cmd := ["sh"; "-c"; "ls /tmp"];
     Request.UseBase64 := false;
     Request.IPAddress := "10.0.0.7";
     Request.AppName := "";
     Request.Cpus := PrimFloat.zero;
     Request.MemoryMB := 0;
     Request.DisableCleanMode := false |}.

(** The passwd line of [daemon] in [passwdFile]. *)
Definition daemonLine : string :=
  "daemon:x:1:1:daemon:/usr/sbin:/usr/sbin/nologin" +:+ String Sessionutil.nl "".

(** The answers of [base64.StdEncoding.DecodeString] on the texts of
    the scenarios: [bHM=] is [ls], [LWw=] is [-l]; the other text
    that occurs, [!!!], is not base64. *)
Definition decodeSample (s : string) : option string :=
  if String.eqb s "bHM=" then Some "ls"
  else if String.eqb s "LWw=" then Some "-l"
  else None.

(** The scenarios carry no [Cpus] header: [strconv.ParseFloat] is
    not asked. *)
Definition parseFloatSample (s : string) : option Request.float64 := None.

(** A request envelope without [Target-Type], with a base64 command. *)
Definition envelope : Request.Header :=
  {[ "User-Name" := ["alice"]; "Login-Name" := ["app"];
     "Command-Base64-Encode" := ["bHM="; "LWw="];
     "Command" := ["ignored"] ]}.

(** The envelope of the malformed-base64 scenario. *)
Definition malformedEnvelope : Request.Header :=
  {[ "User-Name" := ["alice"]; "Login-Name" := ["app"]; "Target-Type" := ["physical"];
     "Command-Base64-Encode" := ["bHM="; "!!!"] ]}.

(** A wired run under the id [S1] on behalf of [user], on an SSH
    session. *)
Definition liveS1 (user : string) : Live :=
  {| sessID := "S1"; liveSess := Session.OfSSH sshStub;
     liveIsSidecarSession := false; liveUserName := user |}.

(** A broker whose authorizer admits nobody but [root]. *)
Definition hGuarded : Handler :=
  {| config := cfg; staleSessions := ∅; dockerClient := true; containerdClient := false;
     authHandler :=
       Some (fun info => if String.eqb (Request.UserName info) "root" then 200 else 403);
     currentSidecarNum := 0 |}.


End Scenario.

(** * The broker as a system

    The runs of [Handle] and the sweeper take turns under the lock of
    the handler: a run enters with its first half, leaves with its
    second half, and the sweeper makes a pass in between. *)

Module Broker.
Import Backend.

(** One pass of the loop of [delayReleaseSession] over the stale
    table under the lock.  [order] is the order in which the [range]
    reaches the ids, [cleanErr id] the answer to the [Clean] of the
    entry of [id]. *)
Fixpoint sweep (order : list string) (nowT : Z) (cleanErr : string -> option string)
    (h : Handler) : Session.outcome Handler :=
  match order with
  | [] => Session.Returned h
  | id :: rest =>
      match sweepOne nowT (cleanErr id) h id with
      | Session.Panicked => Session.Panicked
      | Session.Returned h' => sweep rest nowT cleanErr h'
      end
  end.

(** The handler and the runs of [Handle] whose streams are wired. *)
Record System := {
  handler : Handler;
  running : list Live
}.

Definition entered (l : option Live) : list Live :=
  match l with
  | Some l => [l]
  | None => []
  end.

Inductive step : System -> System -> Prop :=
| step_begin (sys : System) (info : Request.Info) (env : Env)
    (h' : Handler) (evs : list Event) (l : option Live) :
    Handle_begin (handler sys) info env = (h', evs, l) ->
    step sys {| handler := h'; running := (entered l ++ running sys)%list |}
| step_end (sys : System) (l : Live) (env : Env) (h' : Handler) (evs : list Event)
    (before after : list Live) :
    running sys = (before ++ l :: after)%list ->
    Handle_end (handler sys) l env = Session.Returned (h', evs) ->
    step sys {| handler := h'; running := (before ++ after)%list |}
| step_sweep (sys : System) (order : list string) (nowT : Z)
    (cleanErr : string -> option string) (h' : Handler) :
    sweep order nowT cleanErr (handler sys) = Session.Returned h' ->
    step sys {| handler := h'; running := running sys |}.

(** The handler as [NewHandler] returns it. *)
Definition booted (sys : System) : Prop :=
  staleSessions (handler sys) = ∅
  /\ currentSidecarNum (handler sys) = 0
  /\ running sys = [].

Inductive reachable : System -> Prop :=
| reach_boot (sys : System) : booted sys -> reachable sys
| reach_step (sys sys' : System) : reachable sys -> step sys sys' -> reachable sys'.

(** No entry of the stale table and no wired run carries the sidecar
    flag. *)
Definition unflagged (sys : System) : Prop :=
  (forall id st, staleSessions (handler sys) !! id = Some st -> isSidecarSession st = false)
  /\ Forall (fun l => liveIsSidecarSession l = false) (running sys).

(** The entry of the stale table is due at [nowT]. *)
Definition expired (nowT : Z) (st : StaleSession) : bool := deathClock st <=? nowT.




End Broker.

(** * Chunks of the stream task *)

Module Chunks.
Import Session.

(** The bytes of a chunk, whichever channel it goes to. *)
Definition chunkData (c : Chunk) : list byte :=
  match c with
  | ToStdout d => d
  | ToStderr d => d
  end.

(** A chunk holds at least one byte and at most a buffer. *)
Definition bounded (c : Chunk) : Prop :=
  (1 <= List.length (chunkData c) <= 4096)%nat.

(** All bytes handed over, on either channel. *)
Definition totalBytes (cs : list Chunk) : nat :=
  List.length (Framing.stdoutBytes cs) + List.length (Framing.stderrBytes cs).

(** A stderr frame with the payload [no]. *)
Definition noFrame : Framing.Frame :=
  {| Framing.stream := x02; Framing.pad1 := x00; Framing.pad2 := x00; Framing.pad3 := x00;
     Framing.len0 := x00; Framing.len1 := x00; Framing.len2 := x00; Framing.len3 := x02;
     Framing.payload := [x6e; x6f] |}.

(** A frame with the stream byte 3 that announces five bytes. *)
Definition oddFrame : Framing.Frame :=
  {| Framing.stream := x03; Framing.pad1 := x00; Framing.pad2 := x00; Framing.pad3 := x00;
     Framing.len0 := x00; Framing.len1 := x00; Framing.len2 := x00; Framing.len3 := x05;
     Framing.payload := [] |}.

End Chunks.

(** * sessionutil/process.go: the process janitor *)

Module Proc.
Import Session.

Record Process := {
  PID : Z;
  PPID : Z;
  Name : string
}.

(** [slice[k]]; [None]: index out of range. *)
Definition index (slice : list Z) (k : Z) : option Z :=
  if k <? 0 then None else slice !! Z.to_nat k.

(** The loop of [ReverseSlice], at [i], [j].  [None]: out of fuel;
    [Panicked]: an index out of range. *)
Fixpoint reverseLoop (fuel : nat) (i j : Z) (slice : list Z) : option (outcome (list Z)) :=
  match fuel with
  | O => None
  | S fuel' =>
      if i <? j then
        match index slice j, index slice i with
        | Some b, Some a =>
            reverseLoop fuel' (i + 1) (j - 1)
              (<[Z.to_nat j := a]> (<[Z.to_nat i := b]> slice))
        | _, _ => Some Panicked
        end
      else Some (Returned slice)
  end.

(** [ReverseSlice] *)
Definition ReverseSlice (slice : list Z) : option (outcome (list Z)) :=
  reverseLoop (S (List.length slice)) 0 (Z.of_nat (List.length slice) - 1) slice.

(** [Contains] *)
Fixpoint Contains (slice : list string) (str : string) : bool :=
  match slice with
  | [] => false
  | s :: rest => if String.eqb s str then true else Contains rest str
  end.

(** The loop of [FindChildProcesses] over the processes still to
    visit; [rec] is the recursive call on the whole table. *)
Fixpoint childLoop (rec : Z -> option (list Z)) (targetPPID : Z) (rest : list Process)
  : option (list Z) :=
  match rest with
  | [] => Some []
  | process :: rest' =>
      if PPID process =? targetPPID then
        match rec (PID process) with
        | None => None
        | Some sub =>
            match childLoop rec targetPPID rest' with
            | None => None
            | Some more => Some (PID process :: sub ++ more)%list
            end
        end
      else childLoop rec targetPPID rest'
  end.

(** [FindChildProcesses]; [fuel] bounds the depth of the recursion,
    [None]: the recursion is deeper. *)
Fixpoint FindChildProcesses (fuel : nat) (targetPPID : Z) (processes : list Process)
  : option (list Z) :=
  match fuel with
  | O => None
  | S fuel' =>
      childLoop (fun pid => FindChildProcesses fuel' pid processes) targetPPID processes
  end.

(** What the operating system answers to [KillProcessGroup]:
    the results of [os.FindProcess] and of signal 0 ([None]: nil),
    the content of [/proc/<pid>/cmdline] and the result of
    [GetProcesses] ([inl]: an error). *)
Record OS := {
  findProcessErr : option string;
  probeErr : option string;
  cmdlineData : string + string;
  processTable : string + list Process
}.

(** [GetProcessCmdLineByPID] *)
Definition GetProcessCmdLineByPID (os : OS) : string + list string :=
  match cmdlineData os with
  | inl e => inl e
  | inr data => inr (GoStrings.SplitChar data Ascii.zero)
  end.

(** [KillProcessGroup]: the pids that [KillProcess] is called on, in
    order, and the returned error.  The result of [KillProcess] is
    dropped by the source. *)
Definition KillProcessGroup (fuel : nat) (parentPID : Z) (commandLine : string)
    (inverted : bool) (os : OS) : option (outcome (list Z * option string)) :=
  match findProcessErr os with
  | Some e => Some (Returned ([], Some e))
  | None =>
      match probeErr os with
      | Some e =>
          if GoStrings.Contains e "process already finished"
          then Some (Returned ([], None))
          else Some (Returned ([], Some e))
      | None =>
          match GetProcessCmdLineByPID os with
          | inl e => Some (Returned ([], Some e))
          | inr cmdLines =>
              if negb (String.eqb commandLine EmptyString)
                 && negb (Contains cmdLines commandLine)
              then Some (Returned ([], None))
              else
                match processTable os with
                | inl e => Some (Returned ([], Some e))
                | inr allProcesses =>
                    match FindChildProcesses fuel parentPID allProcesses with
                    | None => None
                    | Some childPIDs =>
                        if inverted then
                          match ReverseSlice childPIDs with
                          | None => None
                          | Some Panicked => Some Panicked
                          | Some (Returned childPIDs') => Some (Returned (childPIDs', None))
                          end
                        else Some (Returned (childPIDs, None))
                    end
                end
          end
      end
  end.

(** [dockerSession.cleanLegacyProcess]: [inspect] is the pid that
    [ContainerInspect] reports ([inl]: its error), [killErr] the
    result of [KillProcess] on that pid.  The result lists the pids
    signalled, in order. *)
Definition cleanLegacyProcess (fuel : nat) (isExec : bool) (inspect : string + Z)
    (os : OS) (killErr : option string) : option (outcome (list Z * option string)) :=
  if isExec then Some (Returned ([], None))
  else
    match inspect with
    | inl e => Some (Returned ([], Some e))
    | inr pid =>
        match KillProcessGroup fuel pid "/superman.sh" true os with
        | None => None
        | Some Panicked => Some Panicked
        | Some (Returned (sent, err)) =>
            match err with
            | Some e =>
                if negb (GoStrings.Contains e "process already finished")
                then Some (Returned (sent, Some e))
                else Some (Returned ((sent ++ [pid])%list, killErr))
            | None => Some (Returned ((sent ++ [pid])%list, killErr))
            end
        end
    end.

(** [d] is a child of [t] in the table, or a child of such a one. *)
Inductive descendant (processes : list Process) (t : Z) : Z -> Prop :=
| desc_child (p : Process) :
    In p processes -> PPID p = t -> descendant processes t (PID p)
| desc_step (p : Process) (d : Z) :
    In p processes -> PPID p = t -> descendant processes (PID p) d ->
    descendant processes t d.

(** The table has no cycle: a measure drops from parent to child. *)
Definition ranked (rank : Z -> nat) (processes : list Process) : Prop :=
  forall p, In p processes -> (rank (PID p) < rank (PPID p))%nat.

(** A process table: a sidecar's init (pid 40) with a shell and its
    child, beside an unrelated process. *)
Definition table : list Process :=
  [ {| PID := 40; PPID := 1; Name := "superman.sh" |};
    {| PID := 41; PPID := 40; Name := "bash" |};
    {| PID := 77; PPID := 1; Name := "sshd" |};
    {| PID := 42; PPID := 41; Name := "sleep" |};
    {| PID := 43; PPID := 40; Name := "tail" |} ].

Definition tableRank (pid : Z) : nat := Z.to_nat (100 - pid).

(** The answers for pid 40 running the sidecar's entry script. *)
Definition osOK : OS :=
  {| findProcessErr := None;
     probeErr := None;
     cmdlineData := inr ("/bin/sh" +:+ String Ascii.zero ("/superman.sh" +:+ String Ascii.zero ""));
     processTable := inr table |}.

(** The same pid, now taken by another program. *)
Definition osReused : OS :=
  {| findProcessErr := None;
     probeErr := None;
     cmdlineData := inr ("/usr/sbin/sshd" +:+ String Ascii.zero ("-D" +:+ String Ascii.zero ""));
     processTable := inr table |}.

End Proc.

(** * The agent's key in authorized_keys (host sessions over SSH) *)

Module SshKeys.
Import GoStrings Sessionutil Session.

(** [sessionutil.GetLoginDirAndIDs]; the errors of [strconv.Atoi]
    are dropped. *)
Definition GetLoginDirAndIDs (username : string) (passwd : option string)
    (rootfsPrefix : string) : string + (Z * Z * string) :=
  match findUser username passwd with
  | inl e => inl ("open host file (" +:+ rootfsPrefix +:+ "/etc/passwd) error: " +:+ e)
  | inr (uid, gid, loginDir) =>
      if (String.length loginDir =? 0)%nat
      then inl ("username " +:+ username +:+ " is not permitted to login on host")
      else inr (fst (Strconv.Atoi uid), fst (Strconv.Atoi gid), rootfsPrefix +:+ loginDir)
  end.

(** The loop of [addPublicKeyToAuthorizedKeys] over the lines read. *)
Fixpoint scanKeys (keyStr : string) (lines : list string) (newContent : string)
  : bool * string :=
  match lines with
  | [] => (false, newContent)
  | line :: rest =>
      if Contains line keyStr then (true, newContent)
      else if negb (HasSuffix line "trust-tunnel-agent")
      then scanKeys keyStr rest (newContent +:+ line)
      else scanKeys keyStr rest newContent
  end.

(** [addPublicKeyToAuthorizedKeys]; [authKeys] is the content of the
    file, [inl] when it cannot be opened. *)
Definition addPublicKeyToAuthorizedKeys (key keyStr : string) (authKeys : string + string)
  : string + (bool * string) :=
  match authKeys with
  | inl e => inl ("open authorized_keys file error: " +:+ e)
  | inr content =>
      let '(keyFound, newContent) := scanKeys keyStr (fst (readLines content)) EmptyString in
      if negb keyFound then inr (keyFound, newContent +:+ key)
      else inr (keyFound, newContent)
  end.

(** What the file system answers to [insertPubKeyOnHost]. *)
Record OS := {
  publicKey : string + string;
  mkdirErr : option string;
  chownDirErr : option string;
  openFileErr : option string;
  chownFileErr : option string;
  authorizedKeys : string + string;
  writeErr : option string
}.

(** [createSSHDirAndAuthorizedKeysFile] *)
Definition createSSHDirAndAuthorizedKeysFile (os : OS) : option string :=
  match mkdirErr os with
  | Some e => Some ("create .ssh directory error: " +:+ e)
  | None =>
      match chownDirErr os with
      | Some e => Some ("change ownership of .ssh directory error: " +:+ e)
      | None =>
          match openFileErr os with
          | Some e => Some ("create authorized_keys file error: " +:+ e)
          | None =>
              match chownFileErr os with
              | Some e => Some ("change ownership of authorized_keys file error: " +:+ e)
              | None => None
              end
          end
      end
  end.

(** [insertPubKeyOnHost]: what is written to the authorized_keys
    file ([None]: the file is not written, or the write failed) and
    the error. *)
Definition insertPubKeyOnHost (username rootfsPrefix : string) (passwd : option string)
    (os : OS) : option string * option string :=
  match publicKey os with
  | inl e => (None, Some ("read pub key error: " +:+ e))
  | inr key =>
      match GetLoginDirAndIDs username passwd rootfsPrefix with
      | inl e => (None, Some e)
      | inr _ =>
          match createSSHDirAndAuthorizedKeysFile os with
          | Some e => (None, Some e)
          | None =>
              match addPublicKeyToAuthorizedKeys key key (authorizedKeys os) with
              | inl e => (None, Some e)
              | inr (keyFound, newContent) =>
                  if negb keyFound then
                    match writeErr os with
                    | Some e => (None, Some ("write authorized_keys error: " +:+ e))
                    | None => (Some newContent, None)
                    end
                  else (None, None)
              end
          end
      end
  end.

(** [establishSSHSession]: the insertion of the key comes first;
    [rest] is the result of the steps after it. *)
Definition establishSSHSession (config : Config) (passwd : option string) (os : OS)
    (rest : string + SshSession.t) : string + SshSession.t :=
  match snd (insertPubKeyOnHost (LoginName config) (RootfsPrefix config) passwd os) with
  | Some e => inl ("SSH public key insert error: " +:+ e)
  | None => rest
  end.

(** The same file system with another authorized_keys file. *)
Definition withAuthorizedKeys (os : OS) (content : string) : OS :=
  {| publicKey := publicKey os; mkdirErr := mkdirErr os; chownDirErr := chownDirErr os;
     openFileErr := openFileErr os; chownFileErr := chownFileErr os;
     authorizedKeys := inr content; writeErr := writeErr os |}.

(** The lines put together again. *)
Definition joined (lines : list string) : string :=
  fold_right String.append EmptyString lines.

(** The content up to and including its last newline. *)
Definition terminated (content : string) : string := joined (fst (readLines content)).

(** No line that is read has [keyStr] in it. *)
Definition keyAbsent (keyStr content : string) : bool :=
  negb (existsb (fun line => Contains line keyStr) (fst (readLines content))).

(** A line as [ReadString] returns it before the end of the file:
    one newline, at its end. *)
Definition properLine (line : string) : Prop :=
  exists b, hasChar nl b = false /\ line = b +:+ String nl EmptyString.

(** A key of one line, with or without its newline. *)
Definition oneLine (key : string) : Prop :=
  exists k, hasChar nl k = false /\ (key = k \/ key = k +:+ String nl EmptyString).

Definition agentKey : string :=
  "ssh-rsa AAAAB3Nza trust-tunnel-agent" +:+ String nl EmptyString.

(** An authorized_keys file with a key of an earlier agent, a key of
    the user and a last line without newline. *)
Definition userKeys : string :=
  "ssh-rsa AAAAold trust-tunnel-agent" +:+ String nl
    ("ssh-ed25519 AAAAuser app@host" +:+ String nl "ssh-rsa AAAAcut").

Definition osKeys : OS :=
  {| publicKey := inr agentKey; mkdirErr := None; chownDirErr := None;
     openFileErr := None; chownFileErr := None;
     authorizedKeys := inr userKeys; writeErr := None |}.

End SshKeys.

(** * pkg/trust-tunnel-client: what the client sends *)

Module ClientSide.
Import GoStrings Client.

(** The fields of [Client] that reach the request. *)
Record Client := {
  SessionID : string;
  AgentAddr : string;
  (** the field [Type] *)
  Type_ : TargetType;
  UserName : string;
  LoginName : string;
  LoginGroup : string;
  IPAddress : string;
  PodName : string;
  ContainerName : string;
  ContainerID : string;
  Interactive : bool;
  Tty : bool;
  Command : list string;
  Cpus : Request.float64;
  MemoryMB : Z;
  DisableCleanMode : bool
}.

(** [strconv.FormatBool] *)
Definition FormatBool (b : bool) : string := if b then "true" else "false".

(** [strconv.Itoa] *)
Definition Itoa (n : Z) : string := FormatInt n.

Section start.
(** [base64.StdEncoding.EncodeToString] and [strconv.FormatFloat(_,
    'f', -1, 64)] are library code. *)
Variable EncodeToString : string -> string.
Variable FormatFloat : Request.float64 -> string.

(** The request headers that [start] builds. *)
Definition startHeader (c : Client) : Request.Header :=
  let encodedCommand := map EncodeToString (Command c) in
  let header : Request.Header :=
    {[ "Session-Id" := [SessionID c];
       "User-Name" := [UserName c];
       "Login-Name" := [LoginName c];
       "Login-Group" := [LoginGroup c];
       "Ip-Address" := [IPAddress c];
       "Interactive" := [FormatBool (Interactive c)];
       "Tty" := [FormatBool (Tty c)];
       "Command" := Command c;
       "Command-Base64-Encode" := encodedCommand;
       "Cpus" := [FormatFloat (Cpus c)];
       "Memory" := [Itoa (MemoryMB c)];
       "Agent-Addr" := [AgentAddr c] ]} in
  let header :=
    if DisableCleanMode c then <["Disable-Clean-Mode" := ["1"]]> header else header in
  if TargetType_eqb (Type_ c) TargetPhys then <["Target-Type" := ["physical"]]> header
  else
    let header := <["Target-Type" := ["container"]]> header in
    let header := <["Pod-Name" := [PodName c]]> header in
    let header :=
      if (0 <? String.length (ContainerName c))%nat
      then <["Container-Name" := [ContainerName c]]> header else header in
    if (0 <? String.length (ContainerID c))%nat
    then <["Container-Id" := [ContainerID c]]> header else header.

End start.

(** [agentConn.Resize]: the text frame that is sent. *)
Definition Resize (height width : Z) : string :=
  "resize: " +:+ FormatInt height +:+ "," +:+ FormatInt width.

(** [agentConn.CloseSession]: the text frame that is sent. *)
Definition CloseSession : string := "close session".

(** What the agent makes of the client's fields when all arrives. *)
Definition infoOf (c : Client) : Request.Info :=
  let phys := TargetType_eqb (Type_ c) TargetPhys in
  {| Request.SessionID := SessionID c;
     Request.AgentAddr := AgentAddr c;
     Request.UserName := UserName c;
     Request.LoginName := LoginName c;
     Request.LoginGroup := LoginGroup c;
     Request.TargetType := if phys then TargetPhys else TargetContainer;
     Request.PodName := if phys then EmptyString else PodName c;
     Request.ContainerID := if phys then EmptyString else ContainerID c;
     Request.ContainerName := if phys then EmptyString else ContainerName c;
     Request.Interactive := Interactive c;
     Request.Tty := Tty c;
     Request.Cmd := Command c;
     Request.UseBase64 := true;
     Request.IPAddress := IPAddress c;
     Request.AppName := EmptyString;
     Request.Cpus := Cpus c;
     Request.MemoryMB := MemoryMB c;
     Request.DisableCleanMode := DisableCleanMode c |}.

(** A client that asks for a shell in a container. *)
Definition shellClient : Client :=
  {| SessionID := "S7"; AgentAddr := "10.0.0.9"; Type_ := TargetContainer;
     UserName := "alice"; LoginName := "app"; LoginGroup := "";
     IPAddress := "10.0.0.7"; PodName := "pod-1"; ContainerName := "main";
     ContainerID := ""; Interactive := true; Tty := true;
     Command := ["bash"; "-l"]; Cpus := PrimFloat.zero; MemoryMB := 512;
     DisableCleanMode := true |}.

(** Stand-ins for the library pairs, right on [shellClient]. *)
Definition encodeSample (s : string) : string := "b64:" +:+ s.

Definition decodeSample (s : string) : option string :=
  if String.prefix "b64:" s then Some (TrimPrefix s "b64:") else None.

Definition formatFloatSample (f : Request.float64) : string := "0".

Definition parseFloatSample (s : string) : option Request.float64 :=
  if String.eqb s "0" then Some PrimFloat.zero else None.

End ClientSide.

(** * pkg/trust-tunnel-client: the blocking buffer *)

Module BlockingBuffer.

(** The buffer: [None] is the nil pointer that [Close] leaves;
    [signal] tells whether the channel of capacity one holds its
    token, [closed] whether the channel is closed. *)
Record t := {
  readBuffer : option (list byte);
  writeBuffer : option (list byte);
  signal : bool;
  closed : bool
}.

Definition NewBlockingBuffer : t :=
  {| readBuffer := Some []; writeBuffer := Some []; signal := false; closed := false |}.

(** Where the goroutine that reads stands: outside [Read]; at the
    top of the loop of [Read] with a slice of [n] bytes; blocked on
    the channel; past the receive, before the swap. *)
Inductive readerPC :=
| RIdle
| RTop (n : nat)
| RWait (n : nat)
| RSwap (n : nat).

(** Where the goroutine that writes and closes stands: outside any
    call; in [Write], past the locked append, before the send; in
    [Close], before and between the two length tests of the loop
    condition, before [close(signal)], before the locked reset;
    returned from [Close]; panicked. *)
Inductive writerPC :=
| WIdle
| WSignal
| CPollRead
| CPollWrite
| CCloseSignal
| CReset
| WDone
| WPanicked.

(** One reader, one writer, and what has passed: the bytes written
    so far, the bytes that [Read] calls have returned so far, and
    whether a [Read] has returned [io.EOF]. *)
Record System := {
  buf : t;
  reader : readerPC;
  writer : writerPC;
  written : list byte;
  delivered : list byte;
  eof : bool
}.

Definition boot : System :=
  {| buf := NewBlockingBuffer; reader := RIdle; writer := WIdle;
     written := []; delivered := []; eof := false |}.

(** The steps of [Read] and [Write].  A block under the lock is one
    step. *)
Inductive step : System -> System -> Prop :=
| read_call (s : System) (n : nat) :
    reader s = RIdle ->
    step s {| buf := buf s; reader := RTop n; writer := writer s;
              written := written s; delivered := delivered s; eof := eof s |}
| read_top_nil (s : System) (n : nat) :
    reader s = RTop n -> readBuffer (buf s) = None ->
    step s {| buf := buf s; reader := RIdle; writer := writer s;
              written := written s; delivered := delivered s; eof := true |}
| read_top_data (s : System) (n : nat) (r : list byte) :
    reader s = RTop n -> readBuffer (buf s) = Some r -> r <> [] \/ n = O ->
    step s {| buf := {| readBuffer := Some (skipn n r); writeBuffer := writeBuffer (buf s);
                        signal := signal (buf s); closed := closed (buf s) |};
              reader := RIdle; writer := writer s; written := written s;
              delivered := (delivered s ++ firstn n r)%list; eof := eof s |}
| read_top_drained (s : System) (n : nat) :
    reader s = RTop n -> readBuffer (buf s) = Some [] -> n <> O ->
    step s {| buf := buf s; reader := RWait n; writer := writer s;
              written := written s; delivered := delivered s; eof := eof s |}
| read_wake (s : System) (n : nat) :
    reader s = RWait n -> signal (buf s) = true ->
    step s {| buf := {| readBuffer := readBuffer (buf s); writeBuffer := writeBuffer (buf s);
                        signal := false; closed := closed (buf s) |};
              reader := RSwap n; writer := writer s; written := written s;
              delivered := delivered s; eof := eof s |}
| read_closed (s : System) (n : nat) :
    reader s = RWait n -> signal (buf s) = false -> closed (buf s) = true ->
    step s {| buf := buf s; reader := RIdle; writer := writer s;
              written := written s; delivered := delivered s; eof := true |}
| read_swap_nil (s : System) (n : nat) :
    reader s = RSwap n -> readBuffer (buf s) = None ->
    step s {| buf := buf s; reader := RIdle; writer := writer s;
              written := written s; delivered := delivered s; eof := true |}
| read_swap (s : System) (n : nat) (r : list byte) :
    reader s = RSwap n -> readBuffer (buf s) = Some r ->
    step s {| buf := {| readBuffer := writeBuffer (buf s); writeBuffer := Some [];
                        signal := signal (buf s); closed := closed (buf s) |};
              reader := RTop n; writer := writer s; written := written s;
              delivered := delivered s; eof := eof s |}
| write_call (s : System) (p w : list byte) :
    writer s = WIdle -> writeBuffer (buf s) = Some w ->
    step s {| buf := {| readBuffer := readBuffer (buf s); writeBuffer := Some (w ++ p)%list;
                        signal := signal (buf s); closed := closed (buf s) |};
              reader := reader s; writer := WSignal; written := (written s ++ p)%list;
              delivered := delivered s; eof := eof s |}
| write_signal (s : System) :
    writer s = WSignal -> closed (buf s) = false ->
    step s {| buf := {| readBuffer := readBuffer (buf s); writeBuffer := writeBuffer (buf s);
                        signal := true; closed := closed (buf s) |};
              reader := reader s; writer := WIdle; written := written s;
              delivered := delivered s; eof := eof s |}
| write_signal_closed (s : System) :
    writer s = WSignal -> closed (buf s) = true ->
    step s {| buf := buf s; reader := reader s; writer := WPanicked;
              written := written s; delivered := delivered s; eof := eof s |}.

(** The steps of [Close], called by the goroutine that writes. *)
Inductive closeStep : System -> System -> Prop :=
| close_call (s : System) :
    writer s = WIdle ->
    closeStep s {| buf := buf s; reader := reader s; writer := CPollRead;
                   written := written s; delivered := delivered s; eof := eof s |}
| poll_nil (s : System) :
    writer s = CPollRead -> readBuffer (buf s) = None ->
    closeStep s {| buf := buf s; reader := reader s; writer := WPanicked;
                   written := written s; delivered := delivered s; eof := eof s |}
| poll_read_empty (s : System) :
    writer s = CPollRead -> readBuffer (buf s) = Some [] ->
    closeStep s {| buf := buf s; reader := reader s; writer := CPollWrite;
                   written := written s; delivered := delivered s; eof := eof s |}
| poll_write_busy (s : System) (w : list byte) :
    writer s = CPollWrite -> writeBuffer (buf s) = Some w -> w <> [] ->
    closeStep s {| buf := buf s; reader := reader s; writer := CPollRead;
                   written := written s; delivered := delivered s; eof := eof s |}
| poll_write_empty (s : System) :
    writer s = CPollWrite -> writeBuffer (buf s) = Some [] ->
    closeStep s {| buf := buf s; reader := reader s; writer := CCloseSignal;
                   written := written s; delivered := delivered s; eof := eof s |}
| close_signal (s : System) :
    writer s = CCloseSignal -> closed (buf s) = false ->
    closeStep s {| buf := {| readBuffer := readBuffer (buf s);
                             writeBuffer := writeBuffer (buf s);
                             signal := signal (buf s); closed := true |};
                   reader := reader s; writer := CReset; written := written s;
                   delivered := delivered s; eof := eof s |}
| close_reset (s : System) :
    writer s = CReset ->
    closeStep s {| buf := {| readBuffer := None; writeBuffer := None;
                             signal := signal (buf s); closed := closed (buf s) |};
                   reader := reader s; writer := WDone; written := written s;
                   delivered := delivered s; eof := eof s |}.

(** The states of the runs in which [Close] is not called. *)
Inductive reachable : System -> Prop :=
| reach_boot : reachable boot
| reach_step (s s' : System) : reachable s -> step s s' -> reachable s'.

(** The states of all runs. *)
Inductive reachableC : System -> Prop :=
| reachC_boot : reachableC boot
| reachC_step (s s' : System) : reachableC s -> step s s' -> reachableC s'
| reachC_close (s s' : System) : reachableC s -> closeStep s s' -> reachableC s'.

(** The reader has drained the read buffer. *)
Definition drainedAt (pc : readerPC) : bool :=
  match pc with
  | RWait _ | RSwap _ => true
  | _ => false
  end.

(** What holds of every state of a run without [Close]. *)
Definition inv (s : System) : Prop :=
  exists r w,
    readBuffer (buf s) = Some r
    /\ writeBuffer (buf s) = Some w
    /\ closed (buf s) = false
    /\ eof s = false
    /\ written s = (delivered s ++ r ++ w)%list
    /\ (drainedAt (reader s) = true -> r = [])
    /\ (w <> [] ->
        signal (buf s) = true \/ writer s = WSignal \/ exists n, reader s = RSwap n)
    /\ (writer s = WIdle \/ writer s = WSignal).

(** The reader is blocked, the writer has written [hi] and is back. *)
Definition waiting : System :=
  {| buf := {| readBuffer := Some []; writeBuffer := Some [x68; x69];
               signal := true; closed := false |};
     reader := RWait 4; writer := WIdle;
     written := [x68; x69]; delivered := []; eof := false |}.

(** The end of a run in which [Close] has returned and the one
    [Read] has returned [io.EOF]. *)
Definition dropped (p : list byte) : System :=
  {| buf := {| readBuffer := None; writeBuffer := None; signal := false; closed := true |};
     reader := RIdle; writer := WDone;
     written := p; delivered := []; eof := true |}.

End BlockingBuffer.

(** * sidecar: pulling the image *)

Module SidecarPull.
Import GoStrings Sidecar.

(** What [ImageInspectWithRaw] answers. *)
Inductive Inspect :=
| Found
| NotFound
| InspectErr (e : string).

(** The answers of the runtime to [PullMissingImage]: the first
    inspection, [ImagePull], the reading of its body, and whether
    the second inspection finds the image. *)
Record ImageAPI := {
  inspectFirst : Inspect;
  pullErr : option string;
  readErr : option string;
  inspectAfter : bool
}.

(** [imageExists] *)
Definition imageExists (api : ImageAPI) : string + bool :=
  match inspectFirst api with
  | Found => inr true
  | NotFound => inr false
  | InspectErr e => inl e
  end.

(** The reference handed to [ImagePull]: [name + ":" + tag] from
    the pieces of [strings.Split(image, ":")]. *)
Definition pullReference (image : string) : string :=
  let nameAndTags := SplitChar image ":" in
  let name := nth 0 nameAndTags EmptyString in
  let tag := if (1 <? List.length nameAndTags)%nat
             then nth 1 nameAndTags EmptyString else "latest" in
  name +:+ ":" +:+ tag.

(** The value of a byte of the string. *)
Definition byteOf (c : ascii) : N := N_of_ascii c.

(** [asciiSpace]: tab, line feed, vertical tab, form feed, carriage
    return and the space. *)
Definition asciiSpace (c : ascii) : bool :=
  let n := byteOf c in ((9 <=? n) && (n <=? 13) || (n =? 32))%N.

(** The UTF-8 forms of the white space of [unicode.IsSpace] in two
    bytes: U+0085 and U+00A0. *)
Definition twoByteSpace (c d : ascii) : bool :=
  ((byteOf c =? 194) && ((byteOf d =? 133) || (byteOf d =? 160)))%N.

(** The same in three bytes: U+1680, U+2000 to U+200A, U+2028,
    U+2029, U+202F, U+205F and U+3000. *)
Definition threeByteSpace (c d e : ascii) : bool :=
  ((byteOf c =? 225) && (byteOf d =? 154) && (byteOf e =? 128)
   || (byteOf c =? 226) && (byteOf d =? 128)
      && ((128 <=? byteOf e) && (byteOf e <=? 138)
          || (byteOf e =? 168) || (byteOf e =? 169) || (byteOf e =? 175))
   || (byteOf c =? 226) && (byteOf d =? 129) && (byteOf e =? 159)
   || (byteOf c =? 227) && (byteOf d =? 128) && (byteOf e =? 128))%N.

(** [strings.TrimSpace(image) == ""]: the string is a run of
    white-space runes.  A byte that starts no such rune, an invalid
    one included, ends the trimming and stays. *)
Fixpoint blank (s : string) : bool :=
  match s with
  | EmptyString => true
  | String c r =>
      if asciiSpace c then blank r
      else
        match r with
        | String d r1 =>
            if twoByteSpace c d then blank r1
            else
              match r1 with
              | String e r2 => if threeByteSpace c d e then blank r2 else false
              | EmptyString => false
              end
        | EmptyString => false
        end
  end.

(** [PullMissingImage]: the reference of the pull that was asked for
    ([None]: no pull) and the result.  [apiClient]: the client is
    not nil. *)
Definition PullMissingImage (image : string) (force apiClient : bool)
    (api : ImageAPI) : option string * (string + string) :=
  if negb apiClient then (None, inl "container client is not ready")
  else
    let image := if blank image then defaultSidecarImage else image in
    match imageExists api with
    | inl e => (None, inl e)
    | inr exists_ =>
        if exists_ && negb force then (None, inr image)
        else
          let ref := pullReference image in
          match pullErr api with
          | Some e => (Some ref, inl e)
          | None =>
              match readErr api with
              | Some e => (Some ref, inl ("failed to read image pulling content: " +:+ e))
              | None =>
                  if inspectAfter api then (Some ref, inr image)
                  else (Some ref, inl ("failed to pull image " +:+ image))
              end
          end
    end.

(** [Init]: [statErr] is the result of [os.Stat] on the socket of
    the endpoint. *)
Definition Init (image : string) (apiClient : bool) (statErr : option string)
    (api : ImageAPI) : option string * (string + string) :=
  if negb apiClient then (None, inl "container client is nil")
  else
    match statErr with
    | Some e => (None, inl e)
    | None => PullMissingImage image false apiClient api
    end.

(** A runtime that does not have the image and pulls it. *)
Definition missing : ImageAPI :=
  {| inspectFirst := NotFound; pullErr := None; readErr := None; inspectAfter := true |}.

End SidecarPull.

(** * Properties *)

(** ** Strings *)

Section StringFacts.
Import GoStrings.

Lemma prefix_app (p s : string) : String.prefix p (p +:+ s) = true.
  Proof.
    induction p as [|c p IH]; simpl.
    - destruct s; reflexivity.
    - destruct (ascii_dec c c) as [_|n]; [exact IH | contradiction].
  Qed.

Lemma prefix_split (p s : string) :
    String.prefix p s = true -> exists r, s = p +:+ r.
  Proof.
    revert s. induction p as [|c p IH]; intros s H.
    - exists s. reflexivity.
    - destruct s as [|d s]; simpl in H; [discriminate|].
      destruct (ascii_dec c d) as [->|]; [|discriminate].
      destruct (IH _ H) as [r ->]. exists r. reflexivity.
  Qed.

Lemma substring_all (s : string) : String.substring 0 (String.length s) s = s.
  Proof. induction s as [|c s IH]; simpl; [reflexivity | now rewrite IH]. Qed.

Lemma substring_skip (p r : string) (n : nat) :
    String.substring (String.length p) n (p +:+ r) = String.substring 0 n r.
  Proof. induction p as [|c p IH]; simpl; [reflexivity | exact IH]. Qed.

Lemma length_append (a b : string) :
    String.length (a +:+ b) = (String.length a + String.length b)%nat.
  Proof. induction a as [|c a IH]; simpl; [reflexivity | now rewrite IH]. Qed.

(** [TrimPrefix] removes a prefix that is there. *)
Lemma TrimPrefix_app (p r : string) : TrimPrefix (p +:+ r) p = r.
Proof.
  unfold TrimPrefix. rewrite prefix_app, substring_skip, length_append.
  replace (String.length p + String.length r - String.length p)%nat
    with (String.length r) by lia.
  apply substring_all.
Qed.

Lemma take_all (n : nat) (s : string) :
  (String.length s <= n)%nat -> take n s = s.
Proof.
  revert s. induction n as [|n IH]; intros [|c s] H; simpl in *;
    try reflexivity; [lia|]. rewrite IH; [reflexivity | lia].
Qed.

Lemma prefix_hasChar (c : ascii) (p s : string) :
  String.prefix p s = true -> hasChar c p = true -> hasChar c s = true.
Proof.
  revert s. induction p as [|d p IH]; intros s Hp Hc; [discriminate|].
  destruct s as [|e s]; simpl in Hp; [discriminate|].
  destruct (ascii_dec d e) as [->|]; [|discriminate]. simpl in *.
  destruct (Ascii.eqb c e); [reflexivity|]. simpl in *. eauto.
Qed.

(** A text without the character [c] contains no pattern with it. *)
Lemma Contains_hasChar (c : ascii) (s sub : string) :
  hasChar c sub = true -> hasChar c s = false -> Contains s sub = false.
Proof.
  intros Hsub. induction s as [|d s IH]; intros Hs; simpl.
  - destruct sub; [discriminate | reflexivity].
  - destruct sub as [|e sub]; [discriminate|].
    simpl in Hs. apply orb_false_elim in Hs as [Hd Hs].
    destruct (ascii_dec e d) as [->|].
    + destruct (String.prefix sub s) eqn:Hp.
      * exfalso. simpl in Hsub. rewrite Hd in Hsub. simpl in Hsub.
        rewrite (prefix_hasChar c sub s Hp Hsub) in Hs. discriminate.
      * apply IH, Hs.
    + apply IH, Hs.
Qed.

End StringFacts.

(** ** The sidecar cap *)

Section SidecarCap.
Import GoStrings Backend.

Lemma hasChar_append (c : ascii) (a b : string) :
    hasChar c (a +:+ b) = hasChar c a || hasChar c b.
  Proof.
    induction a as [|d a IH]; simpl; [reflexivity|].
    rewrite IH. apply orb_assoc.
  Qed.

Lemma digit_isDigit (d : Z) : 0 <= d < 10 -> Strconv.isDigit (digit d) = true.
  Proof.
    intros H.
    assert (d = 0 \/ d = 1 \/ d = 2 \/ d = 3 \/ d = 4 \/ d = 5 \/ d = 6
            \/ d = 7 \/ d = 8 \/ d = 9) as Hd by lia.
    repeat (destruct Hd as [->|Hd]; [reflexivity|]). subst. reflexivity.
  Qed.

Lemma eqb_nondigit (c : ascii) (d : Z) :
    Strconv.isDigit c = false -> 0 <= d < 10 -> Ascii.eqb c (digit d) = false.
  Proof.
    intros Hc Hd. destruct (Ascii.eqb c (digit d)) eqn:E; [|reflexivity].
    apply Ascii.eqb_eq in E. subst. rewrite digit_isDigit in Hc; [discriminate | assumption].
  Qed.

(** [%d] prints digits only. *)
Lemma digits_hasChar (c : ascii) (fuel : nat) (n : Z) (acc : string) :
  Strconv.isDigit c = false ->
  hasChar c (digits fuel n acc) = hasChar c acc.
Proof.
  intros Hc. revert n acc. induction fuel as [|f IH]; intros n acc; simpl; [reflexivity|].
  assert (hasChar c (String (digit (n mod 10)) acc) = hasChar c acc) as E.
  { simpl. rewrite eqb_nondigit; [reflexivity | assumption |].
    apply Z.mod_pos_bound. lia. }
  destruct (n <? 10); [exact E|]. rewrite IH. exact E.
Qed.

Lemma FormatInt_hasChar (c : ascii) (n : Z) :
  Strconv.isDigit c = false -> Ascii.eqb c "-" = false ->
  hasChar c (FormatInt n) = false.
Proof.
  intros Hc Hm. unfold FormatInt. destruct (n <? 0).
  - cbn [hasChar]. rewrite Hm, digits_hasChar by assumption. reflexivity.
  - now rewrite digits_hasChar.
Qed.

Lemma capError_no_o (cur limit : Z) : hasChar "o" (capError cur limit) = false.
Proof.
  unfold capError. rewrite !hasChar_append, !FormatInt_hasChar by reflexivity.
  reflexivity.
Qed.

(** The cap error keeps its text through [WrapContainerError] and is
    classified [MA_521]. *)
Lemma capError_code (cur limit : Z) (cid : string) :
  Sessionutil.WrapErrorWithCode (Sessionutil.WrapContainerError (capError cur limit) cid)
  = "code=MA_521,msg=" +:+ capError cur limit.
Proof.
  pose proof (capError_no_o cur limit) as Ho.
  assert (forall p, hasChar "o" p = true -> Contains (capError cur limit) p = false) as Hn.
  { intros p Hp. eapply Contains_hasChar; eassumption. }
  unfold Sessionutil.WrapContainerError.
  rewrite !Hn by reflexivity. simpl orb. cbv iota.
  unfold Sessionutil.WrapErrorWithCode, Sessionutil.errorCode.
  rewrite !Hn by reflexivity.
  replace (Contains (capError cur limit) "current sidecar num exceed the limit")
    with true by reflexivity.
  reflexivity.
Qed.

(** [checkSidecarNum] reports a sidecar session only together with
    the cap error. *)
Lemma checkSidecarNum_flag (h : Handler) (c : Session.Config) (r : Session.ContainerRuntime) :
  snd (checkSidecarNum h c r) = None -> fst (checkSidecarNum h c r) = false.
Proof.
  unfold checkSidecarNum.
  destruct (_ && (currentSidecarNum h >=? _)); simpl; [discriminate | reflexivity].
Qed.

Lemma checkContainerRuntime_num h c r nc :
  currentSidecarNum (fst (checkContainerRuntime h c r nc)) = currentSidecarNum h.
Proof.
  unfold checkContainerRuntime.
  repeat match goal with
         | |- context [if ?b then _ else _] => destruct b
         | |- context [match ?o with Some _ => _ | None => _ end] => destruct o
         end; reflexivity.
Qed.

Lemma reclaim_num h info :
  currentSidecarNum (fst (reclaim h info)) = currentSidecarNum h.
Proof.
  unfold reclaim. destruct (staleSessions h !! _); [|reflexivity].
  destruct (_ && _); reflexivity.
Qed.

(** No run of [Handle] raises the counter: the flag that guards the
    increment is never set on the path that establishes a session. *)
Lemma Handle_begin_num (h : Handler) (info : Request.Info) (env : Env) :
  currentSidecarNum (fst (fst (Handle_begin h info env))) = currentSidecarNum h.
Proof.
  unfold Handle_begin.
  pose proof (reclaim_num h info) as Hr.
  destruct (reclaim h info) as [h1 [s|]]; simpl in Hr; [exact Hr|].
  destruct (Client.TargetType_eqb _ _).
  - unfold containerPreCheck.
    pose proof (checkContainerRuntime_num h1 (sessConfOf h info)
                  (ContainerRuntime (containerConfig (config h1))) (newClient env)) as Hc.
    destruct (checkContainerRuntime _ _ _ _) as [h2 [e|]]; simpl in Hc.
    + simpl. congruence.
    + pose proof (checkSidecarNum_flag h2 (sessConfOf h info)
                    (ContainerRuntime (containerConfig (config h1)))) as Hf.
      destruct (checkSidecarNum _ _ _) as [b [e|]]; simpl in *; [congruence|].
      rewrite Hf by reflexivity.
      destruct (Session.EstablishSession _ _ _ _ _); simpl; congruence.
  - destruct (Session.EstablishSession _ _ _ _ _); simpl; congruence.
Qed.

(** At the limit a sidecar-bound request is turned away with the
    [MA_521] text and no session is established. *)
Lemma cap_rejects (h : Handler) (info : Request.Info) (env : Env) :
  reclaim h info = (h, None) ->
  Request.TargetType info = Client.TargetContainer ->
  ContainerRuntime (containerConfig (config h)) = Session.Docker ->
  dockerClient h = true ->
  Request.DisableCleanMode info = false ->
  Sidecar.Limit (sidecarConfig (config h)) <= currentSidecarNum h ->
  Handle_begin h info env
  = (h,
     [WriteClose CloseUnsupportedData
        (truncWebsocketErrMsg
           ("Establish session error: code=MA_521,msg="
            +:+ capError (currentSidecarNum h) (Sidecar.Limit (sidecarConfig (config h)))))],
     None).
Proof.
  intros Hr Ht Hd Hc Hm Hl. unfold Handle_begin. rewrite Hr.
  unfold sessConfOf at 2. cbn [Session.TargetType]. rewrite Ht.
  cbn [Client.TargetType_eqb Client.TargetContainer Z.eqb Pos.eqb].
  unfold containerPreCheck, checkContainerRuntime.
  cbn [sessConfOf Session.TargetType]. rewrite Ht, Hd, Hc.
  cbn [Client.TargetType_eqb Client.TargetContainer Z.eqb Pos.eqb negb andb].
  replace (String.eqb Session.Docker Session.Containerd) with false by reflexivity.
  cbn [andb]. unfold checkSidecarNum. cbn [Session.DisableCleanMode]. rewrite Hm.
  replace (String.eqb Session.Docker Session.Docker) with true by reflexivity.
  cbn [negb andb].
  replace (currentSidecarNum h >=? Sidecar.Limit (sidecarConfig (config h))) with true
    by (symmetry; apply Z.geb_le; lia).
  cbn [Session.ContainerID]. rewrite capError_code. reflexivity.
Qed.

End SidecarCap.

Section BrokerClaims.
Import Backend Scenario.

(** C1.  With a limit of one, the broker establishes a sidecar
    session for a first request and its counter stays at zero while
    that session is live; a second sidecar-bound request is therefore
    not turned away: a second sidecar is established and the counter
    is still zero.  (The claim asks for a counter of one and for the
    rejection of the second request.) *)
Theorem sidecar_counter_stays_zero :
  let r1 := Handle_begin h0 (sidecarRequest "" "alice") (envOK "sc1" None) in
  let h1 := fst (fst r1) in
  let r2 := Handle_begin h1 (sidecarRequest "" "bob") (envOK "sc2" None) in
  Sidecar.Limit (sidecarConfig (config h0)) = 1
  /\ variantOfLive (snd r1) = Some Session.SidecarAttached
  /\ currentSidecarNum h1 = 0
  /\ snd (fst r2) = [EstablishSession (Some Session.SidecarAttached);
                      StreamsWired "20240501120000"]
  /\ variantOfLive (snd r2) = Some Session.SidecarAttached
  /\ currentSidecarNum (fst (fst r2)) = 0.
Proof. vm_compute. repeat split. Qed.

(** The reuse block takes the entry out of the table when the id is
    not empty and the user names agree. *)
Lemma reclaim_removes (h : Handler) (info : Request.Info) (st : StaleSession) :
  staleSessions h !! Request.SessionID info = Some st ->
  Request.SessionID info <> EmptyString ->
  Request.UserName info = userName st ->
  reclaim h info
  = (withStale h (delete (Request.SessionID info) (staleSessions h)), Some (sess st))
  /\ staleSessions (fst (reclaim h info)) !! Request.SessionID info = None.
Proof.
  intros Hl Hid Hu. unfold reclaim. rewrite Hl.
  replace (String.eqb (Request.SessionID info) EmptyString) with false
    by (symmetry; now apply String.eqb_neq).
  rewrite Hu, String.eqb_refl. cbn [negb andb fst withStale staleSessions].
  split; [reflexivity | apply lookup_delete_eq].
Qed.

(** A run of [Handle] that reuses a stale session treats it as a
    session without sidecar, whatever the entry's flag says. *)
Lemma reuse_forgets_flag (h : Handler) (info : Request.Info) (env : Env) (st : StaleSession) :
  staleSessions h !! Request.SessionID info = Some st ->
  Request.SessionID info <> EmptyString ->
  Request.UserName info = userName st ->
  exists h' evs l,
    Handle_begin h info env = (h', evs, Some l)
    /\ liveSess l = sess st
    /\ liveIsSidecarSession l = false.
Proof.
  intros Hl Hid Hu. unfold Handle_begin.
  destruct (reclaim_removes h info st Hl Hid Hu) as [-> _].
  eexists _, _, _. split; [reflexivity|]. split; reflexivity.
Qed.

End BrokerClaims.

(** ** The stream task of the docker sessions *)

Section Demux.
Import Session Session.DockerSession Framing.

Lemma stdoutBytes_app (a b : list Chunk) :
    stdoutBytes (a ++ b) = (stdoutBytes a ++ stdoutBytes b)%list.
  Proof. apply flat_map_app. Qed.

Lemma stderrBytes_app (a b : list Chunk) :
    stderrBytes (a ++ b) = (stderrBytes a ++ stderrBytes b)%list.
  Proof. apply flat_map_app. Qed.

(** The inner loop on a complete payload: all of it goes to the
    channel of the frame, the rest of the stream is left unread. *)
Lemma readFrame_payload (fuel : nat) (st : Z) (p rest : list byte) :
  st = 1 \/ st = 2 ->
  (List.length p < fuel)%nat ->
  exists cs,
    readFrame fuel st (Z.of_nat (List.length p)) (p ++ rest) = Some (cs, Some rest)
    /\ stdoutBytes cs = (if st =? 1 then p else [])
    /\ stderrBytes cs = (if st =? 2 then p else []).
Proof.
  intros Hst. revert p. induction fuel as [|f IH]; intros p Hf; [lia|].
  cbn [readFrame].
  destruct (Z.leb_spec (Z.of_nat (List.length p)) 0) as [Hz|Hz].
  { destruct p; [|simpl in Hz; lia]. exists []. simpl.
    destruct Hst as [-> | ->]; auto. }
  set (size := if Z.of_nat (List.length p) <? bufferSize
               then Z.of_nat (List.length p) else bufferSize).
  assert (1 <= size <= Z.of_nat (List.length p)) as Hs.
  { unfold size, bufferSize.
    destruct (Z.ltb_spec (Z.of_nat (List.length p)) 4096); lia. }
  set (n := Z.to_nat size).
  assert (1 <= n <= List.length p)%nat as Hn by (unfold n; lia).
  replace (List.length (p ++ rest) <? n)%nat with false
    by (symmetry; apply Nat.ltb_ge; rewrite List.length_app; lia).
  rewrite List.firstn_app, List.skipn_app.
  replace (n - List.length p)%nat with O by lia.
  rewrite List.firstn_O, List.skipn_O, List.app_nil_r.
  destruct (IH (skipn n p)) as (cs & Hcs & Ho & He).
  { rewrite List.length_skipn. lia. }
  replace (Z.of_nat (List.length p) - size) with (Z.of_nat (List.length (skipn n p)))
    by (rewrite List.length_skipn; unfold n; lia).
  rewrite Hcs.
  destruct Hst as [-> | ->]; cbn [Z.eqb Pos.eqb] in *.
  - exists (ToStdout (firstn n p) :: cs). split; [reflexivity|]. split.
    + change (stdoutBytes (ToStdout (firstn n p) :: cs))
        with (firstn n p ++ stdoutBytes cs)%list.
      rewrite Ho. apply List.firstn_skipn.
    + exact He.
  - exists (ToStderr (firstn n p) :: cs). split; [reflexivity|]. split.
    + exact Ho.
    + change (stderrBytes (ToStderr (firstn n p) :: cs))
        with (firstn n p ++ stderrBytes cs)%list.
      rewrite He. apply List.firstn_skipn.
Qed.

(** The inner loop on a stdin frame that announces payload: the
    task returns. *)
Lemma readFrame_stdin (fuel : nat) (left : Z) (reader : list byte) :
  0 < left -> readFrame (S fuel) 0 left reader = Some ([], None).
Proof.
  intros H. cbn [readFrame].
  replace (left <=? 0) with false by (symmetry; apply Z.leb_gt; lia).
  destruct (_ <? _)%nat; reflexivity.
Qed.

Lemma splitLoop_header (fuel : nat) (f : Frame) (r : list byte) :
  splitLoop (S fuel) (header f ++ r)
  = match readFrame (S (List.length r)) (streamId f) (frameSize f) r with
    | None => None
    | Some (cs, None) => Some (cs, ReaderReturned)
    | Some (cs, Some rest) =>
        match splitLoop fuel rest with
        | Some (cs', e) => Some ((cs ++ cs')%list, e)
        | None => None
        end
    end.
Proof. reflexivity. Qed.

Lemma wire_length (fs : list Frame) :
  (8 * List.length fs <= List.length (flat_map wire fs))%nat.
Proof.
  induction fs as [|f fs IH]; simpl; [lia|].
  rewrite List.length_app. lia.
Qed.

(** The outer loop over well-formed output frames, followed by
    [tail]: the payloads are handed over and the loop goes on with
    [tail]. *)
Lemma splitLoop_frames (fs : list Frame) :
  Forall wellFramed fs -> Forall isOutput fs ->
  forall (fuel : nat) (tail : list byte),
    (List.length (flat_map wire fs ++ tail) < fuel)%nat ->
    exists cs,
      stdoutBytes cs = stdoutPayload fs
      /\ stderrBytes cs = stderrPayload fs
      /\ splitLoop fuel (flat_map wire fs ++ tail)
         = match splitLoop (fuel - List.length fs) tail with
           | Some (cs', e) => Some ((cs ++ cs')%list, e)
           | None => None
           end.
Proof.
  intros Hw Ho. induction fs as [|f fs IH]; intros fuel tail Hf.
  - exists []. cbn [flat_map app List.length]. rewrite Nat.sub_0_r.
    repeat split. destruct (splitLoop fuel tail) as [[cs e]|]; reflexivity.
  - inversion Hw as [|? ? Hwf Hwfs]; subst. inversion Ho as [|? ? Hof Hofs]; subst.
    destruct fuel as [|fuel]; [lia|].
    cbn [flat_map] in *. unfold wire at 1. unfold wire at 1 in Hf.
    rewrite <- !List.app_assoc in *. rewrite splitLoop_header.
    rewrite !List.length_app in Hf. cbn [header List.length] in Hf.
    destruct (readFrame_payload (S (List.length (payload f ++ flat_map wire fs ++ tail)))
                (streamId f) (payload f) (flat_map wire fs ++ tail) Hof)
      as (cs1 & Hr & Hso & Hse).
    { rewrite List.length_app. lia. }
    red in Hwf. rewrite <- Hwf, Hr.
    destruct (IH Hwfs Hofs fuel tail) as (cs2 & Ho2 & He2 & Hl).
    { rewrite List.length_app. lia. }
    rewrite Hl. cbn [List.length Nat.sub].
    exists (cs1 ++ cs2)%list.
    rewrite stdoutBytes_app, stderrBytes_app, Hso, Hse, Ho2, He2.
    repeat split.
    destruct (splitLoop (fuel - List.length fs) tail) as [[cs' e]|];
      [rewrite List.app_assoc|]; reflexivity.
Qed.

End Demux.

Section DemuxClaims.
Import Session Session.DockerSession Framing.

(** The inner loop ends on every stream, with enough steps. *)
Lemma readFrame_total (fuel : nat) (st left : Z) (reader : list byte) :
  (List.length reader < fuel)%nat ->
  exists cs r,
    readFrame fuel st left reader = Some (cs, r)
    /\ forall rest, r = Some rest -> (List.length rest <= List.length reader)%nat.
Proof.
  revert left reader. induction fuel as [|f IH]; intros left reader Hf; [lia|].
  cbn [readFrame].
  destruct (Z.leb_spec left 0) as [Hz|Hz].
  { exists [], (Some reader). split; [reflexivity|]. intros ? [= <-]. lia. }
  set (size := if left <? bufferSize then left else bufferSize).
  assert (1 <= Z.to_nat size)%nat as Hsz.
  { unfold size, bufferSize. destruct (left <? 4096); lia. }
  destruct (Nat.ltb_spec (List.length reader) (Z.to_nat size)) as [Hl|Hl].
  { exists [], None. split; [reflexivity | discriminate]. }
  destruct (st =? 0); [exists [], None; split; [reflexivity|discriminate]|].
  destruct (IH (left - size) (skipn (Z.to_nat size) reader)) as (cs & r & Hr & Hlen).
  { rewrite List.length_skipn. lia. }
  rewrite Hr.
  destruct (st =? 1); [|destruct (st =? 2)].
  - eexists _, r. split; [reflexivity|]. intros rest Hrest.
    specialize (Hlen rest Hrest). rewrite List.length_skipn in Hlen. lia.
  - eexists _, r. split; [reflexivity|]. intros rest Hrest.
    specialize (Hlen rest Hrest). rewrite List.length_skipn in Hlen. lia.
  - exists [], None. split; [reflexivity | discriminate].
Qed.

Lemma splitLoop_total (fuel : nat) (reader : list byte) :
  (List.length reader < fuel)%nat -> exists r, splitLoop fuel reader = Some r.
Proof.
  revert reader. induction fuel as [|f IH]; intros reader Hf; [lia|].
  destruct reader as [|m0 [|m1 [|m2 [|m3 [|m4 [|m5 [|m6 [|m7 reader]]]]]]]];
    try (eexists; reflexivity).
  cbn [splitLoop].
  destruct (readFrame_total (S (List.length reader)) (byteZ m0) (Uint32 m4 m5 m6 m7) reader)
    as (cs & r & Hr & Hlen); [lia|].
  rewrite Hr. destruct r as [rest|]; [|eexists; reflexivity].
  destruct (IH rest) as [[cs' e] He].
  { specialize (Hlen rest eq_refl). cbn [List.length] in Hf. lia. }
  rewrite He. eexists; reflexivity.
Qed.

(** [streamSplitOutput] ends on every stream. *)
Lemma streamSplitOutput_total (reader : list byte) :
  exists cs e, streamSplitOutput reader = Some (cs, e).
Proof.
  destruct (splitLoop_total (S (List.length reader)) reader) as [[cs e] H]; [lia|].
  exists cs, e. exact H.
Qed.

(** For a docker session without tty that is
    established in clean mode (sidecar attached), the stream task
    splits the attached stream by the eight-byte headers: of every
    frame whose byte 0 is 1 or 2, exactly the payload bytes that the
    big-endian length in bytes 4..8 counts go to stdout (1) or
    stderr (2), in order, and the channels are closed at the end of
    the stream; a stdin frame (byte 0 = 0) that announces payload
    makes the task return, with nothing after it handed over. *)
Theorem sidecar_stream_demultiplexed (c : Config) (s : DockerSession.t) (fs : list Frame) :
  tty s = false ->
  DisableCleanMode c = false ->
  Forall wellFramed fs ->
  Forall isOutput fs ->
  demultiplexed c s fs
  /\ forall (f0 : Frame) (rest : list byte),
       streamId f0 = 0 -> 0 < frameSize f0 ->
       stoppedAfter c s fs (header f0 ++ rest).
Proof.
  intros Ht Hc Hw Ho. split.
  - unfold demultiplexed, streamTask, handleStreamOutput. rewrite Ht, Hc. cbn [negb].
    unfold streamSplitOutput.
    destruct (splitLoop_frames fs Hw Ho (S (List.length (flat_map wire fs))) [])
      as (cs & Hso & Hse & Hl).
    { rewrite List.app_nil_r. lia. }
    rewrite List.app_nil_r in Hl. rewrite Hl.
    pose proof (wire_length fs) as Hlen.
    destruct (S (List.length (flat_map wire fs)) - List.length fs)%nat eqn:E; [lia|].
    exists cs. cbn [splitLoop]. rewrite List.app_nil_r. auto.
  - intros f0 rest Hs0 Hsz.
    unfold stoppedAfter, streamTask, handleStreamOutput. rewrite Ht, Hc. cbn [negb].
    unfold streamSplitOutput.
    destruct (splitLoop_frames fs Hw Ho
                (S (List.length (flat_map wire fs ++ header f0 ++ rest))) (header f0 ++ rest))
      as (cs & Hso & Hse & Hl); [lia|].
    rewrite Hl.
    pose proof (wire_length fs) as Hlen.
    destruct (S (List.length (flat_map wire fs ++ header f0 ++ rest)) - List.length fs)%nat
      eqn:E; [rewrite List.length_app in E; lia|].
    rewrite splitLoop_header, Hs0, readFrame_stdin by assumption.
    exists cs. rewrite List.app_nil_r. auto.
Qed.

Lemma sidecar_stream_demultiplexed_witness :
  demultiplexed (containerConf false) (newDockerSession "sc1" false false) [hiFrame].
Proof.
  apply (sidecar_stream_demultiplexed (containerConf false)
           (newDockerSession "sc1" false false) [hiFrame]).
  - reflexivity.
  - reflexivity.
  - repeat constructor.
  - repeat constructor.
Defined.

(** C3.  The claim fails for the direct-exec variant.  A docker
    session without tty that is established with clean mode disabled
    is an exec session, and its stream task, started with the negated
    clean-mode switch where the parameter asks whether the session is
    exec, hands the attached stream to stdout as it is, headers
    included: the stream is not demultiplexed.  Started with the exec
    mark of the session, the same task splits the same stream. *)
Theorem direct_exec_stream_not_demultiplexed :
  establishDockerSession (containerConf true) true (Some Scenario.passwdFile)
    (Scenario.dockerOK "e1") = inr (newDockerSession "e1" true false)
  /\ tty (newDockerSession "e1" true false) = false
  /\ isExec (newDockerSession "e1" true false) = true
  /\ wellFramed hiFrame /\ isOutput hiFrame
  /\ streamTask (containerConf true) (newDockerSession "e1" true false) (wire hiFrame)
     = Some ([ToStdout (wire hiFrame)], ChannelsClosed)
  /\ ~ demultiplexed (containerConf true) (newDockerSession "e1" true false) [hiFrame]
  /\ handleStreamOutput (newDockerSession "e1" true false)
       (isExec (newDockerSession "e1" true false)) (wire hiFrame)
     = Some ([ToStdout [x68; x69]], ChannelsClosed).
Proof.
  repeat split; try (left; reflexivity).
  intros (cs & H & Hout & _). vm_compute in H. injection H as <-.
  vm_compute in Hout. discriminate.
Qed.

(** A stdin frame without payload is passed over: the frame after it
    is still handed on. *)
Example empty_stdin_frame_skipped :
  streamTask (containerConf false) (newDockerSession "sc1" false false)
    (wire emptyStdinFrame ++ wire hiFrame)
  = Some ([ToStdout [x68; x69]], ChannelsClosed).
Proof. reflexivity. Qed.

End DemuxClaims.

(** ** The exit-code accessor *)

Section ExitCodeClaims.
Import Session Lifecycle.







(** So does the accessor of a host session whose two seconds have
    run out. *)
Example nsenter_exit_code_times_out :
  ExitCode (OfSSH Scenario.sshStub) None true = Some 0
  /\ drained (OfSSH Scenario.sshStub) = false.
Proof. split; reflexivity. Qed.

End ExitCodeClaims.

(** ** The sweeper of legacy sidecars *)

Section SweeperClaims.
Import GoStrings Sidecar SidecarSpec.

Lemma isLegacy_dueFor (c : Listed) : isLegacy c = dueFor defaultSidecarImage c.
Proof.
  unfold isLegacy, dueFor. f_equal.
  destruct (Z.ltb_spec (Created c * Second) (checkedAt c - Hour));
    destruct (Z.ltb_spec (Created c * Second + Hour) (checkedAt c)); try reflexivity; lia.
Qed.

Lemma removals_app (a b : list Action) : removals (a ++ b) = (removals a ++ removals b)%list.
Proof. apply flat_map_app. Qed.

Lemma removals_cleanOne (c : Listed) :
  removals (cleanOne c) = if isLegacy c then [ID c] else [].
Proof.
  unfold cleanOne. destruct (isLegacy c); [|reflexivity].
  destruct (removeErr c); reflexivity.
Qed.

(** The removals of one turn: the listed containers that pass the
    test, each once, in the order of the listing, whether or not an
    earlier removal failed. *)
Lemma removals_round (listing : list Listed) :
  removals (cleanRound (Some listing)) = map ID (List.filter isLegacy listing).
Proof.
  unfold cleanRound. cbn [removals flat_map app].
  fold (removals (flat_map cleanOne listing)).
  induction listing as [|c cs IH]; [reflexivity|].
  cbn [flat_map List.filter]. rewrite removals_app, removals_cleanOne, IH.
  destruct (isLegacy c); reflexivity.
Qed.

Lemma allForced_app (a b : list Action) : allForced (a ++ b) = allForced a && allForced b.
Proof. apply forallb_app. Qed.

Lemma allForced_round (listing : option (list Listed)) : allForced (cleanRound listing) = true.
Proof.
  unfold cleanRound. destruct listing as [cs|]; [|reflexivity].
  cbn [allForced forallb andb]. fold (allForced (flat_map cleanOne cs)).
  induction cs as [|c cs IH]; [reflexivity|].
  cbn [flat_map]. rewrite allForced_app, IH, andb_true_r.
  unfold cleanOne. destruct (isLegacy c); [|reflexivity].
  destruct (removeErr c); reflexivity.
Qed.

(** C5, as amended.  Started with a runtime client, the background
    loop is still looping after any number of turns; every turn sleeps
    five minutes, lists all containers, and issues a forced remove for
    exactly those listed containers whose image name begins with the
    built-in name [trust-tunnel-sidecar:latest], whose state is not
    "running" and whose creation lies more than one hour in the past;
    a removal that fails is logged and the turn goes on; a turn whose
    listing fails removes nothing.  Started without a client, the
    function returns before its first turn. *)
Theorem legacy_sweeper_rounds (listings : list (option (list Listed))) :
  CleanLegacyContainerPeriodically true listings = (flat_map cleanRound listings, Looping)
  /\ CleanLegacyContainerPeriodically false listings = ([], Exited)
  /\ (forall listing : list Listed,
        removals (cleanRound (Some listing))
        = map ID (List.filter (dueFor defaultSidecarImage) listing)
        /\ exists acts, cleanRound (Some listing)
                        = Sleep (5 * Minute) :: ContainerList true :: acts)
  /\ removals (cleanRound None) = []
  /\ allForced (fst (CleanLegacyContainerPeriodically true listings)) = true.
Proof.
  split; [reflexivity|]. split; [reflexivity|]. split; [|split; [reflexivity|]].
  - intros listing. split.
    + rewrite removals_round. f_equal. apply List.filter_ext. intros c. apply isLegacy_dueFor.
    + eexists. reflexivity.
  - cbn [CleanLegacyContainerPeriodically negb fst].
    induction listings as [|l ls IH]; [reflexivity|].
    cbn [flat_map]. rewrite allForced_app, allForced_round, IH. reflexivity.
Qed.

(** C5 as stated fails for the configured image: with a sidecar image
    configured that is not the built-in name, an exited container of
    that image that is two hours old is not removed. *)
Lemma configured_image_not_swept :
  dueFor (Image (Backend.sidecarConfig Scenario.cfg))
         (oldConfigured (Backend.sidecarConfig Scenario.cfg)) = true
  /\ removals (fst (CleanLegacyContainerPeriodically true
                      [Some [oldConfigured (Backend.sidecarConfig Scenario.cfg)]])) = []
  /\ ~ (forall (cfg : Config) (listing : list Listed),
          removals (cleanRound (Some listing)) = map ID (List.filter (dueFor (Image cfg)) listing)).
Proof.
  split; [reflexivity|]. split; [reflexivity|].
  intros H.
  specialize (H (Backend.sidecarConfig Scenario.cfg)
                [oldConfigured (Backend.sidecarConfig Scenario.cfg)]).
  vm_compute in H. discriminate.
Qed.

End SweeperClaims.

(** ** Cleanup *)

Section CleanClaims.
Import Session.


End CleanClaims.

(** ** The login name of a host session *)

Section LoginClaims.
Import GoStrings Sessionutil Session Passwd.

(** Without an entry that passes the shell test the lookup comes back
    empty. *)
Lemma scanPasswd_refused (username : string) (lines : list string) :
  Forall (fun line => refused line = true) (List.filter (isEntryOf username) lines) ->
  scanPasswd username lines = (EmptyString, EmptyString, EmptyString).
Proof.
  induction lines as [|line rest IH]; intros H; [reflexivity|].
  cbn [scanPasswd List.filter] in *. unfold isEntryOf in H at 1.
  destruct (List.length (SplitChar line ":") =? expectedPasswdSegmentsCount)%nat;
    cbn [negb andb] in *; [|auto].
  destruct (String.eqb (seg (SplitChar line ":") 0) username); cbn [negb] in *; [|auto].
  inversion H as [|? ? Hr Hrest]; subst.
  unfold refused in Hr. apply negb_true_iff in Hr. rewrite Hr. auto.
Qed.

(** The text of the error for a login name without spaces is
    classified [MA_526]. *)
Lemma missing_user_code (name : string) :
  hasChar " " name = false ->
  errorCode ("user does not exist:" +:+ name) = "MA_526".
Proof.
  intros Hn.
  assert (forall p, hasChar " " p = true -> Contains name p = false) as Hc.
  { intros p Hp. eapply Contains_hasChar; eassumption. }
  unfold errorCode.
  let t := eval cbv [String.append] in ("user does not exist:" +:+ name) in
  change ("user does not exist:" +:+ name) with t.
  simpl. rewrite !Hc by reflexivity. reflexivity.
Qed.

(** The code MA_525 is chosen only for a text that holds the phrase
    of the refused login shell. *)
Lemma errorCode_MA_525 (e : string) :
  errorCode e = "MA_525" -> Contains e "is not permitted to login on host" = true.
Proof.
  unfold errorCode.
  repeat match goal with
         | |- (if Contains e ?p then _ else _) = _ -> _ =>
             destruct (Contains e p) eqn:?; try discriminate
         end.
  all: try reflexivity. all: discriminate.
Qed.

(** The prefixes that [establishNsenterSession] puts before the text
    of an error of the operating system do not bring the phrase in. *)
Lemma nsenter_prefixes (t : string) :
  Contains ("setup console failed: " +:+ t) "is not permitted to login on host"
  = Contains t "is not permitted to login on host"
  /\ Contains ("setup raw IO failed: " +:+ t) "is not permitted to login on host"
     = Contains t "is not permitted to login on host"
  /\ Contains ("nsenter host namespace failed: " +:+ t) "is not permitted to login on host"
     = Contains t "is not permitted to login on host".
Proof.
  let a := eval cbv [String.append] in ("setup console failed: " +:+ t) in
  change ("setup console failed: " +:+ t) with a.
  let a := eval cbv [String.append] in ("setup raw IO failed: " +:+ t) in
  change ("setup raw IO failed: " +:+ t) with a.
  let a := eval cbv [String.append] in ("nsenter host namespace failed: " +:+ t) in
  change ("nsenter host namespace failed: " +:+ t) with a.
  repeat split; simpl; reflexivity.
Qed.

(** C7, as amended.  For a host session through nsenter with a login
    name without spaces.  When the name is not empty and no passwd
    entry of it passes the shell test, be it that the name has no
    entry or that every entry of it has nologin or a shell not ending
    in "sh", the session is refused with the text "user does not
    exist:<name>", which the taxonomy classifies MA_526.  And
    whatever the passwd file holds, an error of
    [establishNsenterSession] is not classified MA_525, as long as the
    operating system's own error texts do not hold the phrase of that
    code. *)
Theorem nsenter_login_refused (config : Config) (content : string) (os : NsenterOS) :
  hasChar " " (LoginName config) = false ->
  (LoginName config <> EmptyString ->
   Forall (fun line => refused line = true) (entriesOf (LoginName config) content) ->
   establishNsenterSession config (Some content) os
   = inl ("user does not exist:" +:+ LoginName config)
   /\ WrapErrorWithCode ("user does not exist:" +:+ LoginName config)
      = "code=MA_526,msg=user does not exist:" +:+ LoginName config)
  /\ (forall e : string,
        establishNsenterSession config (Some content) os = inl e ->
        (forall t, setupErr os = Some t ->
                   Contains t "is not permitted to login on host" = false) ->
        (forall t, startErr' os = Some t ->
                   Contains t "is not permitted to login on host" = false) ->
        errorCode e <> "MA_525").
Proof.
  intros Hsp. split.
  - intros Hne Href. split.
    + unfold establishNsenterSession, GetUserInfo, findUser.
      replace (String.eqb (LoginName config) EmptyString) with false
        by (symmetry; now apply String.eqb_neq).
      cbn [negb]. rewrite (scanPasswd_refused _ _ Href). reflexivity.
    + unfold WrapErrorWithCode. rewrite missing_user_code by assumption. reflexivity.
  - intros e He Hsetup Hstart Hcode.
    apply errorCode_MA_525 in Hcode.
    unfold establishNsenterSession, GetUserInfo, findUser in He.
    assert (forall t, Contains t "is not permitted to login on host" = false ->
                      forall pre : bool,
                        Contains ((if pre then "setup console failed: "
                                   else "setup raw IO failed: ") +:+ t)
                          "is not permitted to login on host" = false) as Hpre.
    { intros t Ht pre. destruct (nsenter_prefixes t) as (H1 & H2 & _).
      destruct pre; [rewrite H1 | rewrite H2]; exact Ht. }
    assert (forall uid gid loginDir,
               match setupErr os with
               | Some e0 =>
                   inl ((if Tty config then "setup console failed: "
                         else "setup raw IO failed: ") +:+ e0)
               | None =>
                   match startErr' os with
                   | Some e0 => inl ("nsenter host namespace failed: " +:+ e0)
                   | None =>
                       @inr string NsenterSession.t
                         {| NsenterSession.args :=
                              ((if negb (String.eqb uid EmptyString)
                                then (["-t"; "1"; "-m"; "-u"; "-i"; "-n"; "-p"]
                                        ++ ["-S"; uid; "-G"; gid;
                                            "--wd=" +:+ RootfsPrefix config +:+ loginDir])%list
                                else ["-t"; "1"; "-m"; "-u"; "-i"; "-n"; "-p"])
                                 ++ Cmd config)%list;
                            NsenterSession.env :=
                              ["PWD=" +:+ loginDir;
                               "PATH=/usr/local/sbin:/usr/local/bin:/usr/sbin:/usr/bin:/sbin:/bin";
                               "TERM=xterm-256color"];
                            NsenterSession.tty := Tty config;
                            NsenterSession.pid := childPid os;
                            NsenterSession.stdoutDone := false;
                            NsenterSession.stderrDone := false;
                            NsenterSession.exited := false;
                            NsenterSession.exitCode := 0 |}
                   end
               end = inl e -> False) as Hos.
    { intros uid gid loginDir H.
      destruct (setupErr os) as [t|] eqn:Es.
      - injection H as <-. rewrite (Hpre t (Hsetup t eq_refl)) in Hcode. discriminate.
      - destruct (startErr' os) as [t|] eqn:Et; [|discriminate].
        injection H as <-. destruct (nsenter_prefixes t) as (_ & _ & H3).
        rewrite H3, (Hstart t eq_refl) in Hcode. discriminate. }
    destruct (negb (String.eqb (LoginName config) EmptyString)).
    + destruct (scanPasswd (LoginName config) (fst (readLines content)))
        as [[uid gid] loginDir].
      destruct (String.eqb uid EmptyString).
      * injection He as <-.
        pose proof (missing_user_code (LoginName config) Hsp) as Hm.
        apply (f_equal (fun c => String.eqb c "MA_525")) in Hm.
        assert (errorCode ("user does not exist:" +:+ LoginName config) = "MA_525")
          as Hc; [|rewrite Hc in Hm; discriminate].
        exfalso. clear Hm.
        assert (Contains ("user does not exist:" +:+ LoginName config)
                  "is not permitted to login on host" = false) as Hn.
        { let a := eval cbv [String.append] in ("user does not exist:" +:+ LoginName config) in
          change ("user does not exist:" +:+ LoginName config) with a.
          simpl. eapply Contains_hasChar; [|exact Hsp]. reflexivity. }
        rewrite Hn in Hcode. discriminate.
      * exact (Hos uid gid loginDir He).
    + exact (Hos EmptyString EmptyString EmptyString He).
Qed.

Lemma nsenter_login_refused_witness :
  (establishNsenterSession (Backend.sessConfOf Scenario.h0 (Scenario.hostRequest "daemon"))
     (Some Scenario.passwdFile) (nsenterOS (Scenario.worldOK "x"))
   = inl "user does not exist:daemon"
   /\ WrapErrorWithCode "user does not exist:daemon"
      = "code=MA_526,msg=user does not exist:daemon")
  /\ errorCode "user does not exist:daemon" <> "MA_525".
Proof.
  destruct (nsenter_login_refused
              (Backend.sessConfOf Scenario.h0 (Scenario.hostRequest "daemon"))
              Scenario.passwdFile (nsenterOS (Scenario.worldOK "x")) eq_refl)
    as [Ha Hb].
  assert (establishNsenterSession
            (Backend.sessConfOf Scenario.h0 (Scenario.hostRequest "daemon"))
            (Some Scenario.passwdFile) (nsenterOS (Scenario.worldOK "x"))
          = inl "user does not exist:daemon"
          /\ WrapErrorWithCode "user does not exist:daemon"
             = "code=MA_526,msg=user does not exist:daemon") as H.
  { apply Ha; [discriminate|]. vm_compute. repeat constructor. }
  split; [exact H|].
  apply Hb; [exact (proj1 H) | discriminate | discriminate].
Defined.

(** C7 as stated fails for a login name with a nologin shell: [daemon]
    has an entry in the passwd file, the entry is turned down by the
    shell test, and the broker answers with the MA_526 text "user does
    not exist", not with MA_525. *)
Lemma nologin_user_reported_missing :
  entriesOf "daemon" Scenario.passwdFile = [Scenario.daemonLine]
  /\ refused Scenario.daemonLine = true
  /\ Backend.Handle_begin Scenario.h0 (Scenario.hostRequest "daemon") (Scenario.envOK "x" None)
     = (Scenario.h0,
        [Backend.EstablishSession None;
         Backend.WriteClose Backend.CloseUnsupportedData
           "Establish session error: code=MA_526,msg=user does not exist:daemon"],
        None)
  /\ errorCode "user does not exist:daemon" <> "MA_525".
Proof.
  split; [reflexivity|]. split; [reflexivity|]. split; [reflexivity|].
  vm_compute. discriminate.
Qed.

End LoginClaims.

(** ** The request envelope *)

Section EnvelopeClaims.
Import Request.
Variable ParseFloat : string -> option float64.
Variable DecodeString : string -> option string.

Lemma decodeAll_ok (enc dec : list string) :
  Forall2 (fun e d => DecodeString e = Some d) enc dec ->
  decodeAll DecodeString enc = Ok dec.
Proof.
  induction 1 as [|e d enc dec He _ IH]; [reflexivity|].
  cbn [decodeAll]. rewrite He, IH. reflexivity.
Qed.

Lemma decodeAll_err (enc : list string) :
  Exists (fun e => DecodeString e = None) enc ->
  exists msg, decodeAll DecodeString enc = Err msg.
Proof.
  induction enc as [|e enc IH]; intros H; [inversion H|].
  cbn [decodeAll]. destruct (DecodeString e) as [d|] eqn:E; [|eexists; reflexivity].
  inversion H as [? ? He|? ? Hr]; subst; [congruence|].
  destruct (IH Hr) as [msg ->]. eexists; reflexivity.
Qed.

(** A result of [GetRequestInfo] carries the command of the command
    block. *)
Lemma GetRequestInfo_command (h : Header) (info : Info) :
  GetRequestInfo ParseFloat DecodeString h = Ok info ->
  parseCommand DecodeString h = Ok (Cmd info, UseBase64 info).
Proof.
  unfold GetRequestInfo. intros H.
  destruct (parseTargetType h) as [tt|]; [|discriminate]. cbn [bind] in H.
  destruct (parseContainer h tt) as [[[pod cid] cname]|]; [|discriminate]. cbn [bind] in H.
  destruct (parseBoolHeader h "Interactive" "interactive"); [|discriminate]. cbn [bind] in H.
  destruct (parseBoolHeader h "Tty" "tty"); [|discriminate]. cbn [bind] in H.
  destruct (parseCommand DecodeString h) as [[cmd b64]|]; [|discriminate]. cbn [bind] in H.
  destruct (parseCpus ParseFloat h); [|discriminate]. cbn [bind] in H.
  destruct (parseMemory h); [|discriminate]. cbn [bind] in H.
  injection H as <-. reflexivity.
Qed.

(** A failing command block fails the request. *)
Lemma GetRequestInfo_command_err (h : Header) (msg : string) :
  parseCommand DecodeString h = Err msg ->
  exists msg', GetRequestInfo ParseFloat DecodeString h = Err msg'.
Proof.
  unfold GetRequestInfo. intros H.
  destruct (parseTargetType h) as [tt|]; [|eexists; reflexivity]. cbn [bind].
  destruct (parseContainer h tt) as [[[pod cid] cname]|]; [|eexists; reflexivity]. cbn [bind].
  destruct (parseBoolHeader h "Interactive" "interactive"); [|eexists; reflexivity]. cbn [bind].
  destruct (parseBoolHeader h "Tty" "tty"); [|eexists; reflexivity]. cbn [bind].
  rewrite H. eexists; reflexivity.
Qed.

(** [Handle] does nothing for a request that does not parse. *)
Lemma Handle_parse_error (hd : Backend.Handler) (h : Header) (env : Backend.Env) (msg : string) :
  GetRequestInfo ParseFloat DecodeString h = Err msg ->
  Backend.Handle ParseFloat DecodeString hd h env = Session.Returned (hd, []).
Proof. intros H. unfold Backend.Handle. rewrite H. reflexivity. Qed.

(** The loop over the base64 elements fails with the one message. *)
Lemma decodeAll_err_msg (enc : list string) :
  Exists (fun e => DecodeString e = None) enc ->
  decodeAll DecodeString enc = Err "decoding command error".
Proof.
  induction enc as [|e enc IH]; intros H; [inversion H|].
  cbn [decodeAll]. destruct (DecodeString e) as [d|] eqn:E; [|reflexivity].
  inversion H as [? ? He|? ? Hr]; subst; [congruence|].
  rewrite (IH Hr). reflexivity.
Qed.

Lemma decodeAll_inv (enc dec : list string) :
  decodeAll DecodeString enc = Ok dec ->
  Forall2 (fun e d => DecodeString e = Some d) enc dec.
Proof.
  revert dec. induction enc as [|e enc IH]; intros dec H; cbn [decodeAll] in H.
  - injection H as <-. constructor.
  - destruct (DecodeString e) as [d|] eqn:E; [|discriminate].
    destruct (decodeAll DecodeString enc) as [tl|]; [|discriminate].
    cbn [bind] in H. injection H as <-. constructor; [exact E | apply IH; reflexivity].
Qed.

(** When no block fails, [GetRequestInfo] succeeds with the command
    of the command block. *)
Lemma GetRequestInfo_blocks (h : Header) (cmd : list string) (b64 : bool) :
  othersParse ParseFloat h ->
  parseCommand DecodeString h = Ok (cmd, b64) ->
  exists info, GetRequestInfo ParseFloat DecodeString h = Ok info
               /\ Cmd info = cmd /\ UseBase64 info = b64.
Proof.
  intros (tt & [[pod cid] cname] & i & t & cpus & mem & Ht & Hc & Hi & Hy & Hp & Hm) H.
  unfold GetRequestInfo. rewrite Ht. cbn [bind]. rewrite Hc. cbn [bind].
  rewrite Hi. cbn [bind]. rewrite Hy. cbn [bind]. rewrite H. cbn [bind].
  rewrite Hp. cbn [bind]. rewrite Hm. cbn [bind].
  eexists. split; [reflexivity|]. split; reflexivity.
Qed.

(** When the blocks around it do not fail, the error of the command
    block is the error of the request. *)
Lemma GetRequestInfo_blocks_err (h : Header) (msg : string) :
  othersParse ParseFloat h ->
  parseCommand DecodeString h = Err msg ->
  GetRequestInfo ParseFloat DecodeString h = Err msg.
Proof.
  intros (tt & [[pod cid] cname] & i & t & cpus & mem & Ht & Hc & Hi & Hy & Hp & Hm) H.
  unfold GetRequestInfo. rewrite Ht. cbn [bind]. rewrite Hc. cbn [bind].
  rewrite Hi. cbn [bind]. rewrite Hy. cbn [bind]. rewrite H. reflexivity.
Qed.

(** C8.  The command of a request comes from one source.  Where the
    other headers of the envelope parse: when [Command-Base64-Encode]
    is present and every element decodes, [GetRequestInfo] returns
    the request with the list of the decoded elements as its command
    and the base64 mark set; when it is absent and [Command] is
    present, it returns the request with the [Command] values as they
    are and the mark unset; when both are absent it returns the error
    of the missing command, and when an element does not decode the
    decoding error.  Every request that [GetRequestInfo] returns has
    its command from exactly one of the two sources.  Whatever the
    other headers hold, a request with neither header, or with an
    element that does not decode, fails, and [Handle] returns without
    having touched the broker or a backend. *)
Theorem command_source (h : Header) :
  (othersParse ParseFloat h ->
   (forall dec : list string,
       get h "Command-Base64-Encode" <> [] ->
       Forall2 (fun e d => DecodeString e = Some d) (get h "Command-Base64-Encode") dec ->
       exists info, GetRequestInfo ParseFloat DecodeString h = Ok info
                    /\ Cmd info = dec /\ UseBase64 info = true)
   /\ (get h "Command-Base64-Encode" = [] -> get h "Command" <> [] ->
       exists info, GetRequestInfo ParseFloat DecodeString h = Ok info
                    /\ Cmd info = get h "Command" /\ UseBase64 info = false)
   /\ (get h "Command-Base64-Encode" = [] -> get h "Command" = [] ->
       GetRequestInfo ParseFloat DecodeString h = Err "request error: no command")
   /\ (Exists (fun e => DecodeString e = None) (get h "Command-Base64-Encode") ->
       GetRequestInfo ParseFloat DecodeString h = Err "decoding command error"))
  /\ (forall info : Info,
        GetRequestInfo ParseFloat DecodeString h = Ok info ->
        (get h "Command-Base64-Encode" <> []
         /\ Forall2 (fun e d => DecodeString e = Some d)
              (get h "Command-Base64-Encode") (Cmd info)
         /\ UseBase64 info = true)
        \/ (get h "Command-Base64-Encode" = [] /\ get h "Command" <> []
            /\ Cmd info = get h "Command" /\ UseBase64 info = false))
  /\ ((get h "Command-Base64-Encode" = [] /\ get h "Command" = [])
      \/ Exists (fun e => DecodeString e = None) (get h "Command-Base64-Encode") ->
      exists msg,
        GetRequestInfo ParseFloat DecodeString h = Err msg
        /\ forall (hd : Backend.Handler) (env : Backend.Env),
             Backend.Handle ParseFloat DecodeString hd h env = Session.Returned (hd, [])).
Proof.
  split; [|split].
  - intros Ho. split; [|split; [|split]].
    + intros dec Hne Hdec. apply GetRequestInfo_blocks; [exact Ho|].
      unfold parseCommand.
      destruct (get h "Command-Base64-Encode") as [|e enc] eqn:E; [contradiction|].
      rewrite (decodeAll_ok _ _ Hdec). reflexivity.
    + intros Hb Hc. apply GetRequestInfo_blocks; [exact Ho|].
      unfold parseCommand. rewrite Hb.
      destruct (get h "Command"); [contradiction | reflexivity].
    + intros Hb Hc. apply GetRequestInfo_blocks_err; [exact Ho|].
      unfold parseCommand. rewrite Hb, Hc. reflexivity.
    + intros He. apply GetRequestInfo_blocks_err; [exact Ho|].
      unfold parseCommand.
      destruct (get h "Command-Base64-Encode") as [|e enc] eqn:E; [inversion He|].
      rewrite (decodeAll_err_msg _ He). reflexivity.
  - intros info H. apply GetRequestInfo_command in H. unfold parseCommand in H.
    destruct (get h "Command-Base64-Encode") as [|e enc] eqn:E.
    + right. destruct (get h "Command") as [|c cs] eqn:Ec; [discriminate|].
      injection H as H1 H2. split; [reflexivity|]. split; [discriminate|]. auto.
    + left. split; [discriminate|].
      destruct (decodeAll DecodeString (e :: enc)) as [dec|] eqn:Ed; [|discriminate].
      cbn [bind] in H. injection H as H1 H2. subst dec.
      split; [apply decodeAll_inv; exact Ed | auto].
  - intros H.
    assert (exists msg, parseCommand DecodeString h = Err msg) as [msg Hm].
    { unfold parseCommand. destruct H as [[-> ->]|H]; [eexists; reflexivity|].
      destruct (get h "Command-Base64-Encode") as [|e enc] eqn:E; [inversion H|].
      destruct (decodeAll_err _ H) as [m ->]. eexists; reflexivity. }
    destruct (GetRequestInfo_command_err h msg Hm) as [msg' Hg].
    exists msg'. split; [exact Hg|]. intros hd env. eapply Handle_parse_error, Hg.
Qed.

End EnvelopeClaims.

Lemma command_source_witness :
  exists info,
    Request.GetRequestInfo Scenario.parseFloatSample Scenario.decodeSample Scenario.envelope
    = Request.Ok info
    /\ Request.Cmd info = ["ls"; "-l"] /\ Request.UseBase64 info = true.
Proof.
  apply (command_source Scenario.parseFloatSample Scenario.decodeSample Scenario.envelope).
  - exists Client.TargetPhys, (EmptyString, EmptyString, EmptyString), false, false,
      PrimFloat.zero, 0.
    repeat split.
  - vm_compute. discriminate.
  - vm_compute. repeat constructor.
Defined.

(** The malformed-base64 scenario: the second element does not decode
    and nothing is established. *)
Example malformed_base64_rejected :
  Request.GetRequestInfo Scenario.parseFloatSample Scenario.decodeSample
    Scenario.malformedEnvelope = Request.Err "decoding command error"
  /\ Backend.Handle Scenario.parseFloatSample Scenario.decodeSample Scenario.h0
       Scenario.malformedEnvelope (Scenario.envOK "x" None)
     = Session.Returned (Scenario.h0, []).
Proof. split; reflexivity. Qed.

Section TargetTypeClaims.
Import Request.
Variable ParseFloat : string -> option float64.
Variable DecodeString : string -> option string.

Lemma get_insert_ne (h : Header) (k k' : string) (v : list string) :
  k <> k' -> get (<[k := v]> h) k' = get h k'.
Proof.
  intros H. unfold get, Header in *. rewrite lookup_insert_ne by exact H. reflexivity.
Qed.

Lemma get_insert_eq (h : Header) (k : string) (v : list string) :
  get (<[k := v]> h) k = v.
Proof. unfold get, Header in *. rewrite lookup_insert_eq. reflexivity. Qed.

(** The target-type block fails exactly on a first value that is
    neither of the two names. *)
Lemma parseTargetType_err (h : Header) :
  (exists msg, parseTargetType h = Err msg)
  <-> exists v vs, get h "Target-Type" = v :: vs /\ v <> "physical" /\ v <> "container".
Proof.
  unfold parseTargetType. split.
  - intros [msg H]. destruct (get h "Target-Type") as [|v vs]; [discriminate|].
    exists v, vs. split; [reflexivity|].
    destruct (String.eqb_spec v "physical"); [discriminate|].
    destruct (String.eqb_spec v "container"); [discriminate|]. auto.
  - intros (v & vs & -> & Hp & Hc).
    destruct (String.eqb_spec v "physical"); [contradiction|].
    destruct (String.eqb_spec v "container"); [contradiction|].
    eexists; reflexivity.
Qed.

(** The messages of the blocks of [GetRequestInfo]. *)
Lemma parseBoolHeader_err (h : Header) (name what msg : string) :
  parseBoolHeader h name what = Err msg ->
  msg = "request error: invalid " +:+ what +:+ " argument".
Proof.
  unfold parseBoolHeader. destruct (get h name) as [|v vs]; [discriminate|].
  destruct (Strconv.ParseBool v) as [b [|]]; [discriminate|]. congruence.
Qed.

Lemma decodeAll_msg (enc : list string) (msg : string) :
  decodeAll DecodeString enc = Err msg -> msg = "decoding command error".
Proof.
  induction enc as [|e enc IH]; cbn [decodeAll]; [discriminate|].
  destruct (DecodeString e); [|congruence].
  destruct (decodeAll DecodeString enc); cbn [bind]; [discriminate|].
  intros H. apply IH. exact H.
Qed.

Lemma parseCommand_err (h : Header) (msg : string) :
  parseCommand DecodeString h = Err msg ->
  msg = "request error: no command" \/ msg = "decoding command error".
Proof.
  unfold parseCommand. destruct (get h "Command-Base64-Encode") as [|e enc].
  - destruct (get h "Command"); [|discriminate]. left. congruence.
  - destruct (decodeAll DecodeString (e :: enc)) eqn:E; cbn [bind]; [discriminate|].
    intros H. right. injection H as <-. eapply decodeAll_msg, E.
Qed.

Lemma parseCpus_err (h : Header) (msg : string) :
  parseCpus ParseFloat h = Err msg -> msg = "request error: invalid cpus argument".
Proof.
  unfold parseCpus. destruct (get h "Cpus") as [|v vs]; [discriminate|].
  destruct (ParseFloat v); [discriminate | congruence].
Qed.

Lemma parseMemory_err (h : Header) (msg : string) :
  parseMemory h = Err msg -> msg = "request error: invalid memoryMB argument".
Proof.
  unfold parseMemory. destruct (get h "Memory") as [|v vs]; [discriminate|].
  destruct (Strconv.Atoi v) as [n [|]]; [discriminate | congruence].
Qed.

(** After the target-type and container blocks, no block fails with
    the message of either. *)
Lemma later_blocks_err (h : Header) (tt : Client.TargetType) (pod cid cname msg : string) :
  bind (parseBoolHeader h "Interactive" "interactive") (fun interactive =>
  bind (parseBoolHeader h "Tty" "tty") (fun tty =>
  bind (parseCommand DecodeString h) (fun '(cmd, b64) =>
  bind (parseCpus ParseFloat h) (fun cpus =>
  bind (parseMemory h) (fun mem =>
  Ok {| SessionID := first (get h "Session-Id");
        AgentAddr := first (get h "Agent-Addr");
        UserName := first (get h "User-Name");
        LoginName := first (get h "Login-Name");
        LoginGroup := first (get h "Login-Group");
        TargetType := tt;
        PodName := pod;
        ContainerID := cid;
        ContainerName := cname;
        Interactive := interactive;
        Tty := tty;
        Cmd := cmd;
        UseBase64 := b64;
        IPAddress := first (get h "Ip-Address");
        AppName := first (get h "App-Name");
        Cpus := cpus;
        MemoryMB := mem;
        DisableCleanMode := parseDisableCleanMode h |}))))) = Err msg ->
  msg <> "request error: invalid target type"
  /\ msg <> "request error: no pod name of container target".
Proof.
  destruct (parseBoolHeader h "Interactive" "interactive") eqn:Ei; cbn [bind].
  2:{ intros H. injection H as <-. apply parseBoolHeader_err in Ei. subst.
      split; intros H; vm_compute in H; discriminate. }
  destruct (parseBoolHeader h "Tty" "tty") eqn:Et; cbn [bind].
  2:{ intros H. injection H as <-. apply parseBoolHeader_err in Et. subst.
      split; intros H; vm_compute in H; discriminate. }
  destruct (parseCommand DecodeString h) as [[cmd b64]|] eqn:Ec; cbn [bind].
  2:{ intros H. injection H as <-. apply parseCommand_err in Ec.
      destruct Ec; subst; split; discriminate. }
  destruct (parseCpus ParseFloat h) eqn:Ep; cbn [bind].
  2:{ intros H. injection H as <-. apply parseCpus_err in Ep. subst. split; discriminate. }
  destruct (parseMemory h) eqn:Em; cbn [bind].
  2:{ intros H. injection H as <-. apply parseMemory_err in Em. subst. split; discriminate. }
  discriminate.
Qed.

(** C10.  A request without a [Target-Type] header is parsed as a
    request for the physical host.  [GetRequestInfo] returns for it
    what it returns for the same envelope with [Target-Type:
    physical]; where the boolean, command, cpu and memory headers
    parse, it returns the request with the physical target and empty
    pod and container fields, whether or not the envelope names a
    pod; and it fails neither with the error of an invalid target
    type nor with that of a missing pod name.  For any envelope,
    [GetRequestInfo] fails with the error of an invalid target type
    exactly when the header is present with a first value other than
    "physical" and "container"; a container target without a pod
    name fails with the error of the missing pod name. *)
Theorem target_type_defaults_to_physical (h : Header) :
  (get h "Target-Type" = [] ->
   GetRequestInfo ParseFloat DecodeString h
   = GetRequestInfo ParseFloat DecodeString (<["Target-Type" := ["physical"]]> h)
   /\ (forall (interactive tty b64 : bool) (cmd : list string) (cpus : float64) (mem : Z),
         parseBoolHeader h "Interactive" "interactive" = Ok interactive ->
         parseBoolHeader h "Tty" "tty" = Ok tty ->
         parseCommand DecodeString h = Ok (cmd, b64) ->
         parseCpus ParseFloat h = Ok cpus ->
         parseMemory h = Ok mem ->
         GetRequestInfo ParseFloat DecodeString h
         = Ok {| SessionID := first (get h "Session-Id");
                 AgentAddr := first (get h "Agent-Addr");
                 UserName := first (get h "User-Name");
                 LoginName := first (get h "Login-Name");
                 LoginGroup := first (get h "Login-Group");
                 TargetType := Client.TargetPhys;
                 PodName := EmptyString;
                 ContainerID := EmptyString;
                 ContainerName := EmptyString;
                 Interactive := interactive;
                 Tty := tty;
                 Cmd := cmd;
                 UseBase64 := b64;
                 IPAddress := first (get h "Ip-Address");
                 AppName := first (get h "App-Name");
                 Cpus := cpus;
                 MemoryMB := mem;
                 DisableCleanMode := parseDisableCleanMode h |})
   /\ (forall info, GetRequestInfo ParseFloat DecodeString h = Ok info ->
                    TargetType info = Client.TargetPhys /\ PodName info = EmptyString
                    /\ ContainerID info = EmptyString /\ ContainerName info = EmptyString)
   /\ GetRequestInfo ParseFloat DecodeString h <> Err "request error: invalid target type"
   /\ GetRequestInfo ParseFloat DecodeString h
      <> Err "request error: no pod name of container target")
  /\ (GetRequestInfo ParseFloat DecodeString h = Err "request error: invalid target type"
      <-> exists v vs, get h "Target-Type" = v :: vs
                       /\ v <> "physical" /\ v <> "container")
  /\ (forall vs, get h "Target-Type" = "container" :: vs -> get h "Pod-Name" = [] ->
                 GetRequestInfo ParseFloat DecodeString h
                 = Err "request error: no pod name of container target").
Proof.
  split; [|split].
  - intros Habs.
    assert (parseTargetType h = Ok Client.TargetPhys) as Ht
      by (unfold parseTargetType; rewrite Habs; reflexivity).
    assert (parseContainer h Client.TargetPhys
            = Ok (EmptyString, EmptyString, EmptyString)) as Hc by reflexivity.
    split; [|split; [|split; [|split]]].
    + unfold GetRequestInfo, parseTargetType, parseContainer, parseBoolHeader, parseCommand,
        parseCpus, parseMemory, parseDisableCleanMode.
      rewrite Habs, get_insert_eq, !get_insert_ne by discriminate. reflexivity.
    + intros i t b64 cmd cpus mem Hi Hy Hcmd Hp Hm.
      unfold GetRequestInfo. rewrite Ht. cbn [bind]. rewrite Hc. cbn [bind].
      rewrite Hi. cbn [bind]. rewrite Hy. cbn [bind]. rewrite Hcmd. cbn [bind].
      rewrite Hp. cbn [bind]. rewrite Hm. reflexivity.
    + intros info H. unfold GetRequestInfo in H. rewrite Ht in H. cbn [bind] in H.
      rewrite Hc in H. cbn [bind] in H.
      destruct (parseBoolHeader h "Interactive" "interactive"); [|discriminate].
      cbn [bind] in H.
      destruct (parseBoolHeader h "Tty" "tty"); [|discriminate]. cbn [bind] in H.
      destruct (parseCommand DecodeString h) as [[cmd b64]|]; [|discriminate].
      cbn [bind] in H.
      destruct (parseCpus ParseFloat h); [|discriminate]. cbn [bind] in H.
      destruct (parseMemory h); [|discriminate]. cbn [bind] in H.
      injection H as <-. repeat split.
    + unfold GetRequestInfo. rewrite Ht. cbn [bind]. rewrite Hc. cbn [bind].
      intros H. apply later_blocks_err in H. destruct H as [H _]. now apply H.
    + unfold GetRequestInfo. rewrite Ht. cbn [bind]. rewrite Hc. cbn [bind].
      intros H. apply later_blocks_err in H. destruct H as [_ H]. now apply H.
  - split.
    + intros H. apply parseTargetType_err.
      unfold GetRequestInfo in H.
      destruct (parseTargetType h) as [tt|m] eqn:Ht; [|eexists; reflexivity].
      exfalso. cbn [bind] in H.
      destruct (parseContainer h tt) as [[[pod cid] cname]|m] eqn:Hc; cbn [bind] in H.
      * apply later_blocks_err in H. destruct H as [H _]. now apply H.
      * unfold parseContainer in Hc. destruct (tt =? Client.TargetContainer); [|discriminate].
        destruct (get h "Pod-Name"); [|discriminate]. congruence.
    + intros (v & vs & Hg & Hp & Hc). unfold GetRequestInfo, parseTargetType. rewrite Hg.
      destruct (String.eqb_spec v "physical"); [contradiction|].
      destruct (String.eqb_spec v "container"); [contradiction|]. reflexivity.
  - intros vs Hg Hp. unfold GetRequestInfo, parseTargetType, parseContainer.
    rewrite Hg. cbn [String.eqb Ascii.eqb Bool.eqb bind]. cbn. rewrite Hp. reflexivity.
Qed.

End TargetTypeClaims.

Lemma target_type_defaults_to_physical_witness :
  Request.GetRequestInfo Scenario.parseFloatSample Scenario.decodeSample Scenario.envelope
  = Request.Ok
      {| Request.SessionID := EmptyString;
         Request.AgentAddr := EmptyString;
         Request.UserName := "alice";
         Request.LoginName := "app";
         Request.LoginGroup := EmptyString;
         Request.TargetType := Client.TargetPhys;
         Request.PodName := EmptyString;
         Request.ContainerID := EmptyString;
         Request.ContainerName := EmptyString;
         Request.Interactive := false;
         Request.Tty := false;
         Request.Cmd := ["ls"; "-l"];
         Request.UseBase64 := true;
         Request.IPAddress := EmptyString;
         Request.AppName := EmptyString;
         Request.Cpus := PrimFloat.zero;
         Request.MemoryMB := 0;
         Request.DisableCleanMode := false |}.
Proof.
  destruct (target_type_defaults_to_physical Scenario.parseFloatSample Scenario.decodeSample
              Scenario.envelope) as [H _].
  destruct (H eq_refl) as [_ [Hok _]].
  exact (Hok false false true ["ls"; "-l"] PrimFloat.zero 0
           eq_refl eq_refl eq_refl eq_refl eq_refl).
Defined.

(** ** The resize control message *)

Section ResizeClaims.
Import GoStrings Strconv Backend ResizeSpec.

Lemma append_cons (c : ascii) (a b : string) : String c a +:+ b = String c (a +:+ b).
Proof. reflexivity. Qed.

Lemma append_nil (b : string) : EmptyString +:+ b = b.
Proof. reflexivity. Qed.

Lemma hasChar_cons (c d : ascii) (s : string) :
  hasChar c (String d s) = Ascii.eqb c d || hasChar c s.
Proof. reflexivity. Qed.

Lemma SplitChar_nonempty (s : string) (sep : ascii) : SplitChar s sep <> [].
Proof.
  destruct s as [|c s]; cbn [SplitChar]; [discriminate|].
  destruct (Ascii.eqb c sep); [discriminate|].
  destruct (SplitChar s sep); discriminate.
Qed.

Lemma SplitChar_single (s b : string) (sep : ascii) : SplitChar s sep = [b] -> s = b.
Proof.
  revert b. induction s as [|c s IH]; intros b H; cbn [SplitChar] in H.
  - now injection H.
  - destruct (Ascii.eqb c sep).
    + injection H as _ H. now apply SplitChar_nonempty in H.
    + destruct (SplitChar s sep) as [|p ps] eqn:E; [now apply SplitChar_nonempty in E|].
      injection H as <- ->. now rewrite (IH p eq_refl).
Qed.

Lemma SplitChar_cons2 (s a p : string) (ps : list string) (sep : ascii) :
  SplitChar s sep = a :: p :: ps ->
  exists s', s = a +:+ String sep s' /\ SplitChar s' sep = p :: ps.
Proof.
  revert a. induction s as [|c s IH]; intros a H; cbn [SplitChar] in H; [discriminate|].
  destruct (Ascii.eqb_spec c sep) as [->|Hc].
  - injection H as <- H. exists s. split; [reflexivity | exact H].
  - destruct (SplitChar s sep) as [|q qs] eqn:E; [discriminate|].
    injection H as <- ->. destruct (IH q eq_refl) as (s' & -> & Hs').
    exists s'. split; [reflexivity | exact Hs'].
Qed.

Lemma SplitChar_nosep (s : string) (sep : ascii) :
  hasChar sep s = false -> SplitChar s sep = [s].
Proof.
  induction s as [|c s IH]; intros H; [reflexivity|].
  cbn [hasChar] in H. apply orb_false_elim in H as [Hc Hs].
  cbn [SplitChar]. rewrite Ascii.eqb_sym, Hc, (IH Hs). reflexivity.
Qed.

Lemma SplitChar_app (a b : string) (sep : ascii) :
  hasChar sep a = false ->
  SplitChar (a +:+ String sep b) sep = a :: SplitChar b sep.
Proof.
  induction a as [|c a IH]; intros H.
  - rewrite append_nil. cbn [SplitChar]. now rewrite Ascii.eqb_refl.
  - cbn [hasChar] in H. apply orb_false_elim in H as [Hc Ha].
    rewrite append_cons. cbn [SplitChar]. rewrite Ascii.eqb_sym, Hc, (IH Ha). reflexivity.
Qed.

Lemma parseDigits_nonneg (s : string) (acc n : Z) :
  0 <= acc -> parseDigits s acc = Some n -> 0 <= n.
Proof.
  revert acc. induction s as [|c s IH]; intros acc Ha H; cbn [parseDigits] in H.
  - injection H as <-. exact Ha.
  - destruct (isDigit c) eqn:Hd; [|discriminate].
    apply (IH (acc * 10 + digitVal c)); [|exact H].
    unfold isDigit, digitVal in *. apply andb_prop in Hd as [H1 _].
    apply Nat.leb_le in H1. lia.
Qed.

Lemma parseDigits_no_comma (s : string) (acc n : Z) :
  parseDigits s acc = Some n -> hasChar "," s = false.
Proof.
  revert acc. induction s as [|c s IH]; intros acc H; cbn [parseDigits] in H; [reflexivity|].
  destruct (isDigit c) eqn:Hd; [|discriminate].
  cbn [hasChar]. rewrite (IH _ H), orb_false_r.
  destruct (Ascii.eqb_spec "," c) as [<-|]; [discriminate Hd | reflexivity].
Qed.

(** [Atoi] yields a positive value exactly on the positive decimal
    integers. *)
Lemma Atoi_positive (s : string) : (fst (Atoi s) >? 0) = positive s.
Proof.
  unfold Atoi, positive, decimal. destruct s as [|c rest]; [reflexivity|].
  destruct (Ascii.eqb c "-") eqn:Em; cbn [orb].
  - destruct rest as [|d rest]; [reflexivity|].
    destruct (parseDigits (String d rest) 0) as [n|] eqn:E; [|reflexivity].
    pose proof (parseDigits_nonneg _ _ _ (Z.le_refl 0) E) as Hn. cbn [option_map].
    destruct (n >? 2 ^ 63); cbn [fst]; unfold minInt.
    + symmetry. apply Z.ltb_ge. lia.
    + rewrite Z.gtb_ltb. destruct (Z.ltb_spec 0 (- n)); [lia | reflexivity].
  - destruct (Ascii.eqb c "+") eqn:Ep.
    + destruct rest as [|d rest]; [reflexivity|].
      destruct (parseDigits (String d rest) 0) as [n|] eqn:E; [|reflexivity].
      destruct (Z.geb_spec n (2 ^ 63)); cbn [fst]; unfold maxInt.
      * destruct (Z.ltb_spec 0 n); [reflexivity | lia].
      * apply Z.gtb_ltb.
    + destruct (parseDigits (String c rest) 0) as [n|] eqn:E; [|reflexivity].
      destruct (Z.geb_spec n (2 ^ 63)); cbn [fst]; unfold maxInt.
      * destruct (Z.ltb_spec 0 n); [reflexivity | lia].
      * apply Z.gtb_ltb.
Qed.

Lemma positive_no_comma (s : string) : positive s = true -> hasChar "," s = false.
Proof.
  unfold positive, decimal. destruct s as [|c rest]; [discriminate|].
  destruct (Ascii.eqb_spec c "-") as [->|Hm].
  - destruct rest as [|d rest]; [discriminate|].
    destruct (parseDigits (String d rest) 0) eqn:E; [|discriminate].
    intros _. rewrite hasChar_cons, (parseDigits_no_comma _ _ _ E). reflexivity.
  - destruct (Ascii.eqb_spec c "+") as [->|Hp].
    + destruct rest as [|d rest]; [discriminate|].
      destruct (parseDigits (String d rest) 0) eqn:E; [|discriminate].
      intros _. rewrite hasChar_cons, (parseDigits_no_comma _ _ _ E). reflexivity.
    + destruct (parseDigits (String c rest) 0) eqn:E; [|discriminate].
      intros _. exact (parseDigits_no_comma _ _ _ E).
Qed.

(** What the inbound task does when the bytes of the one read begin
    with the resize header. *)
Lemma processTextMessage_resize (payload rest : string) (n : nat) :
  readBytes payload n = "resize: " +:+ rest ->
  processTextMessage payload (ReadBytes n)
  = match SplitChar rest "," with
    | [v0; v1] =>
        if (fst (Atoi v0) >? 0) && (fst (Atoi v1) >? 0)
        then Resize (fst (Atoi v0)) (fst (Atoi v1)) else Continue
    | _ => Continue
    end.
Proof.
  intros H. unfold processTextMessage. rewrite H.
  unfold HasPrefix, resizeHeader. rewrite prefix_app, TrimPrefix_app. reflexivity.
Qed.

Lemma readBytes_all (payload : string) (n : nat) :
  (String.length payload <= n)%nat -> (String.length payload <= 128)%nat ->
  readBytes payload n = payload.
Proof. intros H1 H2. unfold readBytes. apply take_all. lia. Qed.

(** C9, as amended.  The inbound task looks at the bytes that the one
    read of a text frame returns: at most the 128 bytes of its buffer
    and at most the frame, possibly fewer.  When these bytes begin
    with "resize: ", the resize of the backend is invoked if and only
    if their remainder is two comma-separated decimal integers H and
    W that are both strictly positive, and it is invoked with these
    two numbers; any other remainder, such as "0,0" or "24,", is
    passed over and nothing is reported on the error channel.  A read
    that returns a frame of at most 128 bytes in one piece returns
    the payload. *)
Theorem resize_control (payload rest : string) (n : nat) :
  readBytes payload n = "resize: " +:+ rest ->
  ((exists h w, processTextMessage payload (ReadBytes n) = Resize h w)
   <-> wellFormedResize rest)
  /\ (forall hs ws,
        rest = hs +:+ String "," ws -> positive hs = true -> positive ws = true ->
        processTextMessage payload (ReadBytes n) = Resize (fst (Atoi hs)) (fst (Atoi ws)))
  /\ (forall h w, processTextMessage payload (ReadBytes n) = Resize h w -> 0 < h /\ 0 < w)
  /\ (~ wellFormedResize rest -> processTextMessage payload (ReadBytes n) = Continue)
  /\ (forall msg, processTextMessage payload (ReadBytes n) <> ReportError msg)
  /\ ((String.length payload <= n)%nat -> (String.length payload <= 128)%nat ->
      readBytes payload n = payload)
  /\ processTextMessage "resize: 0,0" (ReadBytes 11) = Continue
  /\ processTextMessage "resize: 24," (ReadBytes 11) = Continue.
Proof.
  intros Hread. rewrite (processTextMessage_resize payload rest n Hread).
  assert (forall hs ws,
             rest = hs +:+ String "," ws -> positive hs = true -> positive ws = true ->
             SplitChar rest "," = [hs; ws]
             /\ (fst (Atoi hs) >? 0) = true /\ (fst (Atoi ws) >? 0) = true) as Hwf.
  { intros hs ws -> Hh Hw.
    rewrite SplitChar_app by now apply positive_no_comma.
    rewrite SplitChar_nosep by now apply positive_no_comma.
    rewrite !Atoi_positive. auto. }
  assert ((exists h w,
             match SplitChar rest "," with
             | [v0; v1] =>
                 if (fst (Atoi v0) >? 0) && (fst (Atoi v1) >? 0)
                 then Resize (fst (Atoi v0)) (fst (Atoi v1)) else Continue
             | _ => Continue
             end = Resize h w) -> wellFormedResize rest) as Hinv.
  { intros (h & w & H).
    destruct (SplitChar rest ",") as [|v0 [|v1 [|v2 vs]]] eqn:E; try discriminate.
    destruct (fst (Atoi v0) >? 0) eqn:E0; [|discriminate].
    destruct (fst (Atoi v1) >? 0) eqn:E1; [|discriminate].
    destruct (SplitChar_cons2 _ _ _ _ _ E) as (s' & -> & Hs').
    apply SplitChar_single in Hs' as ->.
    exists v0, v1. rewrite <- !Atoi_positive. auto. }
  split; [|split; [|split; [|split; [|split; [|split; [|split; reflexivity]]]]]].
  - split; [exact Hinv|]. intros (hs & ws & Hr & Hh & Hw).
    destruct (Hwf hs ws Hr Hh Hw) as (-> & -> & ->). eexists _, _. reflexivity.
  - intros hs ws Hr Hh Hw. destruct (Hwf hs ws Hr Hh Hw) as (-> & -> & ->). reflexivity.
  - intros h w H.
    destruct (SplitChar rest ",") as [|v0 [|v1 [|v2 vs]]]; try discriminate.
    destruct (fst (Atoi v0) >? 0) eqn:E0; [|discriminate].
    destruct (fst (Atoi v1) >? 0) eqn:E1; [|discriminate].
    injection H as <- <-. rewrite Z.gtb_ltb in E0, E1.
    apply Z.ltb_lt in E0, E1. auto.
  - intros Hn.
    destruct (SplitChar rest ",") as [|v0 [|v1 [|v2 vs]]] eqn:E; try reflexivity.
    destruct ((fst (Atoi v0) >? 0) && (fst (Atoi v1) >? 0)) eqn:Eb; [|reflexivity].
    exfalso. apply Hn, Hinv. eexists _, _. reflexivity.
  - intros msg.
    destruct (SplitChar rest ",") as [|v0 [|v1 [|v2 vs]]]; try discriminate.
    destruct ((fst (Atoi v0) >? 0) && (fst (Atoi v1) >? 0)); discriminate.
  - apply readBytes_all.
Qed.

Lemma resize_control_witness :
  processTextMessage "resize: 24,80" (ReadBytes 13) = Resize 24 80.
Proof.
  apply (proj1 (proj2 (resize_control "resize: 24,80" "24,80" 13 eq_refl)) "24" "80");
    reflexivity.
Defined.

(** C9 as stated fails when the one read does not return the whole
    payload.  A frame of 130 bytes whose remainder is the height 24
    and the width 80, the width written with leading zeros, is cut
    after the 128 bytes of the buffer: what is left of the width
    reads as 0 and no resize is invoked.  A read of the frame
    "resize: 24,80" that returns its first 11 bytes invokes no
    resize, and one that returns its first 12 bytes invokes the
    resize with the width 8. *)
Lemma resize_frame_cut :
  String.length ("resize: " +:+ longRest) = 130%nat
  /\ wellFormedResize longRest
  /\ processTextMessage ("resize: " +:+ longRest) (ReadBytes 130) = Continue
  /\ wellFormedResize "24,80"
  /\ processTextMessage "resize: 24,80" (ReadBytes 11) = Continue
  /\ processTextMessage "resize: 24,80" (ReadBytes 12) = Resize 24 8
  /\ ~ (forall (rest : string) (n : nat),
          (exists h w, processTextMessage ("resize: " +:+ rest) (ReadBytes n) = Resize h w)
          <-> wellFormedResize rest).
Proof.
  assert (wellFormedResize longRest) as Hwf.
  { exists "24", paddedWidth. repeat split. }
  split; [reflexivity|]. split; [exact Hwf|]. split; [reflexivity|].
  split; [exists "24", "80"; repeat split|]. split; [reflexivity|]. split; [reflexivity|].
  intros H. destruct (proj2 (H longRest 130%nat) Hwf) as (h & w & E).
  vm_compute in E. discriminate.
Qed.

End ResizeClaims.


(** ** The broker as a system *)

Section BrokerSystem.
Import Backend Broker.

Lemma checkContainerRuntime_stale h c r nc :
  staleSessions (fst (checkContainerRuntime h c r nc)) = staleSessions h.
Proof.
  unfold checkContainerRuntime.
  repeat match goal with
         | |- context [if ?b then _ else _] => destruct b
         | |- context [match ?o with Some _ => _ | None => _ end] => destruct o
         end; reflexivity.
Qed.

Lemma reclaim_stale_sub h info id st :
  staleSessions (fst (reclaim h info)) !! id = Some st -> staleSessions h !! id = Some st.
Proof.
  unfold reclaim. destruct (staleSessions h !! Request.SessionID info) eqn:E; [|auto].
  destruct (_ && _); [|auto]. cbn [fst withStale staleSessions].
  intros H. apply lookup_delete_Some in H as [_ H]. exact H.
Qed.

(** The first half of [Handle] adds nothing to the stale table and
    wires no run with the sidecar flag. *)
Lemma Handle_begin_unflagged (h h' : Handler) (info : Request.Info) (env : Env)
    (evs : list Event) (l : option Live) :
  Handle_begin h info env = (h', evs, l) ->
  (forall id st, staleSessions h' !! id = Some st -> staleSessions h !! id = Some st)
  /\ (forall l', l = Some l' -> liveIsSidecarSession l' = false).
Proof.
  unfold Handle_begin.
  pose proof (reclaim_stale_sub h info) as Hr.
  destruct (reclaim h info) as [h1 [s|]]; cbn [fst] in Hr.
  { intros [= <- <- <-]. split; [exact Hr|]. intros l' [= <-]. reflexivity. }
  destruct (Client.TargetType_eqb _ _).
  - unfold containerPreCheck.
    pose proof (checkContainerRuntime_stale h1 (sessConfOf h info)
                  (ContainerRuntime (containerConfig (config h1))) (newClient env)) as Hc.
    destruct (checkContainerRuntime _ _ _ _) as [h2 [e|]]; cbn [fst] in Hc.
    + intros [= <- <- <-]. split; [|discriminate]. intros id st. rewrite Hc. apply Hr.
    + pose proof (checkSidecarNum_flag h2 (sessConfOf h info)
                    (ContainerRuntime (containerConfig (config h1)))) as Hf.
      destruct (checkSidecarNum _ _ _) as [b [e|]]; cbn [fst snd] in Hf.
      * intros [= <- <- <-]. split; [|discriminate]. intros id st. rewrite Hc. apply Hr.
      * rewrite Hf by reflexivity.
        destruct (Session.EstablishSession _ _ _ _ _).
        -- intros [= <- <- <-]. split; [|discriminate]. intros id st. rewrite Hc. apply Hr.
        -- intros [= <- <- <-]. split; [intros id st; rewrite Hc; apply Hr|].
           intros l' [= <-]. reflexivity.
  - destruct (Session.EstablishSession _ _ _ _ _).
    + intros [= <- <- <-]. split; [exact Hr | discriminate].
    + intros [= <- <- <-]. split; [exact Hr|]. intros l' [= <-]. reflexivity.
Qed.

Lemma releaseSession_inv h id s ce h' err :
  releaseSession h id s ce = Session.Returned (h', err) ->
  currentSidecarNum h' = currentSidecarNum h
  /\ staleSessions h' = delete id (staleSessions h).
Proof.
  unfold releaseSession. destruct (Session.Clean s ce) as [[s' e]|]; [|discriminate].
  intros [= <- <-]. split; reflexivity.
Qed.

(** The second half of [Handle] for a run without the flag: the
    counter stays, and what it stores carries no flag. *)
Lemma Handle_end_unflagged (h h' : Handler) (l : Live) (env : Env) (evs : list Event) :
  liveIsSidecarSession l = false ->
  (forall id st, staleSessions h !! id = Some st -> isSidecarSession st = false) ->
  Handle_end h l env = Session.Returned (h', evs) ->
  currentSidecarNum h' = currentSidecarNum h
  /\ (forall id st, staleSessions h' !! id = Some st -> isSidecarSession st = false).
Proof.
  intros Hl Hs. unfold Handle_end. destruct (streamErr env).
  - intros [= <- <-]. split; [reflexivity|]. cbn [withStale staleSessions].
    intros id st H. apply lookup_insert_Some in H as [[_ <-]|[_ H]]; [exact Hl | eauto].
  - destruct (releaseSession h (sessID l) (liveSess l) (cleanErr env)) as [[h1 err]|] eqn:E;
      [|discriminate].
    apply releaseSession_inv in E as [En Es]. rewrite Hl.
    destruct err; intros [= <- <-]; (split; [exact En|]);
      intros id st H; rewrite Es in H; apply lookup_delete_Some in H as [_ H]; eauto.
Qed.

Lemma sweepOne_unflagged nowT ce h id h' :
  (forall i st, staleSessions h !! i = Some st -> isSidecarSession st = false) ->
  sweepOne nowT ce h id = Session.Returned h' ->
  currentSidecarNum h' = currentSidecarNum h
  /\ (forall i st, staleSessions h' !! i = Some st -> staleSessions h !! i = Some st).
Proof.
  intros Hs. unfold sweepOne. destruct (staleSessions h !! id) as [st|] eqn:E.
  - destruct (deathClock st <=? nowT); [|intros [= <-]; auto].
    destruct (releaseSession h id (sess st) ce) as [[h1 err]|] eqn:Er; [|discriminate].
    apply releaseSession_inv in Er as [En Es]. rewrite (Hs id st E).
    destruct err; intros [= <-]; (split; [exact En|]);
      intros i st' H; rewrite Es in H; apply lookup_delete_Some in H as [_ H]; exact H.
  - intros [= <-]. auto.
Qed.

Lemma sweep_unflagged order nowT ce h h' :
  (forall i st, staleSessions h !! i = Some st -> isSidecarSession st = false) ->
  sweep order nowT ce h = Session.Returned h' ->
  currentSidecarNum h' = currentSidecarNum h
  /\ (forall i st, staleSessions h' !! i = Some st -> staleSessions h !! i = Some st).
Proof.
  revert h. induction order as [|id rest IH]; intros h Hs; cbn [sweep].
  - intros [= <-]. auto.
  - destruct (sweepOne nowT (ce id) h id) as [h1|] eqn:E; [|discriminate].
    destruct (sweepOne_unflagged _ _ _ _ _ Hs E) as [En Esub].
    intros H. destruct (IH h1 (fun i st Hi => Hs i st (Esub i st Hi)) H) as [En' Esub'].
    split; [congruence | auto].
Qed.

Lemma reachable_inv (sys : System) :
  reachable sys -> currentSidecarNum (handler sys) = 0 /\ unflagged sys.
Proof.
  induction 1 as [sys (Hs & Hn & Hr)|sys sys' _ [IHn [IHs IHr]] Hstep].
  - split; [exact Hn|]. split.
    + intros id st. rewrite Hs, lookup_empty. discriminate.
    + rewrite Hr. constructor.
  - destruct Hstep as [sys info env h' evs l Hb|sys l env h' evs before after Hrun He
                       |sys order nowT ce h' Hsw]; cbn [handler running unflagged].
    + pose proof (Handle_begin_num (handler sys) info env) as Hnum.
      rewrite Hb in Hnum. cbn [fst] in Hnum.
      destruct (Handle_begin_unflagged _ _ _ _ _ _ Hb) as [Hsub Hl].
      split; [congruence|]. split; [eauto|].
      apply Forall_app. split; [|exact IHr].
      destruct l as [l|]; constructor; [eauto | constructor].
    + rewrite Hrun in IHr. apply Forall_app in IHr as [Hbef Haft].
      inversion Haft as [|? ? Hl Haft']; subst.
      destruct (Handle_end_unflagged _ _ _ _ _ Hl IHs He) as [En Es].
      split; [congruence|]. split; [exact Es|]. apply Forall_app. auto.
    + destruct (sweep_unflagged _ _ _ _ _ IHs Hsw) as [En Es].
      split; [congruence|]. split; [eauto | exact IHr].
Qed.

(** X1.  In every state that the broker reaches from boot through
    runs of [Handle] and passes of the sweeper, the sidecar counter
    is 0, no stale entry and no wired run carries the sidecar flag,
    and, for a limit of at least one, the cap check of a new request
    does not fail. *)
Theorem sidecar_counter_always_zero (sys : System) :
  reachable sys ->
  currentSidecarNum (handler sys) = 0
  /\ unflagged sys
  /\ (0 < Sidecar.Limit (sidecarConfig (config (handler sys))) ->
      forall (c : Session.Config) (r : Session.ContainerRuntime),
        snd (checkSidecarNum (handler sys) c r) = None).
Proof.
  intros Hr. destruct (reachable_inv sys Hr) as [Hn Hu].
  split; [exact Hn|]. split; [exact Hu|].
  intros Hlim c r. unfold checkSidecarNum. rewrite Hn.
  replace (0 >=? Sidecar.Limit (sidecarConfig (config (handler sys)))) with false
    by (symmetry; rewrite Z.geb_leb; apply Z.leb_gt; lia).
  rewrite andb_false_r. reflexivity.
Qed.

Lemma sidecar_counter_always_zero_witness :
  let r1 := Handle_begin Scenario.h0 (Scenario.sidecarRequest "" "alice")
              (Scenario.envOK "sc1" None) in
  currentSidecarNum (fst (fst r1)) = 0.
Proof.
  intros r1.
  apply (sidecar_counter_always_zero
           {| handler := fst (fst r1); running := (entered (snd r1) ++ [])%list |}).
  apply (reach_step {| handler := Scenario.h0; running := [] |}).
  - apply reach_boot. repeat split.
  - apply (step_begin {| handler := Scenario.h0; running := [] |}
             (Scenario.sidecarRequest "" "alice") (Scenario.envOK "sc1" None)
             (fst (fst r1)) (snd (fst r1)) (snd r1)).
    subst r1. cbn [handler].
    destruct (Handle_begin Scenario.h0 (Scenario.sidecarRequest "" "alice")
                (Scenario.envOK "sc1" None)) as [[a b] c].
    reflexivity.
Defined.

End BrokerSystem.

(** ** Reclaiming a reserved session *)

Section ReclaimClaims.
Import Backend Broker.




End ReclaimClaims.

(** ** One cleanup for each session *)

Section CleanOnce.
Import Backend Broker.














End CleanOnce.

(** ** Reserve, reclaim and sweep *)

Section StaleTable.
Import Backend Broker.

(** X2.  A run that ends with an error under a non-empty session id
    reserves its session under that id with the user name of the
    request and the deadline [now + delay]; the next request with the
    same id and user name is wired to that very session without a new
    one being established, the entry leaves the table, and the
    counter is where it was. *)
Theorem reserved_session_reclaimed_by_owner (h : Handler) (l : Live) (env env' : Env)
    (info : Request.Info) :
  sessID l <> EmptyString ->
  streamErr env <> None ->
  Request.SessionID info = sessID l ->
  Request.UserName info = liveUserName l ->
  exists h1 h2 l',
    Handle_end h l env = Session.Returned (h1, [])
    /\ staleSessions h1 !! sessID l
       = Some {| userName := liveUserName l; sess := liveSess l;
                 deathClock := now env + DelayReleaseSessionTimeout (sessionConfig (config h));
                 isSidecarSession := liveIsSidecarSession l |}
    /\ Handle_begin h1 info env' = (h2, [StreamsWired (sessID l)], Some l')
    /\ liveSess l' = liveSess l
    /\ staleSessions h2 !! sessID l = None
    /\ currentSidecarNum h2 = currentSidecarNum h.
Proof.
  intros Hid Herr Hsid Huser.
  set (st := {| userName := liveUserName l; sess := liveSess l;
                deathClock := now env + DelayReleaseSessionTimeout (sessionConfig (config h));
                isSidecarSession := liveIsSidecarSession l |}).
  set (h1 := withStale h (<[sessID l := st]> (staleSessions h))).
  assert (staleSessions h1 !! Request.SessionID info = Some st) as Hl
    by (rewrite Hsid; apply lookup_insert_eq).
  destruct (reclaim_removes h1 info st Hl) as [Hrec Hgone];
    [rewrite Hsid; exact Hid | exact Huser |].
  eexists h1, _, _. split.
  { unfold Handle_end. destruct (streamErr env); [reflexivity | contradiction]. }
  split; [rewrite <- Hsid; exact Hl|]. split.
  { unfold Handle_begin. rewrite Hrec.
    replace (String.eqb (Request.SessionID info) EmptyString) with false
      by (symmetry; apply String.eqb_neq; rewrite Hsid; exact Hid).
    rewrite Hsid. reflexivity. }
  split; [reflexivity|]. split; [|reflexivity].
  cbn [withStale staleSessions]. apply lookup_delete_eq.
Qed.

Lemma reserved_session_reclaimed_by_owner_witness :
  exists h1 h2 l',
    Handle_end Scenario.h0 (Scenario.liveS1 "alice") (Scenario.envOK "x" (Some "read error"))
    = Session.Returned (h1, [])
    /\ staleSessions h1 !! "S1"
       = Some {| userName := "alice"; sess := liveSess (Scenario.liveS1 "alice");
                 deathClock := 1714564860 * Sidecar.Second;
                 isSidecarSession := false |}
    /\ Handle_begin h1 (Scenario.sidecarRequest "S1" "alice") (Scenario.envOK "y" None)
       = (h2, [StreamsWired "S1"], Some l')
    /\ liveSess l' = liveSess (Scenario.liveS1 "alice")
    /\ staleSessions h2 !! "S1" = None
    /\ currentSidecarNum h2 = 0.
Proof.
  apply (reserved_session_reclaimed_by_owner Scenario.h0 (Scenario.liveS1 "alice")
           (Scenario.envOK "x" (Some "read error")) (Scenario.envOK "y" None)
           (Scenario.sidecarRequest "S1" "alice")).
  - discriminate.
  - discriminate.
  - reflexivity.
  - reflexivity.
Defined.



Lemma sweepOne_lookup nowT ce h id h' :
  sweepOne nowT ce h id = Session.Returned h' ->
  currentSidecarNum h' <= currentSidecarNum h
  /\ forall i, staleSessions h' !! i
               = match staleSessions h !! i with
                 | Some st => if decide (i = id) then
                                if expired nowT st then None else Some st
                              else Some st
                 | None => None
                 end.
Proof.
  unfold sweepOne, expired. destruct (staleSessions h !! id) as [st|] eqn:E.
  - destruct (deathClock st <=? nowT) eqn:Ed.
    + destruct (releaseSession h id (sess st) ce) as [[h1 err]|] eqn:Er; [|discriminate].
      apply releaseSession_inv in Er as [En Es].
      assert (forall i, staleSessions h1 !! i
                        = match staleSessions h !! i with
                          | Some st0 => if decide (i = id) then
                                          if deathClock st0 <=? nowT then None else Some st0
                                        else Some st0
                          | None => None
                          end) as Hl.
      { intros i. rewrite Es. destruct (decide (i = id)) as [->|Hne].
        - rewrite lookup_delete_eq, E, Ed. reflexivity.
        - rewrite lookup_delete_ne by congruence. destruct (staleSessions h !! i); reflexivity. }
      destruct err; intros [= <-].
      * split; [lia | exact Hl].
      * destruct (isSidecarSession st); cbn [withSidecarNum currentSidecarNum staleSessions];
          (split; [lia | exact Hl]).
    + intros [= <-]. split; [lia|]. intros i.
      destruct (decide (i = id)) as [->|Hne].
      * rewrite E, Ed. reflexivity.
      * destruct (staleSessions h !! i); reflexivity.
  - intros [= <-]. split; [lia|]. intros i.
    destruct (decide (i = id)) as [->|Hne]; [rewrite E; reflexivity|].
    destruct (staleSessions h !! i); reflexivity.
Qed.

(** X4.  A pass of the sweeper that returns has released exactly the
    entries it reached whose deadline has passed: they are gone from
    the table, whether their cleanup reported an error or not; every
    other entry is as it was, and the sidecar counter has not grown. *)
Theorem sweep_releases_expired (order : list string) (nowT : Z)
    (cleanErr : string -> option string) (h h' : Handler) :
  sweep order nowT cleanErr h = Session.Returned h' ->
  currentSidecarNum h' <= currentSidecarNum h
  /\ forall id, staleSessions h' !! id
                = match staleSessions h !! id with
                  | Some st => if decide (id ∈ order) then
                                 if expired nowT st then None else Some st
                               else Some st
                  | None => None
                  end.
Proof.
  revert h. induction order as [|i rest IH]; intros h; cbn [sweep].
  - intros [= <-]. split; [lia|]. intros id.
    destruct (staleSessions h !! id); [|reflexivity].
    destruct (decide (id ∈ [])) as [Hin|]; [|reflexivity]. now apply not_elem_of_nil in Hin.
  - destruct (sweepOne nowT (cleanErr i) h i) as [h1|] eqn:E; [|discriminate].
    destruct (sweepOne_lookup _ _ _ _ _ E) as [Hn Hl]. intros H.
    destruct (IH h1 H) as [Hn' Hl']. split; [lia|]. intros id.
    rewrite Hl', Hl. destruct (staleSessions h !! id) as [st|]; [|reflexivity].
    destruct (decide (id = i)) as [->|Hne].
    + destruct (decide (i ∈ i :: rest)) as [_|Hn0]; [|exfalso; apply Hn0; left].
      destruct (expired nowT st) eqn:Ee; [reflexivity|]. cbv beta iota. rewrite Ee.
      destruct (decide (i ∈ rest)); reflexivity.
    + destruct (decide (id ∈ rest)) as [Hin|Hnin];
        destruct (decide (id ∈ i :: rest)) as [Hin'|Hnin']; try reflexivity.
      * exfalso. apply Hnin'. now right.
      * exfalso. apply elem_of_cons in Hin' as [?|?]; contradiction.
Qed.

Lemma sweep_releases_expired_witness :
  match sweep ["S1"] (1714564861 * Sidecar.Second) (fun _ => None) Scenario.hStale with
  | Session.Returned h' => staleSessions h' !! "S1" = None
  | Session.Panicked => False
  end.
Proof.
  destruct (sweep ["S1"] (1714564861 * Sidecar.Second) (fun _ => None) Scenario.hStale)
    as [h'|] eqn:E.
  - rewrite (proj2 (sweep_releases_expired _ _ _ _ _ E) "S1"). reflexivity.
  - vm_compute in E. discriminate.
Defined.

(** X5.  What goes into the close frame of a failed establishment
    fits the control frame: the truncated text is a prefix of the
    text, it is the text itself when that has at most 123 bytes, and
    it has exactly 123 bytes otherwise. *)
Theorem truncWebsocketErrMsg_bound (errMsg : string) :
  String.prefix (truncWebsocketErrMsg errMsg) errMsg = true
  /\ (String.length (truncWebsocketErrMsg errMsg) <= 123)%nat
  /\ if (String.length errMsg <=? 123)%nat
     then truncWebsocketErrMsg errMsg = errMsg
     else String.length (truncWebsocketErrMsg errMsg) = 123%nat.
Proof.
  assert (forall n s, (n <= String.length s)%nat ->
                      String.length (GoStrings.take n s) = n) as Hlen.
  { induction n as [|n IH]; intros [|c s] H; cbn [GoStrings.take String.length] in *;
      try lia. rewrite IH; lia. }
  assert (forall n s, String.prefix (GoStrings.take n s) s = true) as Hpre.
  { induction n as [|n IH]; intros [|c s]; cbn [GoStrings.take String.prefix]; try reflexivity.
    destruct (ascii_dec c c); [apply IH | contradiction]. }
  assert (forall s, String.prefix s s = true) as Hrefl.
  { induction s as [|c s IH]; cbn [String.prefix]; [reflexivity|].
    destruct (ascii_dec c c); [exact IH | contradiction]. }
  unfold truncWebsocketErrMsg, maxWebsocketControlMsgLength.
  destruct (Nat.ltb_spec 123 (String.length errMsg)) as [Hlt|Hle].
  - replace (String.length errMsg <=? 123)%nat with false
      by (symmetry; apply Nat.leb_gt; lia).
    rewrite Hlen by lia. split; [apply Hpre|]. split; [lia | reflexivity].
  - replace (String.length errMsg <=? 123)%nat with true
      by (symmetry; apply Nat.leb_le; lia).
    split; [apply Hrefl|]. split; [exact Hle | reflexivity].
Qed.

End StaleTable.

(** ** The choice of the backend *)

Section BackendChoice.
Import Session.

(** X6.  The backend of an established session follows from the
    target type, the tunnel preference, the clean-mode flag and the
    runtime: on the host, nsenter when the tunnel is "nsenter" and
    clean mode is on, SSH otherwise; in a container under the docker
    runtime, the sidecar in clean mode and the direct exec without
    it; under any other runtime, the containerd exec, whatever the
    clean-mode flag says. *)
Theorem EstablishSession_backend (config : Config) (apiClient containerdClient : bool)
    (runtime : ContainerRuntime) (w : World) (s : t) :
  EstablishSession config apiClient containerdClient runtime w = inr s ->
  variantOf s
  = if TargetType config =? Client.TargetPhys then
      if String.eqb (PhysTunnel config) "nsenter" && negb (DisableCleanMode config)
      then HostNsEnter else HostSSH
    else if String.eqb runtime Docker then
      if DisableCleanMode config then DirectExecDocker else SidecarAttached
    else DirectExecContainerd.
Proof.
  unfold EstablishSession, Client.TargetType_eqb, establishPhysSession,
    establishContainerSession.
  destruct (TargetType config =? Client.TargetPhys).
  - destruct (String.eqb (PhysTunnel config) "nsenter" && negb (DisableCleanMode config)).
    + destruct (establishNsenterSession _ _ _); [discriminate|]. intros [= <-]. reflexivity.
    + destruct (ssh w); [discriminate|]. intros [= <-]. reflexivity.
  - destruct (String.eqb runtime Docker).
    + unfold establishDockerSession. destruct (negb apiClient); [discriminate|].
      destruct (if negb (String.eqb (LoginName config) EmptyString) then _ else _);
        [discriminate|].
      destruct (DisableCleanMode config).
      * unfold execContainer.
        destruct (execCreateErr (docker w)); [discriminate|].
        destruct (execAttachErr (docker w)); [discriminate|]. intros [= <-]. reflexivity.
      * unfold attachSidecar.
        destruct (pullErr (docker w)); [discriminate|].
        destruct (String.eqb (LoginName config) EmptyString); [discriminate|].
        destruct (createErr (docker w)); [discriminate|].
        destruct (attachErr (docker w)); [discriminate|].
        destruct (startErr (docker w)); [discriminate|]. intros [= <-]. reflexivity.
    + destruct (negb containerdClient); [discriminate|].
      destruct (containerd w); [discriminate|]. intros [= <-]. reflexivity.
Qed.

Lemma EstablishSession_backend_witness :
  variantOf (OfNsenter
    {| NsenterSession.args :=
         ["-t"; "1"; "-m"; "-u"; "-i"; "-n"; "-p"; "-S"; "1000"; "-G"; "1000";
          "--wd=/rootfs/home/app"; "sh"; "-c"; "ls /tmp"];
       NsenterSession.env :=
         ["PWD=/home/app";
          "PATH=/usr/local/sbin:/usr/local/bin:/usr/sbin:/usr/bin:/sbin:/bin";
          "TERM=xterm-256color"];
       NsenterSession.tty := false; NsenterSession.pid := 4242;
       NsenterSession.stdoutDone := false; NsenterSession.stderrDone := false;
       NsenterSession.exited := false; NsenterSession.exitCode := 0 |})
  = HostNsEnter.
Proof.
  apply (EstablishSession_backend
           (Backend.sessConfOf Scenario.h0 (Scenario.hostRequest "app")) true false
           Docker (Scenario.worldOK "x")).
  vm_compute. reflexivity.
Defined.

End BackendChoice.

(** ** Requests that are turned away *)

Section TurnedAway.
Import Request.
Variable ParseFloat : string -> option float64.
Variable DecodeString : string -> option string.

(** X7.  A request that does not parse, that the authorizer answers
    with a code other than 200, or whose upgrade fails, leaves the
    broker as it was and causes nothing: no backend is established and
    no frame is written. *)
Theorem rejected_request_touches_nothing (hd : Backend.Handler) (h : Header)
    (env : Backend.Env) :
  (exists msg, GetRequestInfo ParseFloat DecodeString h = Err msg)
  \/ (exists info verify,
         GetRequestInfo ParseFloat DecodeString h = Ok info
         /\ Backend.authHandler hd = Some verify
         /\ verify info <> Backend.Success)
  \/ Backend.upgradeErr env <> None ->
  Backend.Handle ParseFloat DecodeString hd h env = Session.Returned (hd, []).
Proof.
  unfold Backend.Handle. intros [[msg ->]|[(info & verify & -> & -> & Hv)|Hu]].
  - reflexivity.
  - replace (verify info =? Backend.Success) with false
      by (symmetry; now apply Z.eqb_neq). reflexivity.
  - destruct (GetRequestInfo ParseFloat DecodeString h); [|reflexivity].
    destruct (match Backend.authHandler hd with Some _ => _ | None => _ end); [reflexivity|].
    destruct (Backend.upgradeErr env); [reflexivity | contradiction].
Qed.

End TurnedAway.

Lemma rejected_request_touches_nothing_witness :
  Backend.Handle Scenario.parseFloatSample Scenario.decodeSample
    Scenario.hGuarded Scenario.envelope (Scenario.envOK "x" None)
  = Session.Returned (Scenario.hGuarded, []).
Proof.
  apply (rejected_request_touches_nothing Scenario.parseFloatSample Scenario.decodeSample
           Scenario.hGuarded Scenario.envelope (Scenario.envOK "x" None)).
  right. left. eexists _, _. split; [vm_compute; reflexivity|].
  split; [reflexivity|]. vm_compute. discriminate.
Defined.


(** ** The error taxonomy *)

Section Taxonomy.
Import GoStrings Sessionutil.

Lemma prefix_length (p s : string) :
  String.prefix p s = true -> (String.length p <= String.length s)%nat.
Proof.
  revert s. induction p as [|c p IH]; intros s H; cbn [String.length]; [lia|].
  destruct s as [|d s]; cbn [String.prefix] in H; [discriminate|].
  destruct (ascii_dec c d); [|discriminate]. specialize (IH s H). cbn [String.length]. lia.
Qed.

(** A text shorter than the pattern does not contain it. *)
Lemma Contains_short (s p : string) :
  (String.length s < String.length p)%nat -> Contains s p = false.
Proof.
  induction s as [|c s IH]; intros H; cbn [Contains].
  - destruct (String.prefix p "") eqn:E; [|reflexivity].
    apply prefix_length in E. lia.
  - destruct (String.prefix p (String c s)) eqn:E.
    + apply prefix_length in E. lia.
    + apply IH. cbn [String.length] in H. lia.
Qed.

Lemma take_length_le (n : nat) (s : string) : (String.length (take n s) <= n)%nat.
Proof.
  revert s. induction n as [|n IH]; intros [|c s]; cbn [take String.length]; try lia.
  specialize (IH s). lia.
Qed.

(** The container id as [WrapContainerError] prints it. *)
Lemma shortID (cid : string) :
  (if (maxContainerIDLength <? String.length cid)%nat then take maxContainerIDLength cid
   else cid) = take 6 cid.
Proof.
  unfold maxContainerIDLength. destruct (Nat.ltb_spec 6 (String.length cid)); [reflexivity|].
  symmetry. apply take_all. assumption.
Qed.

(** X8.  How the errors of the container runtime are classified.  A
    text with "No such container" or "not found" becomes "can't find
    container:<id>" (the first six bytes of the container id) with the
    code MA_522; otherwise a text with "is not running" becomes
    "container is not running:<id>" with MA_523; otherwise a text with
    "no such file or directory" or "connection refused" becomes
    "docker is unavailable", which no entry of the taxonomy matches:
    its code is MA_-1, not MA_524. *)
Theorem container_error_codes (errMsg cid : string) :
  (Contains errMsg "No such container" || Contains errMsg "not found" = true ->
   WrapErrorWithCode (WrapContainerError errMsg cid)
   = "code=MA_522,msg=can't find container:" +:+ take 6 cid)
  /\ (Contains errMsg "No such container" || Contains errMsg "not found" = false ->
      Contains errMsg "is not running" = true ->
      WrapErrorWithCode (WrapContainerError errMsg cid)
      = "code=MA_523,msg=container is not running:" +:+ take 6 cid)
  /\ (Contains errMsg "No such container" || Contains errMsg "not found" = false ->
      Contains errMsg "is not running" = false ->
      Contains errMsg "no such file or directory" || Contains errMsg "connection refused"
      = true ->
      WrapErrorWithCode (WrapContainerError errMsg cid)
      = "code=MA_-1,msg=docker is unavailable").
Proof.
  pose proof (take_length_le 6 cid) as Hlen.
  assert (forall p, (6 < String.length p)%nat -> Contains (take 6 cid) p = false) as Hs
    by (intros p Hp; apply Contains_short; lia).
  unfold WrapContainerError. rewrite shortID. generalize dependent (take 6 cid).
  intros id _ Hs. split; [|split].
  - intros ->. unfold WrapErrorWithCode, errorCode.
    let t := eval cbv [String.append] in ("can't find container:" +:+ id) in
    change ("can't find container:" +:+ id) with t.
    simpl. rewrite !Hs by (cbn; lia). reflexivity.
  - intros -> ->. unfold WrapErrorWithCode, errorCode.
    let t := eval cbv [String.append] in ("container is not running:" +:+ id) in
    change ("container is not running:" +:+ id) with t.
    simpl. rewrite !Hs by (cbn; lia). reflexivity.
  - intros -> -> ->. reflexivity.
Qed.

Lemma container_error_codes_witness :
  WrapErrorWithCode
    (WrapContainerError "Error response from daemon: No such container: c1abcdef99"
       "c1abcdef99")
  = "code=MA_522,msg=can't find container:" +:+ take 6 "c1abcdef99".
Proof.
  apply (container_error_codes
           "Error response from daemon: No such container: c1abcdef99" "c1abcdef99").
  reflexivity.
Defined.

End Taxonomy.

(** ** The passwd lookup *)

Section PasswdLookup.
Import GoStrings Sessionutil Session Passwd.

Lemma readLines_no_newline (t : string) :
  hasChar nl t = false -> readLines t = ([], t).
Proof.
  induction t as [|c t IH]; intros H; [reflexivity|].
  cbn [hasChar] in H. apply orb_false_elim in H as [Hc Ht].
  cbn [readLines]. rewrite (IH Ht), Ascii.eqb_sym, Hc. reflexivity.
Qed.

(** Text after the last newline adds no line. *)
Lemma readLines_tail (c t : string) :
  hasChar nl t = false ->
  readLines (c +:+ t) = (fst (readLines c), snd (readLines c) +:+ t).
Proof.
  intros Ht. induction c as [|a c IH].
  - rewrite append_nil, (readLines_no_newline t Ht). reflexivity.
  - rewrite append_cons. cbn [readLines]. rewrite IH.
    destruct (readLines c) as [ls rest]. cbn [fst snd].
    destruct (Ascii.eqb a nl); [reflexivity|]. destruct ls; reflexivity.
Qed.

(** X9.  An entry on a last line that does not end in a newline is
    not seen by the lookup: the result for a file is the result for
    the file without what follows its last newline. *)
Theorem findUser_ignores_unterminated_line (username content tail : string) :
  hasChar nl tail = false ->
  findUser username (Some (content +:+ tail)) = findUser username (Some content).
Proof.
  intros H. unfold findUser. rewrite (readLines_tail content tail H). reflexivity.
Qed.

Lemma findUser_ignores_unterminated_line_witness :
  findUser "bob" (Some (Scenario.passwdFile +:+ "bob:x:1001:1001::/home/bob:/bin/bash"))
  = findUser "bob" (Some Scenario.passwdFile).
Proof.
  apply (findUser_ignores_unterminated_line "bob" Scenario.passwdFile
           "bob:x:1001:1001::/home/bob:/bin/bash").
  reflexivity.
Defined.

Lemma scanPasswd_find (username : string) (lines : list string) :
  scanPasswd username lines
  = match List.find (fun line => isEntryOf username line && negb (refused line)) lines with
    | Some line =>
        (seg (SplitChar line ":") 2, seg (SplitChar line ":") 3, seg (SplitChar line ":") 5)
    | None => (EmptyString, EmptyString, EmptyString)
    end.
Proof.
  induction lines as [|line rest IH]; [reflexivity|].
  cbn [scanPasswd List.find]. unfold isEntryOf at 1, refused at 1.
  destruct (List.length (SplitChar line ":") =? expectedPasswdSegmentsCount)%nat;
    cbn [negb andb]; [|exact IH].
  destruct (String.eqb (seg (SplitChar line ":") 0) username); cbn [negb andb]; [|exact IH].
  rewrite negb_involutive.
  destruct (loginAllowed line (SplitChar line ":")); [reflexivity | exact IH].
Qed.

(** X10.  The lookup returns the uid, gid and login directory (fields
    2, 3 and 5) of the first line of the file that has seven fields,
    the user name as its first field, no "nologin" in it and a shell
    ending in "sh"; lines of the user before it that fail the test are
    passed over, later lines are not looked at, and without such a
    line the three results are empty and the error is nil. *)
Theorem findUser_first_allowed_entry (username content : string) :
  findUser username (Some content)
  = inr match List.find (fun line => isEntryOf username line && negb (refused line))
                (fst (readLines content)) with
        | Some line =>
            (seg (SplitChar line ":") 2, seg (SplitChar line ":") 3,
             seg (SplitChar line ":") 5)
        | None => (EmptyString, EmptyString, EmptyString)
        end.
Proof. unfold findUser. rewrite scanPasswd_find. reflexivity. Qed.

(** X11.  The nsenter command of an established host session.  With
    an empty login name the command is [nsenter -t 1 -m -u -i -n -p]
    followed by the request's command: no uid or gid is set.  With a
    login name, the arguments [-S uid -G gid --wd=<rootfs><dir>] stand
    between the two, taken from a passwd entry of that name that
    passes the shell test, and the uid is not empty. *)
Theorem nsenter_command_line (config : Config) (content : string) (os : NsenterOS)
    (s : NsenterSession.t) :
  establishNsenterSession config (Some content) os = inr s ->
  if String.eqb (LoginName config) EmptyString then
    NsenterSession.args s
    = (["-t"; "1"; "-m"; "-u"; "-i"; "-n"; "-p"] ++ Cmd config)%list
  else
    exists line,
      In line (entriesOf (LoginName config) content)
      /\ refused line = false
      /\ seg (SplitChar line ":") 2 <> EmptyString
      /\ NsenterSession.args s
         = (["-t"; "1"; "-m"; "-u"; "-i"; "-n"; "-p"]
            ++ ["-S"; seg (SplitChar line ":") 2; "-G"; seg (SplitChar line ":") 3;
                "--wd=" +:+ RootfsPrefix config +:+ seg (SplitChar line ":") 5]
            ++ Cmd config)%list.
Proof.
  unfold establishNsenterSession, GetUserInfo, findUser.
  destruct (String.eqb (LoginName config) EmptyString); cbn [negb].
  - destruct (setupErr os); [discriminate|]. destruct (startErr' os); [discriminate|].
    intros [= <-]. reflexivity.
  - rewrite scanPasswd_find.
    destruct (List.find _ (fst (readLines content))) as [line|] eqn:E; [|discriminate].
    apply List.find_some in E as [Hin Hok]. apply andb_prop in Hok as [He Hr].
    destruct (String.eqb_spec (seg (SplitChar line ":") 2) EmptyString) as [|Hne];
      [discriminate|].
    destruct (setupErr os); [discriminate|]. destruct (startErr' os); [discriminate|].
    intros [= <-]. exists line. cbn [NsenterSession.args].
    split; [apply List.filter_In; auto|].
    split; [now apply negb_true_iff in Hr|]. split; [exact Hne|].
    rewrite (proj2 (String.eqb_neq _ _) Hne). reflexivity.
Qed.

Lemma nsenter_command_line_witness :
  exists line,
    In line (entriesOf "app" Scenario.passwdFile)
    /\ refused line = false
    /\ seg (SplitChar line ":") 2 <> EmptyString
    /\ ["-t"; "1"; "-m"; "-u"; "-i"; "-n"; "-p"; "-S"; "1000"; "-G"; "1000";
        "--wd=/rootfs/home/app"; "sh"; "-c"; "ls /tmp"]
       = (["-t"; "1"; "-m"; "-u"; "-i"; "-n"; "-p"]
          ++ ["-S"; seg (SplitChar line ":") 2; "-G"; seg (SplitChar line ":") 3;
              "--wd=" +:+ "/rootfs" +:+ seg (SplitChar line ":") 5]
          ++ ["sh"; "-c"; "ls /tmp"])%list.
Proof.
  exact (nsenter_command_line
           (Backend.sessConfOf Scenario.h0 (Scenario.hostRequest "app"))
           Scenario.passwdFile (nsenterOS (Scenario.worldOK "x"))
           {| NsenterSession.args :=
                ["-t"; "1"; "-m"; "-u"; "-i"; "-n"; "-p"; "-S"; "1000"; "-G"; "1000";
                 "--wd=/rootfs/home/app"; "sh"; "-c"; "ls /tmp"];
              NsenterSession.env :=
                ["PWD=/home/app";
                 "PATH=/usr/local/sbin:/usr/local/bin:/usr/sbin:/usr/bin:/sbin:/bin";
                 "TERM=xterm-256color"];
              NsenterSession.tty := false;
              NsenterSession.pid := childPid (nsenterOS (Scenario.worldOK "x"));
              NsenterSession.stdoutDone := false; NsenterSession.stderrDone := false;
              NsenterSession.exited := false; NsenterSession.exitCode := 0 |}
           eq_refl).
Defined.

End PasswdLookup.

(** ** The stream task, beyond the frames of a clean stream *)

Section Streams.
Import Session Session.DockerSession Framing Chunks.

Lemma totalBytes_stdout (d : list byte) (cs : list Chunk) :
  totalBytes (ToStdout d :: cs) = (List.length d + totalBytes cs)%nat.
Proof.
  unfold totalBytes, stdoutBytes, stderrBytes. cbn [flat_map].
  rewrite !List.length_app. cbn [List.length]. lia.
Qed.

Lemma totalBytes_stderr (d : list byte) (cs : list Chunk) :
  totalBytes (ToStderr d :: cs) = (List.length d + totalBytes cs)%nat.
Proof.
  unfold totalBytes, stdoutBytes, stderrBytes. cbn [flat_map].
  rewrite !List.length_app. cbn [List.length]. lia.
Qed.

Lemma totalBytes_app (a b : list Chunk) :
  totalBytes (a ++ b) = (totalBytes a + totalBytes b)%nat.
Proof.
  unfold totalBytes. rewrite stdoutBytes_app, stderrBytes_app, !List.length_app. lia.
Qed.

Lemma reads_concat (fuel : nat) (reader : list byte) :
  (List.length reader <= fuel)%nat ->
  concat (reads fuel reader) = reader
  /\ Forall (fun r => (1 <= List.length r <= 4096)%nat) (reads fuel reader).
Proof.
  revert reader. induction fuel as [|f IH]; intros reader Hf.
  - destruct reader; [|cbn [List.length] in Hf; lia]. split; [reflexivity | constructor].
  - destruct reader as [|b reader]; [split; [reflexivity | constructor]|].
    change (reads (S f) (b :: reader))
      with (firstn (Z.to_nat bufferSize) (b :: reader)
              :: reads f (skipn (Z.to_nat bufferSize) (b :: reader))).
    assert (Z.to_nat bufferSize = 4096%nat) as -> by reflexivity.
    destruct (IH (skipn 4096 (b :: reader))) as [Hc Hb].
    { rewrite List.length_skipn. cbn [List.length] in *. lia. }
    split.
    + cbn [concat]. rewrite Hc. apply List.firstn_skipn.
    + constructor; [|exact Hb]. rewrite List.length_firstn. cbn [List.length]. lia.
Qed.

Lemma unified_stdout (rs : list (list byte)) :
  stdoutBytes (fst (streamUnifiedOutput rs)) = concat rs
  /\ stderrBytes (fst (streamUnifiedOutput rs)) = [].
Proof.
  unfold streamUnifiedOutput. cbn [fst]. induction rs as [|r rs [IHo IHe]]; [split; reflexivity|].
  cbn [List.filter concat]. destruct r as [|b r]; cbn [List.length Nat.eqb negb].
  - split; assumption.
  - cbn [map]. unfold stdoutBytes, stderrBytes in *. cbn [flat_map].
    rewrite IHo, IHe. split; reflexivity.
Qed.

Lemma unified_bounded (rs : list (list byte)) :
  Forall (fun r => (1 <= List.length r <= 4096)%nat) rs ->
  Forall bounded (fst (streamUnifiedOutput rs)).
Proof.
  unfold streamUnifiedOutput. cbn [fst]. induction 1 as [|r rs Hr _ IH]; [constructor|].
  cbn [List.filter]. destruct (negb (List.length r =? 0)%nat); [|exact IH].
  cbn [map]. constructor; [exact Hr | exact IH].
Qed.

(** X12.  A docker session with a tty, and a direct exec (clean mode
    disabled) with or without one, do not split the attached stream:
    all of its bytes go to the stdout channel, in order and in chunks
    of at most a buffer, nothing goes to stderr, and both channels are
    closed at the end. *)
Theorem unified_stream_to_stdout (s : DockerSession.t) (exec : bool) (reader : list byte) :
  tty s = true \/ exec = false ->
  exists cs,
    handleStreamOutput s exec reader = Some (cs, ChannelsClosed)
    /\ stdoutBytes cs = reader
    /\ stderrBytes cs = []
    /\ Forall bounded cs.
Proof.
  intros H. exists (fst (streamUnifiedOutput (reads (List.length reader) reader))).
  destruct (reads_concat (List.length reader) reader) as [Hc Hb]; [lia|].
  destruct (unified_stdout (reads (List.length reader) reader)) as [Ho He].
  split; [|split; [|split]].
  - unfold handleStreamOutput. destruct H as [-> | ->]; [reflexivity|].
    destruct (tty s); reflexivity.
  - rewrite Ho. exact Hc.
  - exact He.
  - apply unified_bounded. exact Hb.
Qed.

Lemma unified_stream_to_stdout_witness :
  exists cs,
    handleStreamOutput (newDockerSession "e1" true false) false (wire noFrame)
    = Some (cs, ChannelsClosed)
    /\ stdoutBytes cs = wire noFrame
    /\ stderrBytes cs = []
    /\ Forall bounded cs.
Proof.
  apply (unified_stream_to_stdout (newDockerSession "e1" true false) false (wire noFrame)).
  right. reflexivity.
Defined.

Lemma readFrame_bounded (fuel : nat) (st left : Z) (reader : list byte)
    (cs : list Chunk) (r : option (list byte)) :
  readFrame fuel st left reader = Some (cs, r) ->
  Forall bounded cs
  /\ (totalBytes cs + match r with Some rest => List.length rest | None => 0 end
      <= List.length reader)%nat.
Proof.
  revert left reader cs r. induction fuel as [|f IH]; intros left reader cs r; [discriminate|].
  cbn [readFrame].
  destruct (Z.leb_spec left 0) as [Hz|Hz].
  { intros [= <- <-]. split; [constructor | cbn; lia]. }
  set (size := if left <? bufferSize then left else bufferSize).
  assert (1 <= Z.to_nat size <= 4096)%nat as Hsz.
  { unfold size, bufferSize. destruct (Z.ltb_spec left 4096); lia. }
  destruct (Nat.ltb_spec (List.length reader) (Z.to_nat size)) as [Hl|Hl].
  { intros [= <- <-]. split; [constructor | cbn; lia]. }
  assert (List.length (firstn (Z.to_nat size) reader) = Z.to_nat size) as Hfl
    by (rewrite List.length_firstn; lia).
  assert (List.length (skipn (Z.to_nat size) reader)
          = (List.length reader - Z.to_nat size)%nat) as Hsl
    by apply List.length_skipn.
  destruct (st =? 0); [intros [= <- <-]; split; [constructor | cbn; lia]|].
  destruct (st =? 1).
  { destruct (readFrame f st (left - size) _) as [[cs' r']|] eqn:E; [|discriminate].
    intros [= <- <-]. destruct (IH _ _ _ _ E) as [Hb Ht]. split.
    - constructor; [unfold bounded; cbn [chunkData]; lia | exact Hb].
    - rewrite totalBytes_stdout. lia. }
  destruct (st =? 2).
  { destruct (readFrame f st (left - size) _) as [[cs' r']|] eqn:E; [|discriminate].
    intros [= <- <-]. destruct (IH _ _ _ _ E) as [Hb Ht]. split.
    - constructor; [unfold bounded; cbn [chunkData]; lia | exact Hb].
    - rewrite totalBytes_stderr. lia. }
  intros [= <- <-]. split; [constructor | cbn; lia].
Qed.

Lemma splitLoop_bounded (fuel : nat) (reader : list byte) (cs : list Chunk) (e : ReaderEnd) :
  splitLoop fuel reader = Some (cs, e) ->
  Forall bounded cs /\ (totalBytes cs <= List.length reader)%nat.
Proof.
  revert reader cs. induction fuel as [|f IH]; intros reader cs; [discriminate|].
  destruct reader as [|m0 [|m1 [|m2 [|m3 [|m4 [|m5 [|m6 [|m7 reader]]]]]]]];
    try (intros [= <- <-]; split; [constructor | cbn; lia]).
  cbn [splitLoop].
  destruct (readFrame _ _ _ reader) as [[cs0 r]|] eqn:E; [|discriminate].
  destruct (readFrame_bounded _ _ _ _ _ _ E) as [Hb Ht].
  destruct r as [rest|].
  - destruct (splitLoop f rest) as [[cs' e']|] eqn:E'; [|discriminate].
    intros [= <- <-]. destruct (IH _ _ E') as [Hb' Ht']. split.
    + apply Forall_app. split; assumption.
    + rewrite totalBytes_app. cbn [List.length]. lia.
  - intros [= <- <-]. split; [exact Hb|]. cbn [List.length]. lia.
Qed.

(** X13.  Whatever bytes the attached connection delivers, every
    chunk the splitting stream task hands to a channel holds between
    one and 4096 bytes, and the chunks together hold no more bytes
    than the stream: the task never hands over an empty reader and
    never more than it has read. *)
Theorem split_chunks_bounded (reader : list byte) (cs : list Chunk) (e : ReaderEnd) :
  streamSplitOutput reader = Some (cs, e) ->
  Forall bounded cs /\ (totalBytes cs <= List.length reader)%nat.
Proof. apply splitLoop_bounded. Qed.

Lemma split_chunks_bounded_witness :
  Forall bounded [ToStdout [x68; x69]; ToStderr [x6e; x6f]]
  /\ (totalBytes [ToStdout [x68; x69]; ToStderr [x6e; x6f]]
      <= List.length (wire hiFrame ++ wire noFrame))%nat.
Proof.
  apply (split_chunks_bounded (wire hiFrame ++ wire noFrame)
           [ToStdout [x68; x69]; ToStderr [x6e; x6f]] ChannelsClosed).
  reflexivity.
Defined.

(** X14.  Fewer than eight bytes after the last frame are not a
    header: the splitting stream task hands over the payloads of the
    frames before them, drops these bytes and closes both channels. *)
Theorem partial_header_dropped (fs : list Frame) (tail : list byte) :
  Forall wellFramed fs ->
  Forall isOutput fs ->
  (List.length tail < 8)%nat ->
  exists cs,
    streamSplitOutput (flat_map wire fs ++ tail) = Some (cs, ChannelsClosed)
    /\ stdoutBytes cs = stdoutPayload fs
    /\ stderrBytes cs = stderrPayload fs.
Proof.
  intros Hw Ho Ht. unfold streamSplitOutput.
  destruct (splitLoop_frames fs Hw Ho (S (List.length (flat_map wire fs ++ tail))) tail)
    as (cs & Hso & Hse & Hl); [lia|].
  exists cs. rewrite Hl.
  pose proof (wire_length fs) as Hwl. rewrite List.length_app.
  destruct (S (List.length (flat_map wire fs) + List.length tail) - List.length fs)%nat
    as [|k] eqn:Ek; [lia|].
  assert (splitLoop (S k) tail = Some ([], ChannelsClosed)) as ->.
  { destruct tail as [|m0 [|m1 [|m2 [|m3 [|m4 [|m5 [|m6 [|m7 tail]]]]]]]]; try reflexivity.
    cbn [List.length] in Ht. lia. }
  rewrite List.app_nil_r. auto.
Qed.

Lemma partial_header_dropped_witness :
  exists cs,
    streamSplitOutput (flat_map wire [hiFrame; noFrame] ++ [x01; x00; x00]) 
    = Some (cs, ChannelsClosed)
    /\ stdoutBytes cs = stdoutPayload [hiFrame; noFrame]
    /\ stderrBytes cs = stderrPayload [hiFrame; noFrame].
Proof.
  apply (partial_header_dropped [hiFrame; noFrame] [x01; x00; x00]).
  - repeat constructor.
  - constructor; [left; reflexivity|].
    constructor; [right; reflexivity | constructor].
  - cbn; lia.
Defined.

(** X15.  A frame that announces payload stops the splitting stream
    task when its stream byte is neither 1 nor 2, or when the
    connection ends before the first buffer of its payload is full:
    the task returns with the payloads of the frames before it handed
    over, nothing of this frame or after it, and neither channel
    closed. *)
Theorem bad_frame_stops_reader (fs : list Frame) (f0 : Frame) (body : list byte) :
  Forall wellFramed fs ->
  Forall isOutput fs ->
  0 < frameSize f0 ->
  ~ isOutput f0 \/ Z.of_nat (List.length body) < Z.min (frameSize f0) bufferSize ->
  exists cs,
    streamSplitOutput (flat_map wire fs ++ header f0 ++ body) = Some (cs, ReaderReturned)
    /\ stdoutBytes cs = stdoutPayload fs
    /\ stderrBytes cs = stderrPayload fs.
Proof.
  intros Hw Ho Hpos Hbad. unfold streamSplitOutput.
  destruct (splitLoop_frames fs Hw Ho
              (S (List.length (flat_map wire fs ++ header f0 ++ body))) (header f0 ++ body))
    as (cs & Hso & Hse & Hl); [lia|].
  exists cs. rewrite Hl.
  pose proof (wire_length fs) as Hwl. rewrite !List.length_app.
  destruct (S (List.length (flat_map wire fs) + (List.length (header f0) + List.length body))
            - List.length fs)%nat as [|k] eqn:Ek; [cbn [header List.length] in Ek; lia|].
  rewrite splitLoop_header.
  assert (readFrame (S (List.length body)) (streamId f0) (frameSize f0) body
          = Some ([], None)) as ->.
  { cbn [readFrame].
    replace (frameSize f0 <=? 0) with false by (symmetry; apply Z.leb_gt; lia).
    destruct (Nat.ltb_spec (List.length body)
                (Z.to_nat (if frameSize f0 <? bufferSize then frameSize f0 else bufferSize)))
      as [Hl'|Hl']; [reflexivity|].
    destruct Hbad as [Hno|Hshort].
    - destruct (Z.eqb_spec (streamId f0) 0); [reflexivity|].
      destruct (Z.eqb_spec (streamId f0) 1); [exfalso; apply Hno; left; assumption|].
      destruct (Z.eqb_spec (streamId f0) 2); [exfalso; apply Hno; right; assumption|].
      reflexivity.
    - exfalso. unfold bufferSize in *.
      destruct (Z.ltb_spec (frameSize f0) 4096); lia. }
  rewrite List.app_nil_r. auto.
Qed.

Lemma bad_frame_stops_reader_witness :
  exists cs,
    streamSplitOutput (flat_map wire [hiFrame] ++ header oddFrame ++ [x68; x69; x68; x69; x68])
    = Some (cs, ReaderReturned)
    /\ stdoutBytes cs = stdoutPayload [hiFrame]
    /\ stderrBytes cs = stderrPayload [hiFrame].
Proof.
  apply (bad_frame_stops_reader [hiFrame] oddFrame [x68; x69; x68; x69; x68]).
  - repeat constructor.
  - constructor; [left; reflexivity | constructor].
  - reflexivity.
  - left. intros [H | H]; discriminate H.
Defined.

End Streams.


(** ** The process janitor *)

Section Janitor.
Import Session Proc.

Lemma insert_middle (a : list Z) (x y : Z) (r : list Z) :
  <[List.length a := y]> (a ++ x :: r)%list = (a ++ y :: r)%list.
Proof.
  replace (List.length a) with (List.length a + 0)%nat by lia.
  rewrite insert_app_r. reflexivity.
Qed.

Lemma lookup_middle (a : list Z) (x : Z) (r : list Z) :
  (a ++ x :: r)%list !! List.length a = Some x.
Proof. apply list_lookup_middle. reflexivity. Qed.

Lemma index_middle (a : list Z) (x : Z) (r : list Z) (k : Z) :
  k = Z.of_nat (List.length a) -> index (a ++ x :: r) k = Some x.
Proof.
  intros ->. unfold index.
  replace (Z.of_nat (List.length a) <? 0) with false by (symmetry; apply Z.ltb_ge; lia).
  rewrite Nat2Z.id. apply lookup_middle.
Qed.

(** The loop between two mirrored positions reverses the middle. *)
Lemma reverseLoop_middle (fuel : nat) :
  forall (a m b : list Z),
    (List.length m < fuel)%nat ->
    reverseLoop fuel (Z.of_nat (List.length a))
      (Z.of_nat (List.length a) + Z.of_nat (List.length m) - 1) (a ++ m ++ b)
    = Some (Returned (a ++ rev m ++ b)%list).
Proof.
  induction fuel as [|f IH]; intros a m b Hf; [lia|].
  cbn [reverseLoop].
  destruct m as [|x m].
  { cbn [List.length]. replace (_ <? _) with false by (symmetry; apply Z.ltb_ge; lia).
    reflexivity. }
  destruct (List.exists_last (l := x :: m) ltac:(discriminate)) as (m' & y & Hm).
  destruct m' as [|x' m'].
  { injection Hm as -> ->. cbn [List.length].
    replace (_ <? _) with false by (symmetry; apply Z.ltb_ge; lia). reflexivity. }
  injection Hm as <- ->.
  assert (List.length ((x :: m' ++ [y])%list) = S (S (List.length m'))) as Hlen
    by (cbn [List.length]; rewrite List.length_app; cbn [List.length]; lia).
  rewrite Hlen.
  replace (_ <? _) with true by (symmetry; apply Z.ltb_lt; lia).
  assert ((a ++ (x :: m' ++ [y]) ++ b)%list = ((a ++ x :: m') ++ y :: b)%list) as E1.
  { repeat first [rewrite <- List.app_assoc | progress cbn [app]]. reflexivity. }
  assert (List.length (a ++ x :: m') = S (List.length a + List.length m')) as Hl1
    by (rewrite List.length_app; cbn [List.length]; lia).
  assert (index (a ++ (x :: m' ++ [y]) ++ b)
            (Z.of_nat (List.length a) + Z.of_nat (S (S (List.length m'))) - 1) = Some y) as ->.
  { rewrite E1. apply index_middle. rewrite Hl1. lia. }
  assert (index (a ++ (x :: m' ++ [y]) ++ b) (Z.of_nat (List.length a)) = Some x) as ->.
  { apply (index_middle a x ((m' ++ [y]) ++ b)). reflexivity. }
  rewrite Nat2Z.id.
  change (a ++ (x :: m' ++ [y]) ++ b)%list with (a ++ x :: ((m' ++ [y]) ++ b))%list.
  rewrite insert_middle.
  assert ((a ++ y :: (m' ++ [y]) ++ b)%list = ((a ++ y :: m') ++ y :: b)%list) as E2.
  { repeat first [rewrite <- List.app_assoc | progress cbn [app]]. reflexivity. }
  rewrite E2.
  replace (Z.to_nat (Z.of_nat (List.length a) + Z.of_nat (S (S (List.length m'))) - 1))
    with (List.length (a ++ y :: m'))
    by (rewrite List.length_app; cbn [List.length]; lia).
  rewrite insert_middle.
  replace ((a ++ y :: m') ++ x :: b)%list with ((a ++ [y]) ++ m' ++ (x :: b))%list
    by (rewrite <- !List.app_assoc; reflexivity).
  replace (Z.of_nat (List.length a) + 1) with (Z.of_nat (List.length (a ++ [y])))
    by (rewrite List.length_app; cbn [List.length]; lia).
  replace (Z.of_nat (List.length a) + Z.of_nat (S (S (List.length m'))) - 1 - 1)
    with (Z.of_nat (List.length (a ++ [y])) + Z.of_nat (List.length m') - 1)
    by (rewrite List.length_app; cbn [List.length]; lia).
  rewrite IH by (rewrite Hlen in Hf; lia).
  f_equal. f_equal. cbn [rev]. rewrite List.rev_app_distr. cbn [rev app].
  rewrite <- !List.app_assoc. reflexivity.
Qed.

Lemma ReverseSlice_spec (slice : list Z) : ReverseSlice slice = Some (Returned (rev slice)).
Proof.
  unfold ReverseSlice.
  pose proof (reverseLoop_middle (S (List.length slice)) [] slice [] ltac:(lia)) as H.
  cbn [List.length app] in H. rewrite !List.app_nil_r in H.
  replace (Z.of_nat (List.length slice) - 1) with (0 + Z.of_nat (List.length slice) - 1) by lia.
  exact H.
Qed.

(** X16.  [ReverseSlice], which swaps the ends of the slice inwards,
    returns without an index out of range and leaves the slice in
    reversed order, for every length (empty and odd included). *)
Theorem ReverseSlice_reverses (slice : list Z) :
  ReverseSlice slice = Some (Returned (rev slice)).
Proof. apply ReverseSlice_spec. Qed.

Lemma childLoop_sound (rec : Z -> option (list Z)) (t : Z) (rest : list Process)
    (l : list Z) (d : Z) :
  childLoop rec t rest = Some l -> In d l ->
  exists p, In p rest /\ PPID p = t
            /\ (d = PID p \/ exists sub, rec (PID p) = Some sub /\ In d sub).
Proof.
  revert l. induction rest as [|p rest IH]; intros l; cbn [childLoop].
  - intros [= <-] [].
  - destruct (Z.eqb_spec (PPID p) t) as [Hp|Hp].
    + destruct (rec (PID p)) as [sub|] eqn:Er; [|discriminate].
      destruct (childLoop rec t rest) as [more|] eqn:Em; [|discriminate].
      intros [= <-] Hin. cbn [In] in Hin. destruct Hin as [<- | Hin].
      * exists p. split; [left; reflexivity|]. split; [exact Hp | left; reflexivity].
      * apply List.in_app_or in Hin as [Hin | Hin].
        -- exists p. split; [left; reflexivity|]. split; [exact Hp|]. right. eauto.
        -- destruct (IH more eq_refl Hin) as (q & Hq & Hr). exists q.
           split; [right; exact Hq | exact Hr].
    + intros Hl Hin. destruct (IH l Hl Hin) as (q & Hq & Hr). exists q.
      split; [right; exact Hq | exact Hr].
Qed.

Lemma childLoop_complete (rec : Z -> option (list Z)) (t : Z) (rest : list Process)
    (l : list Z) (p : Process) :
  childLoop rec t rest = Some l -> In p rest -> PPID p = t ->
  In (PID p) l /\ exists sub, rec (PID p) = Some sub /\ forall d, In d sub -> In d l.
Proof.
  revert l. induction rest as [|q rest IH]; intros l; cbn [childLoop]; [intros _ []|].
  destruct (Z.eqb_spec (PPID q) t) as [Hq|Hq].
  - destruct (rec (PID q)) as [sub|] eqn:Er; [|discriminate].
    destruct (childLoop rec t rest) as [more|] eqn:Em; [|discriminate].
    intros [= <-] [-> | Hin] Hp.
    + split; [left; reflexivity|]. exists sub. split; [exact Er|].
      intros d Hd. right. apply List.in_or_app. left. exact Hd.
    + destruct (IH more eq_refl Hin Hp) as (H1 & sub' & Hs & Hsub).
      split; [right; apply List.in_or_app; right; exact H1|].
      exists sub'. split; [exact Hs|]. intros d Hd. right. apply List.in_or_app. right. auto.
  - intros Hl [-> | Hin] Hp; [contradiction|]. exact (IH l Hl Hin Hp).
Qed.

Lemma childLoop_total (rec : Z -> option (list Z)) (t : Z) (rest : list Process) :
  (forall p, In p rest -> PPID p = t -> exists sub, rec (PID p) = Some sub) ->
  exists l, childLoop rec t rest = Some l.
Proof.
  induction rest as [|p rest IH]; intros H; cbn [childLoop]; [eexists; reflexivity|].
  destruct IH as [more Hm]; [intros q Hq; apply H; right; exact Hq|].
  destruct (Z.eqb_spec (PPID p) t) as [Hp|Hp].
  - destruct (H p (or_introl eq_refl) Hp) as [sub ->]. rewrite Hm. eexists; reflexivity.
  - exists more. exact Hm.
Qed.

Lemma FindChildProcesses_sound (processes : list Process) (fuel : nat) :
  forall (t : Z) (l : list Z) (d : Z),
    FindChildProcesses fuel t processes = Some l -> In d l -> descendant processes t d.
Proof.
  induction fuel as [|f IH]; intros t l d; [discriminate|].
  cbn [FindChildProcesses]. intros Hl Hin.
  destruct (childLoop_sound _ _ _ _ _ Hl Hin) as (p & Hp & Ht & [-> | (sub & Hs & Hd)]).
  - apply desc_child; assumption.
  - apply (desc_step processes t p d Hp Ht). exact (IH _ _ _ Hs Hd).
Qed.

Lemma FindChildProcesses_complete (processes : list Process) (t d : Z) :
  descendant processes t d ->
  forall (fuel : nat) (l : list Z),
    FindChildProcesses fuel t processes = Some l -> In d l.
Proof.
  induction 1 as [t p Hp Ht|t p d Hp Ht Hd IH]; intros [|f] l; try discriminate;
    cbn [FindChildProcesses]; intros Hl.
  - exact (proj1 (childLoop_complete _ _ _ _ _ Hl Hp Ht)).
  - destruct (childLoop_complete _ _ _ _ _ Hl Hp Ht) as (_ & sub & Hs & Hsub).
    apply Hsub. exact (IH f sub Hs).
Qed.

Lemma FindChildProcesses_total (rank : Z -> nat) (processes : list Process) :
  ranked rank processes ->
  forall (fuel : nat) (t : Z),
    (rank t < fuel)%nat -> exists l, FindChildProcesses fuel t processes = Some l.
Proof.
  intros Hr. induction fuel as [|f IH]; intros t Hf; [lia|].
  cbn [FindChildProcesses]. apply childLoop_total.
  intros p Hp Ht. apply IH. specialize (Hr p Hp). rewrite Ht in Hr. lia.
Qed.

Lemma descendant_rank (rank : Z -> nat) (processes : list Process) (t d : Z) :
  ranked rank processes -> descendant processes t d -> (rank d < rank t)%nat.
Proof.
  intros Hr. induction 1 as [t p Hp Ht|t p d Hp Ht Hd IH].
  - specialize (Hr p Hp). rewrite Ht in Hr. exact Hr.
  - specialize (Hr p Hp). rewrite Ht in Hr. lia.
Qed.

(** X17.  On a process table without a cycle (a measure drops from
    every parent to its child), [FindChildProcesses] returns once the
    recursion may go deeper than the measure of the target, and the
    pids it returns are exactly the descendants of the target: the
    children and their descendants, never the target itself. *)
Theorem FindChildProcesses_descendants (rank : Z -> nat) (processes : list Process)
    (fuel : nat) (t : Z) :
  ranked rank processes ->
  (rank t < fuel)%nat ->
  exists l,
    FindChildProcesses fuel t processes = Some l
    /\ (forall d, In d l <-> descendant processes t d)
    /\ ~ In t l.
Proof.
  intros Hr Hf. destruct (FindChildProcesses_total rank processes Hr fuel t Hf) as [l Hl].
  exists l. split; [exact Hl|]. split.
  - intros d. split.
    + apply (FindChildProcesses_sound processes fuel t l d Hl).
    + intros Hd. exact (FindChildProcesses_complete processes t d Hd fuel l Hl).
  - intros Hin. apply (FindChildProcesses_sound processes fuel t l t Hl) in Hin.
    apply (descendant_rank rank processes t t Hr) in Hin. lia.
Qed.

Lemma table_ranked : ranked tableRank table.
Proof.
  intros p Hp. unfold table in Hp. cbn [In] in Hp.
  repeat (destruct Hp as [<- | Hp]; [vm_compute; lia|]). destruct Hp.
Qed.

Lemma FindChildProcesses_descendants_witness :
  exists l,
    FindChildProcesses 61 40 table = Some l
    /\ (forall d, In d l <-> descendant table 40 d)
    /\ ~ In 40 l.
Proof.
  apply (FindChildProcesses_descendants tableRank table 61 40).
  - exact table_ranked.
  - vm_compute. lia.
Defined.

(** X18.  [KillProcessGroup] on a live parent whose command line has
    the sentinel as one of its NUL-separated arguments (or with an
    empty sentinel), over a process table without a cycle: it returns
    nil, and [KillProcess] is called on every descendant of the
    parent and on nothing else; the parent itself is not signalled.
    With [inverted] the calls go in the reverse of the order in which
    [FindChildProcesses] lists them. *)
Theorem KillProcessGroup_signals_descendants (rank : Z -> nat) (fuel : nat) (parentPID : Z)
    (commandLine : string) (inverted : bool) (os : OS) (data : string)
    (processes : list Process) :
  findProcessErr os = None ->
  probeErr os = None ->
  cmdlineData os = inr data ->
  commandLine = EmptyString
    \/ Contains (GoStrings.SplitChar data Ascii.zero) commandLine = true ->
  processTable os = inr processes ->
  ranked rank processes ->
  (rank parentPID < fuel)%nat ->
  exists found,
    FindChildProcesses fuel parentPID processes = Some found
    /\ KillProcessGroup fuel parentPID commandLine inverted os
       = Some (Returned (if inverted then rev found else found, None))
    /\ (forall d, In d (if inverted then rev found else found)
                  <-> descendant processes parentPID d)
    /\ ~ In parentPID found.
Proof.
  intros Hfp Hpr Hcd Hguard Hpt Hr Hf.
  destruct (FindChildProcesses_total rank processes Hr fuel parentPID Hf) as [l Hl].
  exists l. split; [exact Hl|]. split; [|split].
  - unfold KillProcessGroup, GetProcessCmdLineByPID. rewrite Hfp, Hpr, Hcd, Hpt, Hl.
    assert (negb (String.eqb commandLine EmptyString)
            && negb (Contains (GoStrings.SplitChar data Ascii.zero) commandLine) = false)
      as ->.
    { destruct Hguard as [-> | ->]; [reflexivity | apply andb_false_r]. }
    destruct inverted; [rewrite ReverseSlice_spec|]; reflexivity.
  - intros d. assert (In d l <-> descendant processes parentPID d) as Hiff.
    { split.
      - apply (FindChildProcesses_sound processes fuel parentPID l d Hl).
      - intros Hd. exact (FindChildProcesses_complete processes parentPID d Hd fuel l Hl). }
    destruct inverted; [rewrite <- List.in_rev|]; exact Hiff.
  - intros Hin. apply (FindChildProcesses_sound processes fuel parentPID l parentPID Hl) in Hin.
    apply (descendant_rank rank processes parentPID parentPID Hr) in Hin. lia.
Qed.

Lemma KillProcessGroup_signals_descendants_witness :
  exists found,
    FindChildProcesses 61 40 table = Some found
    /\ KillProcessGroup 61 40 "/superman.sh" true osOK
       = Some (Returned (rev found, None))
    /\ (forall d, In d (rev found) <-> descendant table 40 d)
    /\ ~ In 40 found.
Proof.
  apply (KillProcessGroup_signals_descendants tableRank 61 40 "/superman.sh" true osOK
           ("/bin/sh" +:+ String Ascii.zero ("/superman.sh" +:+ String Ascii.zero ""))
           table).
  - reflexivity.
  - reflexivity.
  - reflexivity.
  - right. reflexivity.
  - reflexivity.
  - exact table_ranked.
  - vm_compute. lia.
Defined.

(** X19.  The command-line guard of the sidecar cleanup spares the
    children only.  When the pid that the runtime reports for the
    sidecar is alive but none of its arguments is "/superman.sh",
    [cleanLegacyProcess] of a sidecar session signals no child, and
    still calls [KillProcess] on that pid and returns its result.  An
    exec session signals nothing. *)
Theorem cleanLegacyProcess_guard (fuel : nat) (pid : Z) (os : OS) (data : string)
    (killErr : option string) :
  findProcessErr os = None ->
  probeErr os = None ->
  cmdlineData os = inr data ->
  Contains (GoStrings.SplitChar data Ascii.zero) "/superman.sh" = false ->
  cleanLegacyProcess fuel false (inr pid) os killErr = Some (Returned ([pid], killErr))
  /\ cleanLegacyProcess fuel true (inr pid) os killErr = Some (Returned ([], None)).
Proof.
  intros Hfp Hpr Hcd Hg. split; [|reflexivity].
  unfold cleanLegacyProcess, KillProcessGroup, GetProcessCmdLineByPID.
  rewrite Hfp, Hpr, Hcd, Hg. reflexivity.
Qed.

Lemma cleanLegacyProcess_guard_witness :
  cleanLegacyProcess 61 false (inr 40) osReused None = Some (Returned ([40], None))
  /\ cleanLegacyProcess 61 true (inr 40) osReused None = Some (Returned ([], None)).
Proof.
  apply (cleanLegacyProcess_guard 61 40 osReused
           ("/usr/sbin/sshd" +:+ String Ascii.zero ("-D" +:+ String Ascii.zero ""))
           None).
  - reflexivity.
  - reflexivity.
  - reflexivity.
  - reflexivity.
Defined.

End Janitor.


(** ** The agent's key in authorized_keys *)

Section AuthorizedKeys.
Import GoStrings Sessionutil Session Passwd SshKeys.

Lemma sapp_assoc (a b c : string) : (a +:+ b) +:+ c = a +:+ (b +:+ c).
Proof.
  induction a as [|x a IH]; [reflexivity|]. rewrite !append_cons, IH. reflexivity.
Qed.

Lemma sapp_nil_r (a : string) : a +:+ EmptyString = a.
Proof. induction a as [|x a IH]; [reflexivity|]. rewrite append_cons, IH. reflexivity. Qed.

Lemma joined_cons (l : string) (ls : list string) : joined (l :: ls) = l +:+ joined ls.
Proof. reflexivity. Qed.

Lemma joined_app (a b : list string) : joined (a ++ b) = joined a +:+ joined b.
Proof.
  induction a as [|l a IH]; [reflexivity|].
  cbn [app]. rewrite !joined_cons, IH, sapp_assoc. reflexivity.
Qed.

Lemma readLines_cons (c : ascii) (s : string) :
  readLines (String c s)
  = if Ascii.eqb c nl then (String c EmptyString :: fst (readLines s), snd (readLines s))
    else match fst (readLines s) with
         | [] => ([], String c (snd (readLines s)))
         | l :: ls' => (String c l :: ls', snd (readLines s))
         end.
Proof. cbn [readLines]. destruct (readLines s) as [ls rest]. reflexivity. Qed.

Lemma readLines_proper (content : string) : Forall properLine (fst (readLines content)).
Proof.
  induction content as [|c s IH]; [constructor|].
  rewrite readLines_cons. destruct (Ascii.eqb_spec c nl) as [->|Hc].
  - cbn [fst]. constructor; [|exact IH]. exists EmptyString. split; reflexivity.
  - destruct (fst (readLines s)) as [|l ls]; [constructor|].
    cbn [fst]. inversion IH as [|? ? (b & Hb & ->) Hls]; subst.
    constructor; [|exact Hls]. exists (String c b). split; [|reflexivity].
    rewrite hasChar_cons, Hb, Ascii.eqb_sym.
    destruct (Ascii.eqb_spec c nl); [contradiction | reflexivity].
Qed.

Lemma readLines_parts (content : string) :
  content = terminated content +:+ snd (readLines content).
Proof.
  unfold terminated. induction content as [|c s IH]; [reflexivity|].
  rewrite readLines_cons. destruct (Ascii.eqb c nl).
  - cbn [fst snd]. rewrite joined_cons, sapp_assoc, append_cons, append_nil, <- IH.
    reflexivity.
  - destruct (fst (readLines s)) as [|l ls]; cbn [fst snd].
    + cbn [joined fold_right] in *. rewrite append_nil in *. congruence.
    + rewrite joined_cons in *. rewrite !append_cons. congruence.
Qed.

Lemma readLines_rest (content : string) : hasChar nl (snd (readLines content)) = false.
Proof.
  induction content as [|c s IH]; [reflexivity|].
  rewrite readLines_cons. destruct (Ascii.eqb_spec c nl) as [->|Hc]; [exact IH|].
  destruct (fst (readLines s)); cbn [snd]; [|exact IH].
  rewrite hasChar_cons, IH, Ascii.eqb_sym.
  destruct (Ascii.eqb_spec c nl); [contradiction | reflexivity].
Qed.

(** A line and what follows it are read apart. *)
Lemma readLines_line (b rest : string) :
  hasChar nl b = false ->
  readLines ((b +:+ String nl EmptyString) +:+ rest)
  = ((b +:+ String nl EmptyString) :: fst (readLines rest), snd (readLines rest)).
Proof.
  intros Hb. induction b as [|c b IH].
  - rewrite !append_nil, append_cons, append_nil, readLines_cons, Ascii.eqb_refl.
    reflexivity.
  - rewrite hasChar_cons in Hb. apply orb_false_elim in Hb as [Hc Hb].
    rewrite !append_cons, readLines_cons, (IH Hb), Ascii.eqb_sym, Hc. reflexivity.
Qed.

Lemma readLines_joined (lines : list string) (rest : string) :
  Forall properLine lines ->
  readLines (joined lines +:+ rest)
  = ((lines ++ fst (readLines rest))%list, snd (readLines rest)).
Proof.
  induction 1 as [|l ls (b & Hb & ->) _ IH].
  - cbn [joined fold_right app]. rewrite append_nil. destruct (readLines rest); reflexivity.
  - rewrite joined_cons, sapp_assoc, (readLines_line b _ Hb), IH. reflexivity.
Qed.

Lemma substring_split (s : string) (m : nat) :
  (m <= String.length s)%nat ->
  s = String.substring 0 m s +:+ String.substring m (String.length s - m) s.
Proof.
  revert m. induction s as [|c s IH]; intros [|m] Hm; cbn [String.length] in *; try lia.
  - reflexivity.
  - cbn [String.substring Nat.sub]. rewrite append_nil, substring_all. reflexivity.
  - cbn [String.substring Nat.sub]. rewrite append_cons. f_equal. apply IH. lia.
Qed.

Lemma suffix_split (s suf : string) :
  HasSuffix s suf = true -> exists p, s = p +:+ suf.
Proof.
  unfold HasSuffix. intros H. apply andb_prop in H as [Hk He].
  apply Nat.leb_le in Hk. apply String.eqb_eq in He.
  exists (String.substring 0 (String.length s - String.length suf) s).
  rewrite <- He at 2.
  replace (String.length suf)
    with (String.length s - (String.length s - String.length suf))%nat at 3 by lia.
  apply substring_split. lia.
Qed.

Lemma last_char (p q : string) (c d : ascii) :
  p +:+ String c EmptyString = q +:+ String d EmptyString -> c = d.
Proof.
  revert q. induction p as [|x p IH]; intros [|y q]; rewrite ?append_cons, ?append_nil.
  - congruence.
  - intros [= _ H]. destruct q; discriminate H.
  - intros [= _ H]. destruct p; discriminate H.
  - intros [= _ H]. exact (IH q H).
Qed.

(** No line that is read ends in the marker: it ends in a newline. *)
Lemma properLine_kept (line : string) :
  properLine line -> HasSuffix line "trust-tunnel-agent" = false.
Proof.
  intros (b & _ & ->). destruct (HasSuffix _ _) eqn:E; [|reflexivity].
  apply suffix_split in E as [p E].
  change "trust-tunnel-agent" with ("trust-tunnel-agen" +:+ String "t" EmptyString) in E.
  rewrite <- sapp_assoc in E. apply last_char in E. discriminate E.
Qed.

Lemma scanKeys_absent (keyStr : string) (lines : list string) :
  Forall properLine lines ->
  existsb (fun line => Contains line keyStr) lines = false ->
  forall acc, scanKeys keyStr lines acc = (false, acc +:+ joined lines).
Proof.
  induction 1 as [|l ls Hl _ IH]; intros He acc.
  - cbn [scanKeys joined fold_right]. rewrite sapp_nil_r. reflexivity.
  - cbn [existsb] in He. apply orb_false_elim in He as [Hc He].
    cbn [scanKeys]. rewrite Hc, (properLine_kept l Hl). cbn [negb].
    rewrite (IH He), joined_cons, sapp_assoc. reflexivity.
Qed.

Lemma scanKeys_found (keyStr : string) (pre : list string) (l : string) (post : list string) :
  Forall properLine pre ->
  existsb (fun line => Contains line keyStr) pre = false ->
  Contains l keyStr = true ->
  forall acc, scanKeys keyStr (pre ++ l :: post) acc = (true, acc +:+ joined pre).
Proof.
  induction 1 as [|x xs Hx _ IH]; intros He Hl acc.
  - cbn [app scanKeys joined fold_right]. rewrite Hl, sapp_nil_r. reflexivity.
  - cbn [existsb] in He. apply orb_false_elim in He as [Hc He].
    cbn [app scanKeys]. rewrite Hc, (properLine_kept x Hx). cbn [negb].
    rewrite (IH He Hl), joined_cons, sapp_assoc. reflexivity.
Qed.

Lemma scanKeys_flag (keyStr : string) (lines : list string) (acc : string) :
  fst (scanKeys keyStr lines acc) = existsb (fun line => Contains line keyStr) lines.
Proof.
  revert acc. induction lines as [|l ls IH]; intros acc; [reflexivity|].
  cbn [scanKeys existsb]. destruct (Contains l keyStr); [reflexivity|].
  cbn [orb]. destruct (negb _); apply IH.
Qed.

Lemma add_absent (key keyStr content : string) :
  keyAbsent keyStr content = true ->
  addPublicKeyToAuthorizedKeys key keyStr (inr content)
  = inr (false, terminated content +:+ key).
Proof.
  unfold keyAbsent, addPublicKeyToAuthorizedKeys. intros H. apply negb_true_iff in H.
  rewrite (scanKeys_absent keyStr _ (readLines_proper content) H). cbn [negb].
  rewrite append_nil. reflexivity.
Qed.

(** X20.  When no line read from authorized_keys contains the key,
    the new content is every newline-terminated line of the file, in
    order, followed by the key: no line is left out, the lines that
    end in the marker of the agent included, since a line is read
    with its newline; what follows the last newline of the file is
    not taken over. *)
Theorem authorized_keys_rewritten (key keyStr content : string) :
  keyAbsent keyStr content = true ->
  addPublicKeyToAuthorizedKeys key keyStr (inr content)
  = inr (false, terminated content +:+ key)
  /\ content = terminated content +:+ snd (readLines content)
  /\ hasChar nl (snd (readLines content)) = false.
Proof.
  intros H. split; [exact (add_absent key keyStr content H)|].
  split; [apply readLines_parts | apply readLines_rest].
Qed.

Lemma authorized_keys_rewritten_witness :
  addPublicKeyToAuthorizedKeys agentKey agentKey (inr userKeys)
  = inr (false, terminated userKeys +:+ agentKey)
  /\ userKeys = terminated userKeys +:+ snd (readLines userKeys)
  /\ hasChar nl (snd (readLines userKeys)) = false.
Proof.
  apply (authorized_keys_rewritten agentKey agentKey userKeys). reflexivity.
Defined.

Lemma prefix_refl (s : string) : String.prefix s s = true.
Proof.
  induction s as [|c s IH]; [reflexivity|]. cbn [String.prefix].
  destruct (ascii_dec c c); [exact IH | contradiction].
Qed.

Lemma Contains_refl (s : string) : Contains s s = true.
Proof. destruct s; cbn [Contains]; rewrite prefix_refl; reflexivity. Qed.

(** After an insertion that wrote the file, the next one finds the
    key or writes the same content. *)
Lemma add_after_add (key content nc : string) :
  oneLine key ->
  addPublicKeyToAuthorizedKeys key key (inr content) = inr (false, nc) ->
  (exists x, addPublicKeyToAuthorizedKeys key key (inr nc) = inr (true, x))
  \/ addPublicKeyToAuthorizedKeys key key (inr nc) = inr (false, nc).
Proof.
  intros (k & Hk & Hkey) H.
  assert (keyAbsent key content = true) as Ha.
  { unfold keyAbsent. rewrite <- (scanKeys_flag key _ EmptyString).
    unfold addPublicKeyToAuthorizedKeys in H.
    destruct (scanKeys key (fst (readLines content)) EmptyString) as [found c0].
    destruct found; cbn [negb] in H; [discriminate H | reflexivity]. }
  rewrite (add_absent key key content Ha) in H. injection H as <-.
  pose proof (readLines_proper content) as Hp.
  unfold keyAbsent in Ha. apply negb_true_iff in Ha.
  unfold terminated. destruct Hkey as [-> | ->].
  - right. unfold addPublicKeyToAuthorizedKeys.
    rewrite (readLines_joined _ k Hp), (readLines_no_newline k Hk). cbn [fst].
    rewrite List.app_nil_r, (scanKeys_absent _ _ Hp Ha). cbn [negb].
    rewrite append_nil. reflexivity.
  - left. unfold addPublicKeyToAuthorizedKeys.
    rewrite <- (sapp_nil_r (joined _ +:+ _)), sapp_assoc.
    rewrite (readLines_joined _ _ Hp), (readLines_line k EmptyString Hk). cbn [fst readLines].
    rewrite (scanKeys_found _ _ _ [] Hp Ha (Contains_refl _)). cbn [negb].
    eexists. reflexivity.
Qed.

(** X21.  Putting the agent's key in twice changes nothing more.
    For a key of one line: when [insertPubKeyOnHost] returns nil, a
    second call on the file as the first one left it returns nil as
    well and leaves the file with the same content. *)
Theorem insertPubKeyOnHost_twice (username rootfsPrefix : string) (passwd : option string)
    (os : OS) (key content : string) (written : option string) :
  publicKey os = inr key ->
  oneLine key ->
  authorizedKeys os = inr content ->
  insertPubKeyOnHost username rootfsPrefix passwd os = (written, None) ->
  exists written',
    insertPubKeyOnHost username rootfsPrefix passwd
      (withAuthorizedKeys os (default content written)) = (written', None)
    /\ default (default content written) written' = default content written.
Proof.
  intros Hpk Hone Hak. unfold insertPubKeyOnHost.
  change (publicKey (withAuthorizedKeys os (default content written))) with (publicKey os).
  change (createSSHDirAndAuthorizedKeysFile (withAuthorizedKeys os (default content written)))
    with (createSSHDirAndAuthorizedKeysFile os).
  change (writeErr (withAuthorizedKeys os (default content written))) with (writeErr os).
  change (authorizedKeys (withAuthorizedKeys os (default content written)))
    with (@inr string string (default content written)).
  rewrite Hpk, Hak.
  destruct (GetLoginDirAndIDs username passwd rootfsPrefix) as [e|ids]; [discriminate|].
  destruct (createSSHDirAndAuthorizedKeysFile os); [discriminate|].
  destruct (addPublicKeyToAuthorizedKeys key key (inr content)) as [e|[found nc]] eqn:E1;
    [discriminate|].
  destruct found; cbn [negb].
  - intros [= <-]. cbn [default from_option id]. rewrite E1. exists None. split; reflexivity.
  - destruct (writeErr os); [discriminate|]. intros [= <-]. cbn [default from_option id].
    destruct (add_after_add key content nc Hone E1) as [[x ->] | ->]; cbn [negb].
    + exists None. split; reflexivity.
    + exists (Some nc). split; reflexivity.
Qed.

Lemma insertPubKeyOnHost_twice_witness :
  exists written',
    insertPubKeyOnHost "app" "/rootfs" (Some Scenario.passwdFile)
      (withAuthorizedKeys osKeys
         (default userKeys (Some (terminated userKeys +:+ agentKey))))
    = (written', None)
    /\ default (default userKeys (Some (terminated userKeys +:+ agentKey))) written'
       = default userKeys (Some (terminated userKeys +:+ agentKey)).
Proof.
  apply (insertPubKeyOnHost_twice "app" "/rootfs" (Some Scenario.passwdFile) osKeys
           agentKey userKeys (Some (terminated userKeys +:+ agentKey))).
  - reflexivity.
  - exists "ssh-rsa AAAAB3Nza trust-tunnel-agent". split; [reflexivity | right; reflexivity].
  - reflexivity.
  - reflexivity.
Defined.

Lemma Contains_app_r (a b p : string) : Contains b p = true -> Contains (a +:+ b) p = true.
Proof.
  intros H. induction a as [|c a IH]; [exact H|].
  rewrite append_cons. cbn [Contains]. rewrite IH. destruct (String.prefix _ _); reflexivity.
Qed.

Lemma prefix_Contains (p s : string) : String.prefix p s = true -> Contains s p = true.
Proof. intros H. destruct s; cbn [Contains]; rewrite H; reflexivity. Qed.

(** A pattern with a space in it, against a text without one that
    is followed by a space. *)
Lemma prefix_spacefree (pre post n rest : string) :
  hasChar " " pre = false ->
  hasChar " " n = false ->
  String.prefix (String " " post) (String " " rest) = false ->
  String.prefix (pre +:+ String " " post) (n +:+ String " " rest) = false.
Proof.
  intros Hpre Hn Hpost. revert n Hn. induction pre as [|p pre IH]; intros n Hn.
  - rewrite append_nil. destruct n as [|c n]; [exact Hpost|].
    rewrite append_cons. rewrite hasChar_cons in Hn. apply orb_false_elim in Hn as [Hc _].
    cbn [String.prefix]. destruct (ascii_dec " " c) as [<-|]; [discriminate Hc | reflexivity].
  - rewrite hasChar_cons in Hpre. apply orb_false_elim in Hpre as [Hp Hpre].
    destruct n as [|c n].
    + rewrite append_nil, append_cons. cbn [String.prefix].
      destruct (ascii_dec p " ") as [->|]; [discriminate Hp | reflexivity].
    + rewrite !append_cons. rewrite hasChar_cons in Hn.
      apply orb_false_elim in Hn as [_ Hn].
      cbn [String.prefix]. destruct (ascii_dec p c); [apply (IH Hpre); exact Hn | reflexivity].
Qed.

Lemma Contains_spacefree (pat pre post n rest : string) :
  pat = pre +:+ String " " post ->
  hasChar " " pre = false ->
  hasChar " " n = false ->
  String.prefix (String " " post) (String " " rest) = false ->
  Contains (String " " rest) pat = false ->
  Contains (n +:+ String " " rest) pat = false.
Proof.
  intros -> Hpre Hn Hpost Hrest. induction n as [|c n IH]; [exact Hrest|].
  pose proof (prefix_spacefree pre post (String c n) rest Hpre Hn Hpost) as Hp.
  rewrite append_cons in *. cbn [Contains]. rewrite Hp.
  rewrite hasChar_cons in Hn. apply orb_false_elim in Hn as [_ Hn]. exact (IH Hn).
Qed.

(** The text of the refusal of a login name without spaces is
    classified [MA_525], before the wrapper of the key insertion. *)
Lemma refused_login_code (name : string) :
  hasChar " " name = false ->
  errorCode ("SSH public key insert error: "
             +:+ ("username " +:+ name +:+ " is not permitted to login on host"))
  = "MA_525".
Proof.
  intros Hn.
  assert (forall pat pre post,
             pat = pre +:+ String " " post ->
             hasChar " " pre = false ->
             String.prefix (String " " post) " is not permitted to login on host" = false ->
             Contains " is not permitted to login on host" pat = false ->
             Contains (name +:+ " is not permitted to login on host") pat = false) as Hc.
  { intros pat pre post Hpat Hpre H1 H2.
    exact (Contains_spacefree pat pre post name _ Hpat Hpre Hn H1 H2). }
  assert (Contains (name +:+ " is not permitted to login on host")
            "is not permitted to login on host" = true) as Hyes
    by (apply Contains_app_r; reflexivity).
  unfold errorCode.
  set (tail := name +:+ " is not permitted to login on host") in *.
  let t := eval cbv [String.append] in
    ("SSH public key insert error: " +:+ ("username " +:+ tail)) in
  change ("SSH public key insert error: " +:+ ("username " +:+ tail)) with t.
  simpl.
  rewrite (Hc "no space left on device" "no" "space left on device") by reflexivity.
  rewrite (Hc "visit authorization server failed" "visit" "authorization server failed")
    by reflexivity.
  rewrite (Hc "verify client certificate error" "verify" "client certificate error")
    by reflexivity.
  rewrite (Hc "current sidecar num exceed the limit" "current" "sidecar num exceed the limit")
    by reflexivity.
  rewrite (Hc "can't find container" "can't" "find container") by reflexivity.
  rewrite (Hc "container is not running" "container" "is not running") by reflexivity.
  rewrite (Hc "docker daemon is unavailable" "docker" "daemon is unavailable") by reflexivity.
  rewrite Hyes. reflexivity.
Qed.

(** X22.  A host session over SSH for a login name (without spaces)
    that has no passwd entry passing the shell test is refused when
    the key is put in: the error is "SSH public key insert error:
    username <name> is not permitted to login on host", and the
    taxonomy classifies it MA_525, not MA_528. *)
Theorem ssh_login_refused (config : Config) (content key : string) (os : OS)
    (rest : string + SshSession.t) :
  publicKey os = inr key ->
  hasChar " " (LoginName config) = false ->
  Forall (fun line => refused line = true) (entriesOf (LoginName config) content) ->
  establishSSHSession config (Some content) os rest
  = inl ("SSH public key insert error: "
         +:+ ("username " +:+ LoginName config +:+ " is not permitted to login on host"))
  /\ errorCode ("SSH public key insert error: "
                +:+ ("username " +:+ LoginName config
                     +:+ " is not permitted to login on host"))
     = "MA_525".
Proof.
  intros Hpk Hsp Href. split; [|exact (refused_login_code _ Hsp)].
  unfold establishSSHSession, insertPubKeyOnHost, GetLoginDirAndIDs, findUser.
  rewrite Hpk, (scanPasswd_refused _ _ Href). reflexivity.
Qed.

Lemma ssh_login_refused_witness :
  establishSSHSession (Backend.sessConfOf Scenario.h0 (Scenario.hostRequest "daemon"))
    (Some Scenario.passwdFile) osKeys (inr Scenario.sshStub)
  = inl ("SSH public key insert error: "
         +:+ ("username " +:+ "daemon" +:+ " is not permitted to login on host"))
  /\ errorCode ("SSH public key insert error: "
                +:+ ("username " +:+ "daemon" +:+ " is not permitted to login on host"))
     = "MA_525".
Proof.
  apply (ssh_login_refused (Backend.sessConfOf Scenario.h0 (Scenario.hostRequest "daemon"))
           Scenario.passwdFile agentKey osKeys (inr Scenario.sshStub)).
  - reflexivity.
  - reflexivity.
  - vm_compute. repeat constructor.
Defined.

End AuthorizedKeys.


(** ** From the client to the agent *)

Section NumberText.
Import GoStrings Strconv.

Lemma digitVal_digit (d : Z) : 0 <= d < 10 -> digitVal (digit d) = d.
Proof.
  intros H.
  assert (d = 0 \/ d = 1 \/ d = 2 \/ d = 3 \/ d = 4 \/ d = 5 \/ d = 6
          \/ d = 7 \/ d = 8 \/ d = 9) as Hd by lia.
  repeat (destruct Hd as [->|Hd]; [reflexivity|]). subst. reflexivity.
Qed.

Lemma parseDigits_digit (d : Z) (s : string) (a : Z) :
  0 <= d < 10 -> parseDigits (String (digit d) s) a = parseDigits s (a * 10 + d).
Proof.
  intros H. cbn [parseDigits]. rewrite (digit_isDigit d H), (digitVal_digit d H). reflexivity.
Qed.

(** Reading back what [%d] has printed. *)
Lemma parseDigits_digits (fuel : nat) :
  forall (n : Z) (acc : string) (a : Z),
    0 <= n < 10 ^ Z.of_nat fuel ->
    exists k, 0 <= k /\ parseDigits (digits fuel n acc) a = parseDigits acc (a * 10 ^ k + n).
Proof.
  induction fuel as [|f IH]; intros n acc a Hn.
  - exists 0. split; [lia|]. cbn [digits]. f_equal. change (10 ^ Z.of_nat 0) with 1 in Hn. lia.
  - cbn [digits]. destruct (Z.ltb_spec n 10) as [Hlt|Hge].
    + exists 1. split; [lia|]. rewrite parseDigits_digit by (rewrite Z.mod_small; lia).
      rewrite Z.mod_small by lia. f_equal.
    + rewrite Nat2Z.inj_succ, Z.pow_succ_r in Hn by lia.
      destruct (IH (n / 10) (String (digit (n mod 10)) acc) a) as (k & Hk & E).
      { split; [apply Z.div_pos; lia | apply Z.div_lt_upper_bound; lia]. }
      exists (k + 1). split; [lia|]. rewrite E.
      rewrite parseDigits_digit by (apply Z.mod_pos_bound; lia).
      f_equal. rewrite Z.pow_add_r by lia. pose proof (Z.div_mod n 10 ltac:(lia)). lia.
Qed.

Lemma digits_head (fuel : nat) :
  forall (n : Z) (acc : string),
    exists c rest, digits (S fuel) n acc = String c rest /\ isDigit c = true.
Proof.
  induction fuel as [|f IH]; intros n acc.
  - cbn [digits]. exists (digit (n mod 10)), acc.
    split; [destruct (n <? 10); reflexivity|]. apply digit_isDigit, Z.mod_pos_bound. lia.
  - change (digits (S (S f)) n acc)
      with (if n <? 10 then String (digit (n mod 10)) acc
            else digits (S f) (n / 10) (String (digit (n mod 10)) acc)).
    destruct (n <? 10); [|apply IH].
    exists (digit (n mod 10)), acc. split; [reflexivity|].
    apply digit_isDigit, Z.mod_pos_bound. lia.
Qed.

Lemma digits_length (fuel : nat) :
  forall (n : Z) (acc : string),
    (String.length (digits fuel n acc) <= fuel + String.length acc)%nat.
Proof.
  induction fuel as [|f IH]; intros n acc; cbn [digits]; [lia|].
  destruct (n <? 10); [cbn [String.length]; lia|].
  specialize (IH (n / 10) (String (digit (n mod 10)) acc)). cbn [String.length] in IH. lia.
Qed.

Lemma FormatInt_length (n : Z) : (String.length (FormatInt n) <= 21)%nat.
Proof.
  unfold FormatInt. destruct (n <? 0); cbn [String.length].
  - pose proof (digits_length 20 (- n) EmptyString). cbn [String.length] in *. lia.
  - pose proof (digits_length 20 n EmptyString). cbn [String.length] in *. lia.
Qed.

Lemma parse_printed (n : Z) :
  0 <= n < 10 ^ 20 -> parseDigits (digits 20 n EmptyString) 0 = Some n.
Proof.
  intros H. destruct (parseDigits_digits 20 n EmptyString 0 H) as (k & _ & ->).
  cbn [parseDigits]. f_equal.
Qed.

(** [Atoi] reads back what [%d] prints of an [int]. *)
Lemma Atoi_FormatInt (n : Z) :
  - 2 ^ 63 <= n < 2 ^ 63 -> Atoi (FormatInt n) = (n, true).
Proof.
  intros Hn. unfold FormatInt. destruct (Z.ltb_spec n 0) as [Hneg|Hpos].
  - unfold Atoi. change (Ascii.eqb "-" "-") with true. cbn [orb].
    destruct (digits_head 19 (- n) EmptyString) as (c & rest & E & _).
    rewrite parse_printed by lia. rewrite E.
    replace (- n >? 2 ^ 63) with false
      by (symmetry; rewrite Z.gtb_ltb; apply Z.ltb_ge; lia).
    f_equal. lia.
  - destruct (digits_head 19 n EmptyString) as (c & rest & E & Hc).
    pose proof (parse_printed n ltac:(lia)) as Hp. rewrite E in *.
    unfold Atoi.
    assert (Ascii.eqb c "-" = false) as ->.
    { destruct (Ascii.eqb_spec c "-") as [->|]; [discriminate Hc | reflexivity]. }
    assert (Ascii.eqb c "+" = false) as ->.
    { destruct (Ascii.eqb_spec c "+") as [->|]; [discriminate Hc | reflexivity]. }
    cbn [orb]. rewrite Hp.
    replace (n >=? 2 ^ 63) with false
      by (symmetry; rewrite Z.geb_leb; apply Z.leb_gt; lia).
    reflexivity.
Qed.

End NumberText.

Section ClientToAgent.
Import GoStrings Strconv Client ClientSide Backend.

Variable EncodeToString : string -> string.
Variable DecodeString : string -> option string.
Variable FormatFloat : Request.float64 -> string.
Variable ParseFloat : string -> option Request.float64.

Lemma decodeAll_map (l : list string) :
  (forall s, DecodeString (EncodeToString s) = Some s) ->
  Request.decodeAll DecodeString (map EncodeToString l) = Request.Ok l.
Proof.
  intros H. induction l as [|x l IH]; [reflexivity|].
  cbn [map Request.decodeAll]. rewrite H, IH. reflexivity.
Qed.

Lemma ParseBool_FormatBool (b : bool) : ParseBool (FormatBool b) = (b, true).
Proof. destruct b; reflexivity. Qed.

Lemma length_zero (s : string) : (0 <? String.length s)%nat = false -> s = EmptyString.
Proof. destruct s; [reflexivity | discriminate]. Qed.

(** X23.  The request that the client builds is read back by the
    agent field by field.  With the library pairs undoing each other
    (base64 decode after encode, ParseFloat after FormatFloat) and a
    command of at least one element, [GetRequestInfo] on the headers
    of [start] returns the session id, the addresses, the names, the
    flags, the command, the limits and the clean-mode flag of the
    client, with the command marked as base64; the target is physical
    for the client type 0 and container for every other one, and the
    pod and container fields arrive for a container target only.
    With an empty command the agent answers "request error: no
    command". *)
Theorem client_request_read_back (c : Client) :
  (forall s, DecodeString (EncodeToString s) = Some s) ->
  ParseFloat (FormatFloat (Cpus c)) = Some (Cpus c) ->
  - 2 ^ 63 <= MemoryMB c < 2 ^ 63 ->
  Request.GetRequestInfo ParseFloat DecodeString (startHeader EncodeToString FormatFloat c)
  = match Command c with
    | [] => Request.Err "request error: no command"
    | _ => Request.Ok (infoOf c)
    end.
Proof.
  intros Hb64 Hfloat Hmem.
  pose proof (decodeAll_map (Command c) Hb64) as Hdec.
  pose proof (Atoi_FormatInt (MemoryMB c) Hmem) as Hatoi.
  pose proof (ParseBool_FormatBool (Interactive c)) as Hi.
  pose proof (ParseBool_FormatBool (Tty c)) as Ht.
  unfold Request.GetRequestInfo, Request.parseTargetType, Request.parseContainer,
    Request.parseBoolHeader, Request.parseCommand, Request.parseCpus, Request.parseMemory,
    Request.parseDisableCleanMode, infoOf, startHeader, Request.get, Itoa.
  destruct (Command c) as [|arg args] eqn:Ecmd; cbn [map] in *;
    revert Hdec Hatoi Hi Ht Hfloat;
    generalize (FormatInt (MemoryMB c)) (FormatBool (Interactive c)) (FormatBool (Tty c))
      (FormatFloat (Cpus c));
    [|generalize (map EncodeToString args) (EncodeToString arg)];
    intros;
    destruct (DisableCleanMode c) eqn:Ed, (TargetType_eqb (Type_ c) TargetPhys) eqn:Et,
      (0 <? String.length (ContainerName c))%nat eqn:En,
      (0 <? String.length (ContainerID c))%nat eqn:Ec;
    try (apply length_zero in En); try (apply length_zero in Ec);
    repeat match goal with
           | |- context [@lookup ?K ?A ?M ?L ?k ?h] =>
               let v := eval vm_compute in (@lookup K A M L k h) in
               replace (@lookup K A M L k h) with v by (vm_compute; reflexivity)
           end;
    cbv beta iota delta [default from_option id Request.first Request.bind];
    rewrite ?Hi, ?Ht, ?Hfloat, ?Hatoi, ?Hdec;
    cbv beta iota delta [Request.bind];
    rewrite ?Hi, ?Ht, ?Hfloat, ?Hatoi, ?Hdec;
    cbn; rewrite ?En, ?Ec; reflexivity.
Qed.


End ClientToAgent.

Lemma client_request_read_back_witness :
  Request.GetRequestInfo ClientSide.parseFloatSample ClientSide.decodeSample
    (ClientSide.startHeader ClientSide.encodeSample ClientSide.formatFloatSample
       ClientSide.shellClient)
  = Request.Ok (ClientSide.infoOf ClientSide.shellClient).
Proof.
  apply (client_request_read_back ClientSide.encodeSample ClientSide.decodeSample
           ClientSide.formatFloatSample ClientSide.parseFloatSample ClientSide.shellClient).
  - intros s. unfold ClientSide.decodeSample, ClientSide.encodeSample.
    rewrite prefix_app, TrimPrefix_app. reflexivity.
  - reflexivity.
  - vm_compute. split; [discriminate | reflexivity].
Defined.

Section ResizeRoundTrip.
Import GoStrings Strconv ClientSide Backend.

(** X24.  A resize sent by the client is the resize the agent
    performs, when the one read of the agent returns the frame in one
    piece.  The text frame of [Resize height width] then makes the
    inbound task call the resize of the session with the same height
    and width when both are positive; with a height or a width of
    zero or less the frame is passed over.  The frame of
    [CloseSession], read in one piece, ends the inbound task.  The
    frame of a resize has at most the 128 bytes of the buffer of the
    agent. *)
Theorem resize_round_trip (height width : Z) (n : nat) :
  - 2 ^ 63 <= height < 2 ^ 63 ->
  - 2 ^ 63 <= width < 2 ^ 63 ->
  (String.length (ClientSide.Resize height width) <= n)%nat ->
  processTextMessage (ClientSide.Resize height width) (ReadBytes n)
  = (if (height >? 0) && (width >? 0) then Backend.Resize height width else Continue)
  /\ ((String.length CloseSession <= n)%nat ->
      processTextMessage CloseSession (ReadBytes n) = Return)
  /\ (String.length (ClientSide.Resize height width) <= 128)%nat.
Proof.
  intros Hh Hw Hn.
  assert (String.length (ClientSide.Resize height width) <= 128)%nat as Hlen.
  { unfold ClientSide.Resize. rewrite !length_append. cbn [String.length].
    pose proof (FormatInt_length height). pose proof (FormatInt_length width). lia. }
  split; [|split; [|exact Hlen]].
  - assert (forall m, hasChar "," (FormatInt m) = false) as Hcomma
      by (intros m; apply FormatInt_hasChar; reflexivity).
    rewrite (processTextMessage_resize _
               (FormatInt height +:+ String "," (FormatInt width)) n)
      by (rewrite (readBytes_all _ _ Hn Hlen); reflexivity).
    rewrite (SplitChar_app _ _ _ (Hcomma height)), (SplitChar_nosep _ _ (Hcomma width)).
    rewrite (Atoi_FormatInt height Hh), (Atoi_FormatInt width Hw). reflexivity.
  - intros Hc. unfold processTextMessage.
    rewrite (readBytes_all CloseSession n Hc) by (cbn; lia). reflexivity.
Qed.

Lemma resize_round_trip_witness :
  processTextMessage (ClientSide.Resize 24 80) (ReadBytes 13) = Backend.Resize 24 80
  /\ ((String.length CloseSession <= 13)%nat ->
      processTextMessage CloseSession (ReadBytes 13) = Return).
Proof.
  destruct (resize_round_trip 24 80 13) as (H1 & H2 & _).
  - vm_compute. split; [discriminate | reflexivity].
  - vm_compute. split; [discriminate | reflexivity].
  - vm_compute. lia.
  - split; [exact H1 | exact H2].
Defined.

End ResizeRoundTrip.


(** ** The blocking buffer of the client *)

Section Buffer.
Import BlockingBuffer.

Lemma inv_boot : inv boot.
Proof.
  exists [], []. cbn. repeat split; try reflexivity; try (intros; congruence); auto.
Qed.

Lemma inv_step (s s' : System) : inv s -> step s s' -> inv s'.
Proof.
  intros (r & w & Hr & Hw & Hc & He & Hwr & Hd & Hsig & Hwpc) Hstep.
  destruct Hstep as [s n Hpc|s n Hpc Hnil|s n r0 Hpc Hr0 Hne|s n Hpc Hr0 Hn|s n Hpc Hs
                    |s n Hpc Hs Hcl|s n Hpc Hnil|s n r0 Hpc Hr0|s p w0 Hpc Hw0|s Hpc Hcl
                    |s Hpc Hcl]; unfold inv; cbn.
  - exists r, w. rewrite Hpc in *. cbn in *. repeat split; auto; try discriminate.
    intros Hne. destruct (Hsig Hne) as [?|[?|[m Hm]]]; auto. discriminate Hm.
  - congruence.
  - rewrite Hr in Hr0. injection Hr0 as <-. exists (skipn n r), w.
    rewrite Hpc in *. cbn in *. repeat split; auto; try discriminate.
    + rewrite Hwr, <- !List.app_assoc. f_equal.
      rewrite List.app_assoc, List.firstn_skipn. reflexivity.
    + intros Hne'. destruct (Hsig Hne') as [?|[?|[m Hm]]]; auto. discriminate Hm.
  - exists r, w. rewrite Hpc in *. cbn in *. repeat split; auto.
    + intros _. congruence.
    + intros Hne. destruct (Hsig Hne) as [?|[?|[m Hm]]]; auto. discriminate Hm.
  - exists r, w. rewrite Hpc in *. cbn in *. repeat split; auto.
    intros _. right. right. exists n. reflexivity.
  - congruence.
  - congruence.
  - rewrite Hr in Hr0. injection Hr0 as <-. exists w, [].
    rewrite Hpc in *. cbn in *. repeat split; auto; try discriminate;
      try (intros H; contradiction).
    rewrite Hwr, (Hd eq_refl), List.app_nil_r. reflexivity.
  - rewrite Hw in Hw0. injection Hw0 as <-. exists r, (w ++ p)%list.
    cbn. repeat split; auto.
    rewrite Hwr, <- !List.app_assoc. reflexivity.
  - exists r, w. cbn. repeat split; auto.
  - congruence.
Qed.

Lemma buffer_inv (s : System) : reachable s -> inv s.
Proof.
  induction 1 as [|s s' _ IH Hs]; [exact inv_boot | exact (inv_step s s' IH Hs)].
Qed.

(** X25.  In every run of one reader and one writer in which [Close]
    is not called, the bytes that the [Read] calls have returned,
    followed by the content of the read buffer and of the write
    buffer, are the bytes written, in the order of writing: [Read]
    returns a prefix of what was written, the swap of the buffers
    drops nothing, and no [Read] has returned [io.EOF]. *)
Theorem buffer_keeps_order (s : System) :
  reachable s ->
  exists r w,
    readBuffer (buf s) = Some r
    /\ writeBuffer (buf s) = Some w
    /\ written s = (delivered s ++ r ++ w)%list
    /\ eof s = false.
Proof.
  intros H. destruct (buffer_inv s H) as (r & w & Hr & Hw & _ & He & Hwr & _).
  exists r, w. auto.
Qed.

(** X26.  No wake-up is lost.  In such a run, when the reader is
    blocked on the channel and the writer is outside [Write] while
    written bytes are still to be read, the channel holds its token:
    the reader can go on, and after the swap it finds these bytes. *)
Theorem buffer_wakes_reader (s : System) (n : nat) :
  reachable s ->
  reader s = RWait n ->
  writer s = WIdle ->
  written s <> delivered s ->
  signal (buf s) = true
  /\ exists s', step s s' /\ reader s' = RSwap n.
Proof.
  intros H Hr Hw Hne.
  destruct (buffer_inv s H) as (r & w & _ & _ & _ & _ & Hwr & Hd & Hsig & _).
  rewrite Hr in Hd. specialize (Hd eq_refl). subst r.
  assert (w <> []) as Hwne.
  { intros ->. apply Hne. rewrite Hwr, List.app_nil_r. reflexivity. }
  destruct (Hsig Hwne) as [Hs|[Hs|[m Hs]]]; [|congruence|congruence].
  split; [exact Hs|]. eexists. split; [exact (read_wake s n Hr Hs) | reflexivity].
Qed.

(** One more step of a run: [k] builds the step from the state
    reached; the state after it is kept in normal form. *)
Ltac advance H k :=
  match type of H with
  | reachable ?s =>
      let st := k s in
      match type of st with
      | step _ ?s' =>
          let s'' := eval cbv in s' in
          let R := fresh "R" in
          assert (reachable s'') as R by exact (reach_step s s' H st);
          clear H; rename R into H
      end
  | reachableC ?s =>
      let st := k s in
      match type of st with
      | step _ ?s' =>
          let s'' := eval cbv in s' in
          let R := fresh "R" in
          assert (reachableC s'') as R by exact (reachC_step s s' H st);
          clear H; rename R into H
      end
  end.

Ltac advanceC H k :=
  match type of H with
  | reachableC ?s =>
      let st := k s in
      match type of st with
      | closeStep _ ?s' =>
          let s'' := eval cbv in s' in
          let R := fresh "R" in
          assert (reachableC s'') as R by exact (reachC_close s s' H st);
          clear H; rename R into H
      end
  end.

Lemma waiting_reachable : reachable waiting.
Proof.
  pose proof reach_boot as H. unfold boot, NewBlockingBuffer in H.
  advance H ltac:(fun s => constr:(read_call s 4 eq_refl)).
  advance H ltac:(fun s => constr:(read_top_drained s 4 eq_refl eq_refl (Nat.neq_succ_0 3))).
  advance H ltac:(fun s => constr:(write_call s [x68; x69] [] eq_refl eq_refl)).
  advance H ltac:(fun s => constr:(write_signal s eq_refl eq_refl)).
  exact H.
Defined.

Lemma buffer_keeps_order_witness :
  exists r w,
    readBuffer (buf waiting) = Some r
    /\ writeBuffer (buf waiting) = Some w
    /\ written waiting = (delivered waiting ++ r ++ w)%list
    /\ eof waiting = false.
Proof. apply (buffer_keeps_order waiting). exact waiting_reachable. Defined.

Lemma buffer_wakes_reader_witness :
  signal (buf waiting) = true /\ exists s', step waiting s' /\ reader s' = RSwap 4.
Proof.
  apply (buffer_wakes_reader waiting 4).
  - exact waiting_reachable.
  - reflexivity.
  - reflexivity.
  - discriminate.
Defined.

(** X27.  [Close] does not always wait for the reader.  Its loop
    tests the length of the read buffer and then that of the write
    buffer, without the lock; when the reader swaps the buffers
    between the two tests, both tests see an empty buffer.  For every
    non-empty write there is a run of one reader and one writer in
    which the write has returned, [Close] is then called and returns,
    and the one [Read] call returns [io.EOF] without a byte. *)
Theorem close_can_overtake_reader (p : list byte) (n : nat) :
  p <> [] ->
  n <> O ->
  reachableC (dropped p).
Proof.
  intros Hp Hn.
  pose proof reachC_boot as H. unfold boot, NewBlockingBuffer in H.
  advance H ltac:(fun s => constr:(read_call s n eq_refl)).
  advance H ltac:(fun s => constr:(read_top_drained s n eq_refl eq_refl Hn)).
  advance H ltac:(fun s => constr:(write_call s p [] eq_refl eq_refl)).
  advance H ltac:(fun s => constr:(write_signal s eq_refl eq_refl)).
  advanceC H ltac:(fun s => constr:(close_call s eq_refl)).
  advanceC H ltac:(fun s => constr:(poll_read_empty s eq_refl eq_refl)).
  advance H ltac:(fun s => constr:(read_wake s n eq_refl eq_refl)).
  advance H ltac:(fun s => constr:(read_swap s n [] eq_refl eq_refl)).
  advanceC H ltac:(fun s => constr:(poll_write_empty s eq_refl eq_refl)).
  advanceC H ltac:(fun s => constr:(close_signal s eq_refl eq_refl)).
  advanceC H ltac:(fun s => constr:(close_reset s eq_refl)).
  advance H ltac:(fun s => constr:(read_top_nil s n eq_refl eq_refl)).
  exact H.
Qed.

Lemma close_can_overtake_reader_witness : reachableC (dropped [x68; x69]).
Proof. apply (close_can_overtake_reader [x68; x69] 4); discriminate. Defined.

End Buffer.


(** ** The image that is pulled *)

Section ImagePull.
Import GoStrings Sidecar SidecarPull.

Lemma pullReference_bare (name : string) :
  hasChar ":" name = false -> pullReference name = name +:+ ":latest".
Proof.
  intros H. unfold pullReference. rewrite (SplitChar_nosep _ _ H). reflexivity.
Qed.

Lemma pullReference_tagged (name tag : string) :
  hasChar ":" name = false -> hasChar ":" tag = false ->
  pullReference (name +:+ String ":" tag) = name +:+ String ":" tag.
Proof.
  intros Hn Ht. unfold pullReference.
  rewrite (SplitChar_app _ _ _ Hn), (SplitChar_nosep _ _ Ht). reflexivity.
Qed.

Lemma pullReference_cut (name mid rest : string) :
  hasChar ":" name = false -> hasChar ":" mid = false ->
  pullReference (name +:+ String ":" (mid +:+ String ":" rest)) = name +:+ String ":" mid.
Proof.
  intros Hn Hm. unfold pullReference.
  rewrite (SplitChar_app _ _ _ Hn), (SplitChar_app _ _ _ Hm).
  destruct (SplitChar rest ":") eqn:E; [now apply SplitChar_nonempty in E|]. reflexivity.
Qed.

Lemma byteOf_colon (c : ascii) : byteOf c <> 58%N -> Ascii.eqb ":" c = false.
Proof.
  intros H. destruct (Ascii.eqb_spec ":" c) as [<-|]; [|reflexivity].
  exfalso. apply H. reflexivity.
Qed.

Ltac bytes :=
  repeat match goal with
         | H : (_ || _) = true |- _ => apply orb_prop in H; destruct H as [H|H]
         | H : (_ && _) = true |- _ => apply andb_prop in H; destruct H as [? H]
         | H : (_ =? _)%N = true |- _ => apply N.eqb_eq in H
         | H : (_ <=? _)%N = true |- _ => apply N.leb_le in H
         end.

Lemma asciiSpace_colon (c : ascii) : asciiSpace c = true -> Ascii.eqb ":" c = false.
Proof. unfold asciiSpace. intros H. apply byteOf_colon. bytes; lia. Qed.

Lemma twoByteSpace_colon (c d : ascii) :
  twoByteSpace c d = true -> Ascii.eqb ":" c = false /\ Ascii.eqb ":" d = false.
Proof. unfold twoByteSpace. intros H. split; apply byteOf_colon; bytes; lia. Qed.

Lemma threeByteSpace_colon (c d e : ascii) :
  threeByteSpace c d e = true ->
  Ascii.eqb ":" c = false /\ Ascii.eqb ":" d = false /\ Ascii.eqb ":" e = false.
Proof. unfold threeByteSpace. intros H. repeat split; apply byteOf_colon; bytes; lia. Qed.

(** A blank string holds no colon. *)
Lemma blank_colon (s : string) : blank s = true -> hasChar ":" s = false.
Proof.
  assert (forall n s, (String.length s <= n)%nat -> blank s = true -> hasChar ":" s = false)
    as H; [|apply (H (String.length s)); lia].
  clear s. induction n as [|n IH]; intros s Hl Hb.
  - destruct s; [reflexivity | cbn in Hl; lia].
  - destruct s as [|c r]; [reflexivity|]. cbn [blank] in Hb. cbn [String.length] in Hl.
    rewrite hasChar_cons.
    destruct (asciiSpace c) eqn:Ea.
    { rewrite (asciiSpace_colon c Ea). apply IH; [lia | exact Hb]. }
    destruct r as [|d r1]; [discriminate|]. cbn [String.length] in Hl. rewrite hasChar_cons.
    destruct (twoByteSpace c d) eqn:E2.
    { destruct (twoByteSpace_colon c d E2) as [-> ->]. apply IH; [lia | exact Hb]. }
    destruct r1 as [|e r2]; [discriminate|]. cbn [String.length] in Hl. rewrite hasChar_cons.
    destruct (threeByteSpace c d e) eqn:E3; [|discriminate].
    destruct (threeByteSpace_colon c d e E3) as (-> & -> & ->). apply IH; [lia | exact Hb].
Qed.

Lemma blank_with_colon (a b : string) : blank (a +:+ String ":" b) = false.
Proof.
  destruct (blank (a +:+ String ":" b)) eqn:E; [|reflexivity].
  apply blank_colon in E. rewrite hasChar_append in E.
  apply orb_false_elim in E as [_ E]. rewrite hasChar_cons in E. discriminate.
Qed.

(** X28.  [PullMissingImage] works on the built-in default image
    when the image it is given is blank, and on the given image
    otherwise.  What it asks the runtime to pull when that image is
    not there (or the pull is forced): for an image without a colon
    the image with ":latest"; for [name:tag] the image itself; for an
    image with two or more colons only the text before the second
    colon, so that of [host:port/name:tag] the tag is left out; for a
    blank image the default image.  When the call succeeds it returns
    the image it worked on, not the reference that was pulled. *)
Theorem pull_reference (name mid rest : string) (force : bool) (api : ImageAPI) :
  hasChar ":" name = false ->
  hasChar ":" mid = false ->
  imageExists api = inr false \/ (imageExists api = inr true /\ force = true) ->
  (forall image,
      fst (PullMissingImage image force true api)
      = Some (pullReference (if blank image then defaultSidecarImage else image)))
  /\ (blank name = false ->
      fst (PullMissingImage name force true api) = Some (name +:+ ":latest"))
  /\ fst (PullMissingImage (name +:+ String ":" mid) force true api)
     = Some (name +:+ String ":" mid)
  /\ fst (PullMissingImage (name +:+ String ":" (mid +:+ String ":" rest)) force true api)
     = Some (name +:+ String ":" mid)
  /\ (forall image, blank image = true ->
                    fst (PullMissingImage image force true api) = Some defaultSidecarImage)
  /\ forall image r,
       snd (PullMissingImage image force true api) = inr r ->
       r = if blank image then defaultSidecarImage else image.
Proof.
  intros Hn Hm Hex.
  assert (forall image,
             fst (PullMissingImage image force true api)
             = Some (pullReference (if blank image then defaultSidecarImage else image)))
    as Hfst.
  { intros image. unfold PullMissingImage. cbn [negb].
    destruct Hex as [-> | [-> ->]]; cbn [andb negb];
      destruct (pullErr api); [reflexivity| |reflexivity|];
      destruct (readErr api); [reflexivity| |reflexivity|];
      destruct (inspectAfter api); reflexivity. }
  split; [exact Hfst|]. split; [|split; [|split; [|split]]].
  - intros Hb. rewrite Hfst, Hb, (pullReference_bare _ Hn). reflexivity.
  - rewrite Hfst, blank_with_colon, (pullReference_tagged _ _ Hn Hm). reflexivity.
  - rewrite Hfst, blank_with_colon, (pullReference_cut _ _ rest Hn Hm). reflexivity.
  - intros image Hb. rewrite Hfst, Hb. reflexivity.
  - intros image r. unfold PullMissingImage. cbn [negb].
    destruct (imageExists api) as [e|ex]; [discriminate|].
    destruct (ex && negb force); [intros [= <-]; reflexivity|].
    destruct (pullErr api); [discriminate|]. destruct (readErr api); [discriminate|].
    destruct (inspectAfter api); [intros [= <-]; reflexivity | discriminate].
Qed.

Lemma pull_reference_witness :
  fst (PullMissingImage "registry.example.com" false true missing)
  = Some ("registry.example.com" +:+ ":latest")
  /\ fst (PullMissingImage ("registry.example.com" +:+ String ":" "5000/sidecar")
            false true missing)
     = Some ("registry.example.com" +:+ String ":" "5000/sidecar")
  /\ fst (PullMissingImage
            ("registry.example.com" +:+ String ":" ("5000/sidecar" +:+ String ":" "v2"))
            false true missing)
     = Some ("registry.example.com" +:+ String ":" "5000/sidecar")
  /\ fst (PullMissingImage "  " false true missing) = Some "trust-tunnel-sidecar:latest"
  /\ snd (PullMissingImage "  " false true missing) = inr "trust-tunnel-sidecar:latest".
Proof.
  destruct (pull_reference "registry.example.com" "5000/sidecar" "v2" false missing)
    as (_ & H1 & H2 & H3 & H4 & H5).
  - reflexivity.
  - reflexivity.
  - left. reflexivity.
  - split; [exact (H1 eq_refl)|]. split; [exact H2|]. split; [exact H3|].
    split; [exact (H4 "  " eq_refl)|].
    destruct (snd (PullMissingImage "  " false true missing)) as [e|r] eqn:E.
    + vm_compute in E. discriminate.
    + rewrite (H5 "  " r E). reflexivity.
Defined.

End ImagePull.
